(** * The data pipeline of [python-data/data.py]

    A shallow embedding of the three functions of the file,
    [clean_quarterly_data], [prepare_data] and [collect_data], together
    with the part of pandas they rely on.

    Conventions.
    - A Python float is a binary64 value, NaN and the infinities
      included, and the float operations of the code (the mean of the
      missing flags and its comparison with the threshold, the product
      for the split index and [int]) are the IEEE 754 operations, as the
      Standard Library specifies them ([SpecFloat], 53 bits of
      precision).  The numbers in the cells of a panel are only moved
      around by the code and are kept as rationals; so is the length of
      a sleep.
    - pandas is modelled as of version 3: the dtype of a column is an
      attribute that [ffill] and [bfill] leave as it is.
    - A DataFrame is a Python object: the functions work on references
      into a store of frames, so that [copy], the [inplace=True] methods
      and column assignment are what they are in Python.
    - Console output, provider requests and [time.sleep] are recorded, in
      order, in the event log of the world.
    - The provider (fredapi), the scaler (scikit-learn), the batch source
      (torch) and the CSV reader are external: they are variables of the
      sections that use them. *)

From Stdlib Require Import String Ascii ZArith QArith Qround Bool Arith Lia.
From Stdlib Require Import Uint63 Floats DecimalString List.
Import ListNotations.

Close Scope Q_scope.
Local Open Scope string_scope.
Local Open Scope list_scope.

(** ** Frames *)

(** A row label: a date (as its ordinal) or a position. *)
Definition Label := Z.

(** A cell: a missing value (NaN, None, NaT), a number or text. *)
Inductive Cell : Type :=
| NaN
| Num (q : Q)
| Str (s : string).

Inductive DType : Type :=
| float64
| int64
| bool_
| datetime64
| object_.

(** What [include=["number"]] selects. *)
Definition is_number (d : DType) : bool :=
  match d with
  | float64 | int64 => true
  | _ => false
  end.

(** A series: its observations, one per label, in order (fredapi builds
    it from a dict keyed by date). *)
Record Series : Type := mkSeries
  { s_dtype : DType;
    s_obs : list (Label * Cell) }.

Definition s_index (s : Series) : list Label := map fst (s_obs s).

Record Column : Type := mkColumn
  { label : string;
    dtype : DType;
    values : list Cell }.

Record DataFrame : Type := mkDataFrame
  { index : list Label;
    columns : list Column }.

Definition isna (c : Cell) : bool :=
  match c with
  | NaN => true
  | _ => false
  end.

Definition notna (c : Cell) : bool := negb (isna c).

Definition labels (df : DataFrame) : list string := map label (columns df).

(** [df.shape] *)
Definition shape (df : DataFrame) : nat * nat :=
  (length (index df), length (columns df)).

(** [pd.DataFrame()] *)
Definition empty_frame : DataFrame := mkDataFrame [] [].

(** The columns a label selects: [df[col]] is a Series when there is
    one, a DataFrame when the label is repeated. *)
Definition columns_named (df : DataFrame) (col : string) : list Column :=
  filter (fun c => String.eqb (label c) col) (columns df).

Definition mem (s : string) (l : list string) : bool :=
  existsb (String.eqb s) l.

(** ** Floats *)

(** A float: a binary64 value. *)
Definition binary64 : Type := spec_float.

Definition fzero : binary64 := S754_zero false.
Definition fone : binary64 := S754_finite false 4503599627370496 (-52).

(** The floats that the literals [0.2], [0.3], [0.5] and [0.9] denote. *)
Definition f0_2 : binary64 := S754_finite false 7205759403792794 (-55).
Definition f0_3 : binary64 := S754_finite false 5404319552844595 (-54).
Definition f0_5 : binary64 := S754_finite false 4503599627370496 (-53).
Definition f0_9 : binary64 := S754_finite false 8106479329266893 (-53).

(** A count as a float.  A count below 2^53 is a float exactly, and no
    frame that a machine holds has more rows; the conversion is cut
    there. *)
Definition max_count : Z := 9007199254740991.
Definition of_count (n : nat) : binary64 :=
  binary_normalize prec emax (Z.min (Z.of_nat n) max_count) 0 false.

(** A count that is not 0, as a float: a mantissa [m] of 53 digits. *)
Definition count_shape (k : Z) (m : positive) (e : Z) : Prop :=
  Z.pos (digits2_pos m) = 53%Z /\ (-52 <= e <= 0)%Z /\ Z.pos m = (k * 2 ^ (- e))%Z.

(** The last step of a rounding: the mantissa is brought back to 53
    digits and the exponent is checked. *)
Definition finish (s : bool) (rn e : Z) : binary64 :=
  let '(mrs, e') := shr_fexp prec emax rn e loc_Exact in
  match shr_m mrs with
  | Z0 => S754_zero s
  | Z.pos m => if (e' <=? emax - prec)%Z then S754_finite s m e' else S754_infinity s
  | Z.neg _ => S754_nan
  end.

(** [strict_gt a b] is the float comparison [a > b]: false when one of
    the two is NaN. *)
Definition strict_gt (a b : binary64) : bool := SFltb b a.

(** [m / n] for two counts, in floats; NaN for 0 / 0. *)
Definition fraction (m n : nat) : binary64 := SF64div (of_count m) (of_count n).

(** [values.isna().mean()]: the sum of the missing flags over their
    count, NaN for a column without rows. *)
Definition isna_mean (vs : list Cell) : binary64 :=
  fraction (length (filter isna vs)) (length vs).

(** [m > thresh] *)
Definition exceeds (m thresh : binary64) : bool := strict_gt m thresh.

(** The order of the floats that are not NaN, as the place of each:
    minus infinity, the negative numbers, zero (of either sign), the
    positive numbers, plus infinity. *)
Definition rank (x : binary64) : option (Z * Z * Z) :=
  match x with
  | S754_nan => None
  | S754_infinity true => Some (-2, 0, 0)%Z
  | S754_finite true m e => Some (-1, - e, - Z.pos m)%Z
  | S754_zero _ => Some (0, 0, 0)%Z
  | S754_finite false m e => Some (1, e, Z.pos m)%Z
  | S754_infinity false => Some (2, 0, 0)%Z
  end.

Definition before (a b : Z * Z * Z) : Prop :=
  let '(a1, a2, a3) := a in
  let '(b1, b2, b3) := b in
  (a1 < b1 \/ (a1 = b1 /\ (a2 < b2 \/ (a2 = b2 /\ a3 < b3))))%Z.

(** [a] is strictly below [b]: neither is NaN and [a] comes first. *)
Definition below (a b : binary64) : Prop :=
  exists x y, rank a = Some x /\ rank b = Some y /\ before x y.

(** [df.drop(columns=names)] *)
Definition drop_columns (df : DataFrame) (names : list string) : DataFrame :=
  mkDataFrame (index df)
    (filter (fun c => negb (mem (label c) names)) (columns df)).

(** Forward fill of one column: [last] is the last valid observation. *)
Fixpoint ffill_from (last : Cell) (vs : list Cell) : list Cell :=
  match vs with
  | [] => []
  | v :: rest =>
      if isna v then last :: ffill_from last rest
      else v :: ffill_from v rest
  end.

Definition ffill_values (vs : list Cell) : list Cell := ffill_from NaN vs.

(** Backward fill of one column: a missing cell takes the next valid
    observation, which is the head of the filled rest. *)
Fixpoint bfill_values (vs : list Cell) : list Cell :=
  match vs with
  | [] => []
  | v :: rest =>
      let rest' := bfill_values rest in
      (if isna v then hd NaN rest' else v) :: rest'
  end.

Definition map_values (f : list Cell -> list Cell) (df : DataFrame) : DataFrame :=
  mkDataFrame (index df)
    (map (fun c => mkColumn (label c) (dtype c) (f (values c))) (columns df)).

(** [df.ffill()] and [df.bfill()] *)
Definition ffill (df : DataFrame) : DataFrame := map_values ffill_values df.
Definition bfill (df : DataFrame) : DataFrame := map_values bfill_values df.

(** The cell of a column at a row position. *)
Definition cell_at (c : Column) (i : nat) : Cell := nth i (values c) NaN.

(** A row is complete when no column is missing there. *)
Definition row_complete (df : DataFrame) (i : nat) : bool :=
  forallb (fun c => notna (cell_at c i)) (columns df).

(** The positions [df.dropna(how='any')] keeps. *)
Definition complete_rows (df : DataFrame) : list nat :=
  filter (row_complete df) (seq 0 (length (index df))).

(** [df.iloc[rows]] *)
Definition take_rows (df : DataFrame) (rows : list nat) : DataFrame :=
  mkDataFrame (map (fun i => nth i (index df) 0%Z) rows)
    (map (fun c => mkColumn (label c) (dtype c) (map (cell_at c) rows))
         (columns df)).

(** [df.dropna(how='any')] *)
Definition dropna (df : DataFrame) : DataFrame :=
  take_rows df (complete_rows df).

(** [df.select_dtypes(include=["number"]).columns] *)
Definition number_columns (df : DataFrame) : list string :=
  map label (filter (fun c => is_number (dtype c)) (columns df)).

(** [df[names]]: each label brings the columns it selects. *)
Definition select_columns (df : DataFrame) (names : list string) : DataFrame :=
  mkDataFrame (index df) (flat_map (columns_named df) names).

(** [df.values]: the table by rows. *)
Definition to_values (df : DataFrame) : list (list Cell) :=
  map (fun i => map (fun c => cell_at c i) (columns df))
      (seq 0 (length (index df))).

(** The observation of a series at a label, NaN when it has none. *)
Fixpoint lookup_label (d : Label) (obs : list (Label * Cell)) : Cell :=
  match obs with
  | [] => NaN
  | (d', v) :: rest => if Z.eqb d d' then v else lookup_label d rest
  end.

(** [s.reindex(idx)] *)
Definition reindex (s : Series) (idx : list Label) : list Cell :=
  map (fun d => lookup_label d (s_obs s)) idx.

(** Replace the column called [name], or append it. *)
Fixpoint put_column (c : Column) (cols : list Column) : list Column :=
  match cols with
  | [] => [c]
  | c' :: rest =>
      if String.eqb (label c') (label c) then c :: rest
      else c' :: put_column c rest
  end.

(** [df[name] = s] for a Series [s].

    A frame whose index is empty takes the index of a value that has
    rows (pandas: [DataFrame._ensure_valid_index]) and its columns, which
    had no rows, are filled with NaN; then the value is aligned to the
    frame's index: observations at other labels are left out, labels
    without observation get NaN. *)
Definition setitem (df : DataFrame) (name : string) (s : Series) : DataFrame :=
  let adopt := match index df, s_obs s with
               | [], _ :: _ => true
               | _, _ => false
               end in
  let idx := if adopt then s_index s else index df in
  let old := if adopt
             then map (fun c => mkColumn (label c) (dtype c)
                                  (map (fun _ => NaN) idx)) (columns df)
             else columns df in
  mkDataFrame idx (put_column (mkColumn name (s_dtype s) (reindex s idx)) old).

(** ** The world: objects, console, provider, clock *)

(** A raised exception: its class and its message. *)
Record Exception : Type := mkException
  { exc_class : string;
    exc_msg : string }.

Definition ValueError (msg : string) : Exception := mkException "ValueError" msg.
Definition KeyError (msg : string) : Exception := mkException "KeyError" msg.
Definition OverflowError (msg : string) : Exception := mkException "OverflowError" msg.
Definition ReferenceError : Exception := mkException "ReferenceError" "".

Inductive Event : Type :=
| EvPrint (line : string)
| EvRequest (series_id : string)
| EvSleep (seconds : Q).

(** A reference to a frame: its position in the store. *)
Definition Ref := nat.

Record World : Type := mkWorld
  { heap : list DataFrame;
    events : list Event }.

(** A computation returns or raises, and leaves a world behind. *)
Definition M (A : Type) : Type := World -> (Exception + A) * World.

Definition ret {A} (a : A) : M A := fun w => (inr a, w).

Definition raise {A} (e : Exception) : M A := fun w => (inl e, w).

Definition bind {A B} (m : M A) (k : A -> M B) : M B :=
  fun w =>
    match m w with
    | (inr a, w') => k a w'
    | (inl e, w') => (inl e, w')
    end.

(** [try: body except Exception as e: handler e] *)
Definition try_except {A} (body : M A) (handler : Exception -> M A) : M A :=
  fun w =>
    match body w with
    | (inl e, w') => handler e w'
    | r => r
    end.

Declare Scope py_scope.
Delimit Scope py_scope with py.
Notation "x <- m ;; k" := (bind m (fun x => k))
  (at level 61, m at next level, right associativity) : py_scope.
Notation "m ;; k" := (bind m (fun _ => k))
  (at level 61, right associativity) : py_scope.
Local Open Scope py_scope.

(** A new object. *)
Definition new (df : DataFrame) : M Ref :=
  fun w => (inr (length (heap w)), mkWorld (heap w ++ [df]) (events w)).

(** The frame a reference points to. *)
Definition deref (r : Ref) : M DataFrame :=
  fun w =>
    match nth_error (heap w) r with
    | Some df => (inr df, w)
    | None => (inl ReferenceError, w)
    end.

Fixpoint update {A} (l : list A) (i : nat) (x : A) : list A :=
  match l, i with
  | [], _ => []
  | _ :: rest, O => x :: rest
  | y :: rest, S j => y :: update rest j x
  end.

(** Mutation of the object behind a reference. *)
Definition assign (r : Ref) (df : DataFrame) : M unit :=
  fun w => (inr tt, mkWorld (update (heap w) r df) (events w)).

Definition modify (r : Ref) (f : DataFrame -> DataFrame) : M unit :=
  df <- deref r ;; assign r (f df).

Definition emit (e : Event) : M unit :=
  fun w => (inr tt, mkWorld (heap w) (events w ++ [e])).

Definition print (line : string) : M unit := emit (EvPrint line).

(** [time.sleep(seconds)] *)
Definition time_sleep (seconds : Q) : M unit := emit (EvSleep seconds).

(** [for x in l: body x] *)
Fixpoint for_each {A} (l : list A) (body : A -> M unit) : M unit :=
  match l with
  | [] => ret tt
  | x :: rest => body x ;; for_each rest body
  end.

(** [[x for x in l if cond x]] *)
Fixpoint comprehension {A} (l : list A) (cond : A -> M bool) : M (list A) :=
  match l with
  | [] => ret []
  | x :: rest =>
      b <- cond x ;;
      tl <- comprehension rest cond ;;
      ret (if b then x :: tl else tl)
  end.

Definition str_nat (n : nat) : string := NilZero.string_of_uint (Nat.to_uint n).
Definition str_int (k : Z) : string := NilZero.string_of_int (Z.to_int k).

(** [str(df.shape)] *)
Definition str_shape (sh : nat * nat) : string :=
  "(" ++ str_nat (fst sh) ++ ", " ++ str_nat (snd sh) ++ ")".

(** ** Methods of a frame object *)

(** [df.copy()] *)
Definition df_copy (r : Ref) : M Ref := df <- deref r ;; new df.

Definition ambiguous : Exception :=
  ValueError "The truth value of a Series is ambiguous.".

(** [df[col].isna().mean() > thresh].  With a repeated label [df[col]]
    is a frame, the comparison yields a Series, and its truth value
    raises ValueError. *)
Definition isna_mean_exceeds (r : Ref) (col : string) (thresh : binary64) : M bool :=
  df <- deref r ;;
  match columns_named df col with
  | [] => raise (KeyError col)
  | [c] => ret (exceeds (isna_mean (values c)) thresh)
  | _ :: _ :: _ =>
      raise ambiguous
  end.

(** [df.columns] *)
Definition df_columns (r : Ref) : M (list string) :=
  df <- deref r ;; ret (labels df).

(** [df.drop(columns=names, inplace=True)] *)
Definition df_drop_inplace (r : Ref) (names : list string) : M unit :=
  modify r (fun df => drop_columns df names).

(** [df.ffill()], [df.bfill()]: new objects *)
Definition df_ffill (r : Ref) : M Ref := df <- deref r ;; new (ffill df).
Definition df_bfill (r : Ref) : M Ref := df <- deref r ;; new (bfill df).

(** [df.dropna(how='any', inplace=True)] *)
Definition df_dropna_inplace (r : Ref) : M unit := modify r dropna.

(** [df.select_dtypes(include=["number"]).columns] *)
Definition df_number_columns (r : Ref) : M (list string) :=
  df <- deref r ;; ret (number_columns df).

(** [df[names]]: a new object *)
Definition df_getitem (r : Ref) (names : list string) : M Ref :=
  df <- deref r ;; new (select_columns df names).

(** [df.shape] *)
Definition df_shape (r : Ref) : M (nat * nat) :=
  df <- deref r ;; ret (shape df).

(** [df[name] = s] *)
Definition df_setitem (r : Ref) (name : string) (s : Series) : M unit :=
  modify r (fun df => setitem df name s).

(** ** [clean_quarterly_data] *)

Definition clean_quarterly_data (df : Ref) (col_thresh : binary64) : M Ref :=
  clean_df <- df_copy df ;;
  (* Drop columns exceeding col_thresh fraction of missing *)
  cols <- df_columns clean_df ;;
  drop_cols <- comprehension cols
                 (fun col => isna_mean_exceeds clean_df col col_thresh) ;;
  df_drop_inplace clean_df drop_cols ;;
  (* Forward fill, then backward fill *)
  filled <- df_ffill clean_df ;;
  clean_df <- df_bfill filled ;;
  df_dropna_inplace clean_df ;;
  (* Drop non-numeric columns *)
  numeric_cols <- df_number_columns clean_df ;;
  clean_df <- df_getitem clean_df numeric_cols ;;
  sh <- df_shape clean_df ;;
  print ("Cleaned dataset shape: " ++ str_shape sh) ;;
  ret clean_df.

(** The frame a run returns, or the exception it raises. *)
Definition outcome (run : (Exception + Ref) * World) : Exception + DataFrame :=
  match run with
  | (inr r, w) =>
      match nth_error (heap w) r with
      | Some out => inr out
      | None => inl ReferenceError
      end
  | (inl e, _) => inl e
  end.

(** The frame a call on [panel] returns ([clean] of the specification):
    [clean_quarterly_data] run on a reference to [panel]. *)
Definition clean (panel : DataFrame) (thresh : binary64) : Exception + DataFrame :=
  outcome (clean_quarterly_data 0 thresh (mkWorld [panel] [])).

(** *** The same, step by step on values

    What the call computes when the labels of the panel are distinct;
    [clean_unfold] below relates it to [clean]. *)

(** The label selects exactly one column. *)
Definition single (df : DataFrame) (col : string) : bool :=
  match columns_named df col with
  | [_] => true
  | _ => false
  end.

Definition unique_labels (df : DataFrame) : bool :=
  forallb (single df) (labels df).

(** The missing fraction of a column is above the threshold. *)
Definition too_sparse (thresh : binary64) (c : Column) : bool :=
  exceeds (isna_mean (values c)) thresh.

Definition label_too_sparse (df : DataFrame) (thresh : binary64) (col : string) : bool :=
  match columns_named df col with
  | [c] => too_sparse thresh c
  | _ => false
  end.

(** The missing fraction of a column is strictly above the threshold. *)
Definition above (thresh : binary64) (c : Column) : Prop :=
  below thresh (isna_mean (values c)).

(** A column after forward fill, then backward fill. *)
Definition fill_column (c : Column) : Column :=
  mkColumn (label c) (dtype c) (bfill_values (ffill_values (values c))).

(** The list [drop_cols] of the code. *)
Definition drop_cols (df : DataFrame) (thresh : binary64) : list string :=
  filter (label_too_sparse df thresh) (labels df).

(** The frame after column pruning (line 119). *)
Definition pruned (df : DataFrame) (thresh : binary64) : DataFrame :=
  drop_columns df (drop_cols df thresh).

(** The frame after filling and row pruning (line 124). *)
Definition filled (df : DataFrame) (thresh : binary64) : DataFrame :=
  dropna (bfill (ffill (pruned df thresh))).

Definition clean_steps (df : DataFrame) (thresh : binary64) : DataFrame :=
  let d := filled df thresh in
  select_columns d (number_columns d).

(** The objects a call leaves in the store, in order of creation. *)
Definition clean_objects (df : DataFrame) (thresh : binary64) : list DataFrame :=
  [ pruned df thresh;
    ffill (pruned df thresh);
    filled df thresh;
    clean_steps df thresh ].

Definition clean_log (df : DataFrame) (thresh : binary64) : list Event :=
  [ EvPrint ("Cleaned dataset shape: " ++ str_shape (shape (clean_steps df thresh))) ].

(** ** Arrays, slices, [int] *)

(** A two-dimensional array: its rows and the number of its columns
    (which an array without rows still has). *)
Record ndarray (A : Type) : Type := mkArray
  { ncols : nat;
    rows : list (list A) }.

Arguments mkArray {A} _ _.
Arguments ncols {A} _.
Arguments rows {A} _.

(** [a.shape] *)
Definition array_shape {A} (a : ndarray A) : nat * nat :=
  (length (rows a), ncols a).

(** [df.values] *)
Definition frame_values (df : DataFrame) : ndarray Cell :=
  mkArray (length (columns df)) (to_values df).

(** [int(x)] for a float: truncation towards zero; ValueError for NaN
    and OverflowError for an infinity. *)
Definition py_int (x : binary64) : Exception + Z :=
  match x with
  | S754_nan => inl (ValueError "cannot convert float NaN to integer")
  | S754_infinity _ =>
      inl (OverflowError "cannot convert float infinity to integer")
  | S754_zero _ => inr 0%Z
  | S754_finite s m e =>
      inr (cond_Zopp s
             (match e with
              | Z.neg p => Z.shiftr (Z.pos m) (Z.pos p)
              | _ => Z.shiftl (Z.pos m) e
              end))
  end.

(** The position a slice bound [k] denotes in a sequence of [n] items:
    a negative bound counts from the end, and bounds are clipped. *)
Definition slice_bound (n : nat) (k : Z) : nat :=
  if (k <? 0)%Z then Z.to_nat (Z.max 0 (k + Z.of_nat n))
  else Nat.min (Z.to_nat k) n.

(** [l[:k]] and [l[k:]] *)
Definition slice_to {A} (l : list A) (k : Z) : list A :=
  firstn (slice_bound (length l) k) l.
Definition slice_from {A} (l : list A) (k : Z) : list A :=
  skipn (slice_bound (length l) k) l.

(** The rational a finite float denotes (0 for the others). *)
Definition exact (x : binary64) : Q :=
  match x with
  | S754_finite s m e =>
      let a := match e with
               | Z.neg p => (Z.pos m # 2 ^ p)%Q
               | _ => inject_Z (Z.pos m * 2 ^ e)
               end in
      if s then (- a)%Q else a
  | _ => 0%Q
  end.

(** ** [EconomicDataset] *)

Record EconomicDataset (A : Type) : Type := mkDataset
  { data : list (list A) }.

Arguments mkDataset {A} _.
Arguments data {A} _.

(** [__len__] and [__getitem__] *)
Definition dataset_len {A} (d : EconomicDataset A) : nat := length (data d).
Definition dataset_getitem {A} (d : EconomicDataset A) (idx : nat) : option (list A) :=
  nth_error (data d) idx.

(** A batch source: what it was built from. *)
Record DataLoader (A : Type) : Type := mkLoader
  { dataset : EconomicDataset A;
    batch_size : Z;
    shuffle : bool }.

Arguments mkLoader {A} _ _ _.
Arguments dataset {A} _.
Arguments batch_size {A} _.
Arguments shuffle {A} _.

Record Prepared (S A : Type) : Type := mkPrepared
  { train_loader : DataLoader A;
    test_loader : DataLoader A;
    scaler : S;
    feature_names : list string }.

Arguments mkPrepared {S A} _ _ _ _.
Arguments train_loader {S A} _.
Arguments test_loader {S A} _.
Arguments scaler {S A} _.
Arguments feature_names {S A} _.

(** [int((1 - test_size) * n)]: the difference and the product are
    float operations, [n] is converted to a float. *)
Definition split_index (test_size : binary64) (n : nat) : Exception + Z :=
  py_int (SF64mul (SF64sub fone test_size) (of_count n)).

(** What scikit-learn's input validation does to an array without rows
    or without columns: ValueError (found array with 0 samples, or with
    0 features, while a minimum of 1 is required). *)
Definition rejects_empty {S A : Type}
  (fit_transform : ndarray Cell -> Exception + (S * ndarray A)) : Prop :=
  forall a, rows a = [] \/ ncols a = 0 ->
    exists msg, fit_transform a = inl (ValueError msg).

(** ** [prepare_data] *)

Section Prepare.

(** [pd.read_csv]: the frame a path holds, or the error of reading it. *)
Variable read_csv : string -> Exception + DataFrame.

(** [StandardScaler().fit_transform]: the fitted scaler and the scaled
    array, or the error of the validation it does.  [Scaler] is the
    fitted object, [Scaled] an entry of the scaled array. *)
Variables Scaler Scaled : Type.
Variable fit_transform : ndarray Cell -> Exception + (Scaler * ndarray Scaled).

(** What the constructor of torch's [DataLoader] rejects. *)
Variable loader_rejects : EconomicDataset Scaled -> Z -> bool -> option Exception.

Definition pd_read_csv (path : string) : M Ref :=
  match read_csv path with
  | inr df => new df
  | inl e => raise e
  end.

Definition df_values (r : Ref) : M (ndarray Cell) :=
  df <- deref r ;; ret (frame_values df).

Definition scaler_fit_transform (a : ndarray Cell) : M (Scaler * ndarray Scaled) :=
  match fit_transform a with
  | inr res => ret res
  | inl e => raise e
  end.

Definition new_loader (d : EconomicDataset Scaled) (batch : Z) (shuf : bool)
  : M (DataLoader Scaled) :=
  match loader_rejects d batch shuf with
  | Some e => raise e
  | None => ret (mkLoader d batch shuf)
  end.

Definition py_split_index (test_size : binary64) (n : nat) : M Z :=
  match split_index test_size n with
  | inr k => ret k
  | inl e => raise e
  end.

Definition prepare_data (csv_path : string) (test_size : binary64) (batch : Z)
  : M (Prepared Scaler Scaled) :=
  (* Load raw data *)
  df <- pd_read_csv csv_path ;;
  sh <- df_shape df ;;
  print ("Original dataset shape: " ++ str_shape sh) ;;
  (* Store feature names *)
  names <- df_columns df ;;
  (* Clean data *)
  cleaned_df <- clean_quarterly_data df f0_3 ;;
  (* Scale numeric data *)
  vals <- df_values cleaned_df ;;
  fitted <- scaler_fit_transform vals ;;
  let scaled_data := snd fitted in
  (* Split train/test *)
  split_idx <- py_split_index test_size (length (rows scaled_data)) ;;
  let train_data := mkArray (ncols scaled_data) (slice_to (rows scaled_data) split_idx) in
  let test_data := mkArray (ncols scaled_data) (slice_from (rows scaled_data) split_idx) in
  (* Create Datasets *)
  let train_dataset := mkDataset (rows train_data) in
  let test_dataset := mkDataset (rows test_data) in
  (* Create DataLoaders *)
  train <- new_loader train_dataset batch true ;;
  test <- new_loader test_dataset batch false ;;
  print ("Training dataset shape: " ++ str_shape (array_shape train_data)) ;;
  print ("Testing dataset shape: " ++ str_shape (array_shape test_data)) ;;
  ret (mkPrepared train test (fst fitted) names).

End Prepare.

(** ** [collect_data] *)

(** The catalog: categories in order, each with its series in order,
    a series as (identifier, display name). *)
Definition Catalog := list (string * list (string * string)).

Section Collect.

(** [fred.get_series(series_id, frequency='q', aggregation_method='avg')]:
    the answer of the provider for an identifier. *)
Variable get_series : string -> Exception + Series.

Definition fred_get_series (series_id : string) : M Series :=
  emit (EvRequest series_id) ;;
  match get_series series_id with
  | inr s => ret s
  | inl e => raise e
  end.

(** The body of the inner loop. *)
Definition fetch_one (df : Ref) (entry : string * string) : M unit :=
  let '(series_id, series_name) := entry in
  try_except
    (series <- fred_get_series series_id ;;
     df_setitem df series_name series ;;
     print ("Added " ++ series_name ++ " (" ++ series_id ++ ")") ;;
     time_sleep (2 # 10))  (* FRED rate limit: 120 requests/minute *)
    (fun e =>
       print ("Failed to fetch " ++ series_name ++ " (" ++ series_id ++ "): "
              ++ exc_msg e)).

Definition collect_data (series_map : Catalog) : M Ref :=
  df <- new empty_frame ;;
  for_each series_map (fun item =>
    for_each (snd item) (fetch_one df)) ;;
  ret df.

End Collect.

(** The catalog of the file. *)
Definition series_map : Catalog :=
  [ ("GDP and Economic Growth",
     [ ("GDPC1", "Real_GDP");
       ("A939RX0Q048SBEA", "Real_Disposable_Income");
       ("PCE", "Personal_Consumption") ]);
    ("Labor Market",
     [ ("UNRATE", "Unemployment_Rate");
       ("PAYEMS", "Nonfarm_Payrolls");
       ("CES0500000003", "Avg_Hourly_Earnings");
       ("LNS11300060", "U6_Unemployment");
       ("JTSJOL", "Job_Openings");
       ("LNS12300060", "Labor_Force_Participation") ]);
    ("Inflation and Prices",
     [ ("CPIAUCSL", "CPI_All_Items");
       ("CPILFESL", "Core_CPI");
       ("PPIACO", "Producer_Price_Index");
       ("PCEPILFE", "Core_PCE_Price_Index") ]);
    ("Monetary Policy and Finance",
     [ ("FEDFUNDS", "Federal_Funds_Rate");
       ("DGS10", "10Y_Treasury_Yield");
       ("M2SL", "M2_Money_Stock");
       ("WALCL", "Fed_Balance_Sheet");
       ("DTB3", "3M_Treasury_Yield");
       ("MORTGAGE30US", "30Y_Mortgage_Rate");
       ("T10YIE", "10Y_Inflation_Expect");
       ("USD3MTD156N", "3M_LIBOR") ]);
    ("Financial Markets",
     [ ("SP500", "S&P_500_Index");
       ("VIXCLS", "VIX_Index");
       ("DTWEXB", "Dollar_Index");
       ("DEXUSEU", "USD_EUR_Rate");
       ("GOLDAMGBD228NLBM", "Gold_Price") ]);
    ("Production and Business Activity",
     [ ("INDPRO", "Industrial_Production");
       ("TCU", "Capacity_Utilization");
       ("IPB51100N", "Business_Equipment_Prod");
       ("IPG211S", "Energy_Production");
       ("IPCONGD", "Consumer_Goods_Prod");
       ("AMTMNO", "New_Manufacturing_Orders") ]);
    ("Consumer Behavior",
     [ ("UMCSENT", "Consumer_Sentiment");
       ("RSAFS", "Retail_Sales");
       ("PSAVERT", "Personal_Saving_Rate");
       ("TOTALSL", "Consumer_Credit");
       ("RRSFS", "Retail_Sales_Food_Services") ]);
    ("Housing Market",
     [ ("HOUST", "Housing_Starts");
       ("CSUSHPINSA", "Case_Shiller_Home_Price");
       ("MSPUS", "Median_Home_Price");
       ("HSN1F", "New_Home_Sales");
       ("BPPRIV", "Building_Permits") ]);
    ("International Trade",
     [ ("BOPGSTB", "Trade_Balance");
       ("XTEXVA01USM667S", "Exports");
       ("XTIMVA01USM667S", "Imports") ]);
    ("Banking and Credit",
     [ ("REALLN", "Commercial_Loans");
       ("TOTCI", "C&I_Loans");
       ("EXCSRESNW", "Excess_Reserves") ]);
    ("Energy and Commodities",
     [ ("DCOILWTICO", "Crude_Oil_Price") ]);
    ("Regional Indicators",
     [ ("NYUR", "NY_Unemployment");
       ("CASACBW027SBOG", "CA_Commercial_Loans") ]);
    ("Economic Indices",
     [ ("USALOLITONOSTSAM", "Leading_Index");
       ("STLFSI4", "Financial_Stress_Index");
       ("WABSI", "Bank_Stress_Index") ]) ].

(** *** The run of [collect_data], on values *)

(** The series of the catalog in the order they are requested. *)
Definition entries (cat : Catalog) : list (string * string) :=
  flat_map snd cat.

(** The series fetched successfully, each with its display name. *)
Definition fetched (get_series : string -> Exception + Series)
  (es : list (string * string)) : list (string * Series) :=
  flat_map (fun entry =>
              match get_series (fst entry) with
              | inr s => [(snd entry, s)]
              | inl _ => []
              end) es.

(** The panel those series make, assigned in order to [df]. *)
Definition assemble (df : DataFrame) (cols : list (string * Series)) : DataFrame :=
  fold_left (fun d col => setitem d (fst col) (snd col)) cols df.

(** What one round of the loop adds to the log. *)
Definition round_log (get_series : string -> Exception + Series)
  (entry : string * string) : list Event :=
  let '(series_id, series_name) := entry in
  match get_series series_id with
  | inr _ =>
      [ EvRequest series_id;
        EvPrint ("Added " ++ series_name ++ " (" ++ series_id ++ ")");
        EvSleep (2 # 10) ]
  | inl e =>
      [ EvRequest series_id;
        EvPrint ("Failed to fetch " ++ series_name ++ " (" ++ series_id ++ "): "
                 ++ exc_msg e) ]
  end.

Definition has_rows (s : Series) : bool :=
  match s_obs s with
  | [] => false
  | _ :: _ => true
  end.

(** The first series with at least one observation. *)
Definition first_with_rows (cols : list (string * Series)) : option Series :=
  option_map snd (find (fun col => has_rows (snd col)) cols).

(** The column a series makes in a frame with index [idx]. *)
Definition aligned (name : string) (s : Series) (idx : list Label) : Column :=
  mkColumn name (s_dtype s) (reindex s idx).

(** Pacing of the requests in a log: after a request, a pause of at
    least [pause] seconds comes before the next request.  [owed] says
    that a request is still waiting for its pause. *)
Fixpoint paced (pause : Q) (owed : bool) (log : list Event) : bool :=
  match log with
  | [] => true
  | EvRequest _ :: rest => negb owed && paced pause true rest
  | EvSleep s :: rest => paced pause (owed && negb (Qle_bool pause s)) rest
  | EvPrint _ :: rest => paced pause owed rest
  end.

Definition is_request (e : Event) : bool :=
  match e with
  | EvRequest _ => true
  | _ => false
  end.

(** Every column of [df] is a series of [done], aligned to the index. *)
Definition sourced (df : DataFrame) (done : list (string * Series)) : Prop :=
  forall c, In c (columns df) ->
    exists s, In (label c, s) done /\ c = aligned (label c) s (index df).




(** While the frame has no row, the series assigned so far had none. *)
Definition unborn (df : DataFrame) (done : list (string * Series)) : Prop :=
  index df = [] -> forall col, In col done -> s_obs (snd col) = [].

(** ** Order of rows *)

(** [l1] is [l2] with some items left out, the others in their order. *)
Inductive subsequence {A : Type} : list A -> list A -> Prop :=
| sub_nil : subsequence [] []
| sub_skip : forall x l1 l2, subsequence l1 l2 -> subsequence l1 (x :: l2)
| sub_keep : forall x l1 l2, subsequence l1 l2 -> subsequence (x :: l1) (x :: l2).

(** A frame without missing cell. *)
Definition complete (df : DataFrame) : Prop :=
  forall c, In c (columns df) -> forall v, In v (values c) -> isna v = false.

(** A frame whose columns all have a numeric dtype. *)
Definition numeric (df : DataFrame) : Prop :=
  forall c, In c (columns df) -> is_number (dtype c) = true.

(** Every column has one cell per row. *)
Definition rectangular (df : DataFrame) : Prop :=
  forall c, In c (columns df) -> length (values c) = length (index df).

(** *** The run of [prepare_data], on values *)

Section PrepareSteps.

Variable read_csv : string -> Exception + DataFrame.
Variables Scaler Scaled : Type.
Variable fit_transform : ndarray Cell -> Exception + (Scaler * ndarray Scaled).
Variable loader_rejects : EconomicDataset Scaled -> Z -> bool -> option Exception.

(** From the split index on (lines 151 to 165). *)
Definition load_steps (names : list string) (fitted : Scaler * ndarray Scaled)
  (split_idx : Z) (batch : Z) (w : World)
  : (Exception + Prepared Scaler Scaled) * World :=
  let arr := snd fitted in
  let train := slice_to (rows arr) split_idx in
  let test := slice_from (rows arr) split_idx in
  match loader_rejects (mkDataset train) batch true with
  | Some e => (inl e, w)
  | None =>
      match loader_rejects (mkDataset test) batch false with
      | Some e => (inl e, w)
      | None =>
          (inr (mkPrepared (mkLoader (mkDataset train) batch true)
                           (mkLoader (mkDataset test) batch false)
                           (fst fitted) names),
           mkWorld (heap w)
             (events w
              ++ [ EvPrint ("Training dataset shape: "
                            ++ str_shape (length train, ncols arr));
                   EvPrint ("Testing dataset shape: "
                            ++ str_shape (length test, ncols arr)) ]))
      end
  end.

(** From the scaled array on (line 150): [int] can raise. *)
Definition split_steps (names : list string) (fitted : Scaler * ndarray Scaled)
  (test_size : binary64) (batch : Z) (w : World)
  : (Exception + Prepared Scaler Scaled) * World :=
  match split_index test_size (length (rows (snd fitted))) with
  | inl e => (inl e, w)
  | inr split_idx => load_steps names fitted split_idx batch w
  end.

Definition prepare_steps (csv_path : string) (test_size : binary64) (batch : Z) (w : World)
  : (Exception + Prepared Scaler Scaled) * World :=
  match read_csv csv_path with
  | inl e => (inl e, w)
  | inr df =>
      let log := events w
                 ++ [EvPrint ("Original dataset shape: " ++ str_shape (shape df))] in
      if unique_labels df then
        let w' := mkWorld ((heap w ++ [df]) ++ clean_objects df f0_3)
                          (log ++ clean_log df f0_3) in
        match fit_transform (frame_values (clean_steps df f0_3)) with
        | inl e => (inl e, w')
        | inr fitted => split_steps (labels df) fitted test_size batch w'
        end
      else (inl ambiguous, mkWorld ((heap w ++ [df]) ++ [df]) log)
  end.

End PrepareSteps.

(** ** A reference for the external parts

    One instance of the externals, to run the functions on given inputs:
    a disk with one file, a scaler that standardizes each column (the
    square root kept symbolic) after the validation scikit-learn does,
    and the check of the batch-source constructor. *)

Module Reference.

Definition read_csv (file : string) (content : DataFrame) (path : string)
  : Exception + DataFrame :=
  if String.eqb path file then inr content
  else inl (mkException "FileNotFoundError" path).

(** The fitted scaler: mean and variance of each column. *)
Record Scaler : Type := mkScaler
  { mean_ : list Q;
    var_ : list Q }.

(** A standardized entry [centred / sqrt variance] ([centred] itself
    when the variance is 0). *)
Record Scaled : Type := mkScaled
  { centred : Q;
    variance : Q }.

Definition number (c : Cell) : option Q :=
  match c with
  | Num x => Some x
  | _ => None
  end.

Fixpoint numbers (l : list Cell) : option (list Q) :=
  match l with
  | [] => Some []
  | c :: rest =>
      match number c, numbers rest with
      | Some x, Some xs => Some (x :: xs)
      | _, _ => None
      end
  end.

Fixpoint number_rows (l : list (list Cell)) : option (list (list Q)) :=
  match l with
  | [] => Some []
  | r :: rest =>
      match numbers r, number_rows rest with
      | Some x, Some xs => Some (x :: xs)
      | _, _ => None
      end
  end.

Definition mean (l : list Q) : Q :=
  Qred (fold_right Qplus 0%Q l / inject_Z (Z.of_nat (length l)))%Q.

Definition var (l : list Q) : Q :=
  let m := mean l in mean (map (fun x => (x - m) * (x - m))%Q l).

Definition column (j : nat) (xs : list (list Q)) : list Q :=
  map (fun r => nth j r 0%Q) xs.

(** The cleaned panel has no missing cell, so how the scaler treats NaN
    is not modelled: a cell that is not a number is rejected. *)
Definition fit_transform (a : ndarray Cell) : Exception + (Scaler * ndarray Scaled) :=
  match number_rows (rows a) with
  | None => inl (ValueError "could not convert string to float")
  | Some xs =>
      match xs, ncols a with
      | [], _ =>
          inl (ValueError "Found array with 0 sample(s) while a minimum of 1 is required by StandardScaler.")
      | _, O =>
          inl (ValueError "Found array with 0 feature(s) while a minimum of 1 is required by StandardScaler.")
      | _, _ =>
          let js := seq 0 (ncols a) in
          let means := map (fun j => mean (column j xs)) js in
          let vars := map (fun j => var (column j xs)) js in
          inr (mkScaler means vars,
               mkArray (ncols a)
                 (map (fun r =>
                         map (fun j => mkScaled (Qred (nth j r 0 - nth j means 0))%Q
                                                (nth j vars 0%Q)) js) xs))
      end
  end.

(** The sampler of a shuffling source is built first and rejects a
    dataset without rows; then the batch size is checked. *)
Definition loader_rejects (d : EconomicDataset Scaled) (batch : Z) (shuf : bool)
  : option Exception :=
  if shuf && Nat.eqb (dataset_len d) 0
  then Some (ValueError
               "num_samples should be a positive integer value, but got num_samples=0")
  else if (batch <=? 0)%Z
       then Some (ValueError
                    ("batch_size should be a positive integer value, but got batch_size="
                     ++ str_int batch))
       else None.

(** [prepare_data] on a disk that holds [content] at [file]. *)
Definition prepare_data (file : string) (content : DataFrame)
  (csv_path : string) (test_size : binary64) (batch : Z) : M (Prepared Scaler Scaled) :=
  prepare_data (read_csv file content) Scaler Scaled fit_transform loader_rejects
    csv_path test_size batch.

End Reference.

(** The world before anything ran. *)
Definition world0 : World := mkWorld [] [].

(** ** The float expressions on the floats of the machine

    The same two expressions on Rocq's primitive floats, which are the
    binary64 floats of the processor. *)

Module Binary64.

(** A count as a float. *)
Definition of_count (n : Z) : float := PrimFloat.of_uint63 (Uint63.of_Z n).

(** [int(x)]: truncation towards zero; an error for NaN and infinities. *)
Definition py_int (x : float) : option Z :=
  match Prim2SF x with
  | SpecFloat.S754_zero _ => Some 0%Z
  | SpecFloat.S754_finite neg m e =>
      let a := match e with
               | Zneg p => Z.shiftr (Zpos m) (Zpos p)
               | _ => Z.shiftl (Zpos m) e
               end in
      Some (if neg then Z.opp a else a)
  | _ => None
  end.

(** [isna().mean() > col_thresh] for a column of [n] cells, [missing] of
    them missing. *)
Definition isna_mean_exceeds (missing n : Z) (col_thresh : float) : bool :=
  PrimFloat.ltb col_thresh (PrimFloat.div (of_count missing) (of_count n)).

(** [int((1 - test_size) * n)] *)
Definition split_index (test_size : float) (n : Z) : option Z :=
  py_int (PrimFloat.mul (PrimFloat.sub PrimFloat.one test_size) (of_count n)).

(** The floats [0.3] and [0.2]. *)
Definition f0_3 : float := 0x1.3333333333333p-2%float.
Definition f0_2 : float := 0x1.999999999999ap-3%float.

End Binary64.

(** ** Sample inputs *)

Module Sample.

(** Ten quarters: [gdp] misses 3 cells of 10, [rate] misses 4, [note] is
    text, [pce] is full. *)
Definition quarters : DataFrame :=
  mkDataFrame [0; 1; 2; 3; 4; 5; 6; 7; 8; 9]%Z
    [ mkColumn "gdp" float64
        [NaN; Num 11; Num 12; NaN; Num 14; Num 15; Num 16; Num 17; Num 18; NaN];
      mkColumn "rate" float64
        [Num 5; NaN; NaN; Num 4; NaN; Num 3; Num 3; NaN; Num 2; Num 2];
      mkColumn "note" object_
        [Str "a"; Str "b"; Str "c"; Str "d"; Str "e";
         Str "f"; Str "g"; Str "h"; Str "i"; Str "j"];
      mkColumn "pce" int64
        [Num 1; Num 2; Num 3; Num 4; Num 5; Num 6; Num 7; Num 8; Num 9; Num 10] ].

Definition gdp : Column := nth 0 (columns quarters) (mkColumn "" object_ []).
Definition rate : Column := nth 1 (columns quarters) (mkColumn "" object_ []).

(** What cleaning [quarters] at 0.3 gives. *)
Definition quarters_clean : DataFrame :=
  mkDataFrame [0; 1; 2; 3; 4; 5; 6; 7; 8; 9]%Z
    [ mkColumn "gdp" float64
        [Num 11; Num 11; Num 12; Num 12; Num 14; Num 15; Num 16; Num 17; Num 18; Num 18];
      mkColumn "pce" int64
        [Num 1; Num 2; Num 3; Num 4; Num 5; Num 6; Num 7; Num 8; Num 9; Num 10] ].

(** Two worlds that hold [quarters]: alone, and after another object
    and a request. *)
Definition alone : World := mkWorld [quarters] [].
Definition crowded : World :=
  mkWorld [empty_frame; quarters] [EvRequest "GDPC1"].

(** A hundred rows, one numeric column. *)
Definition hundred : DataFrame :=
  mkDataFrame (map Z.of_nat (seq 0 100))
    [ mkColumn "gdp" float64 (map (fun i => Num (inject_Z (Z.of_nat i))) (seq 0 100)) ].

(** Two rows, one numeric column. *)
Definition two_rows : DataFrame :=
  mkDataFrame [0; 1]%Z [ mkColumn "gdp" float64 [Num 1; Num 3] ].

(** Two rows, dates only. *)
Definition dates_only : DataFrame :=
  mkDataFrame [0; 1]%Z [ mkColumn "date" object_ [Str "2020-01-01"; Str "2020-04-01"] ].

(** A catalog of two series. *)
Definition two_series : Catalog := [ ("Growth", [ ("A", "a"); ("B", "b") ]) ].

Definition series_b : Series := mkSeries float64 [ (1%Z, Num 5) ].

(** The provider fails on [A] and answers [B]. *)
Definition a_fails (series_id : string) : Exception + Series :=
  if String.eqb series_id "B" then inr series_b
  else inl (ValueError "Bad Request.  The series does not exist.").

(** The provider answers [A] without any observation, and [B]. *)
Definition a_is_empty (series_id : string) : Exception + Series :=
  if String.eqb series_id "B" then inr series_b
  else inr (mkSeries float64 []).

End Sample.

(** The partitions a run of [prepare_data] returned. *)
Definition partitions {S A} (run : (Exception + Prepared S A) * World)
  : option (list (list A) * list (list A)) :=
  match fst run with
  | inr res => Some (data (dataset (train_loader res)), data (dataset (test_loader res)))
  | inl _ => None
  end.

(** The class of the exception a run raised. *)
Definition raised {A} (run : (Exception + A) * World) : option string :=
  match fst run with
  | inl e => Some (exc_class e)
  | inr _ => None
  end.

(** ** More of the file: counts of a log, kept columns *)

Definition is_sleep (e : Event) : bool :=
  match e with
  | EvSleep _ => true
  | _ => false
  end.

(** The columns [clean] keeps: not too sparse, and of numeric dtype. *)
Definition kept (thresh : binary64) (c : Column) : bool :=
  negb (too_sparse thresh c) && is_number (dtype c).

(** The columns of [df] are the series of [done], in order, each aligned
    to the index. *)
Definition in_order (df : DataFrame) (done : list (string * Series)) : Prop :=
  columns df = map (fun col => aligned (fst col) (snd col) (index df)) done.

(** A column with at least one observed cell. *)
Definition observed (c : Column) : Prop :=
  exists v, In v (values c) /\ isna v = false.

Module More.

(** A column with a leading gap, an inner gap and a trailing gap. *)
Definition gappy : list Cell :=
  [NaN; NaN; Num 3; NaN; Num 5; NaN].

(** The provider fails on every series. *)
Definition all_fail (series_id : string) : Exception + Series :=
  inl (ValueError "Bad Request.  The series does not exist.").

(** The provider answers every series with the same two observations. *)
Definition all_answer (series_id : string) : Exception + Series :=
  inr (mkSeries float64 [ (1%Z, Num 5); (2%Z, Num 6) ]).

(** A panel with a column that is missing throughout. *)
Definition with_void : DataFrame :=
  mkDataFrame [0; 1]%Z
    [ mkColumn "gdp" float64 [Num 1; Num 3];
      mkColumn "void" float64 [NaN; NaN] ].

(** A batch-source constructor that accepts everything. *)
Definition accepts (d : EconomicDataset Reference.Scaled) (batch : Z) (shuf : bool)
  : option Exception := None.

End More.

(** * Properties *)

(** ** Floats: counts, their quotient, the order *)

Lemma digits_bounds p :
  (2 ^ (Z.pos (digits2_pos p) - 1) <= Z.pos p < 2 ^ Z.pos (digits2_pos p))%Z.
Proof.
  induction p as [p IH|p IH|]; cbn [digits2_pos].
  - rewrite Pos2Z.inj_succ.
    replace (Z.succ (Z.pos (digits2_pos p)) - 1)%Z with (Z.succ (Z.pos (digits2_pos p) - 1))%Z by lia.
    rewrite !Z.pow_succ_r by lia. lia.
  - rewrite Pos2Z.inj_succ.
    replace (Z.succ (Z.pos (digits2_pos p)) - 1)%Z with (Z.succ (Z.pos (digits2_pos p) - 1))%Z by lia.
    rewrite !Z.pow_succ_r by lia. lia.
  - cbn. lia.
Qed.

Lemma digits_unique p k :
  (2 ^ (k - 1) <= Z.pos p < 2 ^ k)%Z -> Z.pos (digits2_pos p) = k.
Proof.
  intros [Hlo Hhi]. pose proof (digits_bounds p) as [Dlo Dhi].
  assert (Hk : (0 < k)%Z).
  { destruct (Z.lt_trichotomy k 0) as [H|[->|H]]; [|cbn in Hhi; lia|exact H].
    rewrite Z.pow_neg_r in Hhi by lia. lia. }
  destruct (Z.lt_trichotomy (Z.pos (digits2_pos p)) k) as [H|[H|H]]; [exfalso| exact H | exfalso].
  - assert (2 ^ Z.pos (digits2_pos p) <= 2 ^ (k - 1))%Z by (apply Z.pow_le_mono_r; lia). lia.
  - assert (2 ^ k <= 2 ^ (Z.pos (digits2_pos p) - 1))%Z by (apply Z.pow_le_mono_r; lia). lia.
Qed.

Lemma iter_xO p k : Z.pos (Pos.iter xO p k) = (Z.pos p * 2 ^ Z.pos k)%Z.
Proof.
  induction k as [|k IH] using Pos.peano_ind.
  - cbn. lia.
  - rewrite Pos.iter_succ, Pos2Z.inj_succ, Z.pow_succ_r by lia.
    rewrite Pos2Z.inj_xO, IH. lia.
Qed.

(** A mantissa of 53 digits at an exponent in range is left as it is. *)
Lemma round_canonical s m e l0 :
  Z.pos (digits2_pos m) = 53%Z -> (-1074 <= e <= 971)%Z -> l0 = loc_Exact ->
  binary_round_aux prec emax s (Z.pos m) e l0 = S754_finite s m e.
Proof.
  intros Hd He ->. unfold binary_round_aux, shr_fexp. cbn [Zdigits2]. rewrite Hd.
  unfold fexp, emin, prec, emax.
  replace (Z.max (53 + e - 53) (3 - 1024 - 53) - e)%Z with 0%Z by lia.
  cbn [shr shr_record_of_loc shr_m loc_of_shr_record round_nearest_even Zdigits2].
  rewrite Hd.
  replace (Z.max (53 + e - 53) (3 - 1024 - 53) - e)%Z with 0%Z by lia.
  cbn [shr shr_record_of_loc shr_m].
  destruct (Z.leb_spec e (1024 - 53)); [reflexivity | lia].
Qed.

Lemma normalize_count p :
  (Z.pos p <= max_count)%Z ->
  exists m e,
    binary_normalize prec emax (Z.pos p) 0 false = S754_finite false m e
    /\ count_shape (Z.pos p) m e.
Proof.
  intros Hmax. unfold max_count in Hmax.
  pose proof (digits_bounds p) as [Dlo Dhi].
  set (d := Z.pos (digits2_pos p)) in *.
  assert (Hd : (1 <= d <= 53)%Z).
  { split; [unfold d; lia|].
    destruct (Z.leb_spec d 53) as [H|H]; [exact H|exfalso].
    assert (2 ^ 53 <= 2 ^ (d - 1))%Z by (apply Z.pow_le_mono_r; lia).
    change (2 ^ 53)%Z with 9007199254740992%Z in *. lia. }
  unfold binary_normalize, binary_round, shl_align. fold d.
  assert (Hf : (fexp prec emax (d + 0) = d - 53)%Z)
    by (unfold fexp, emin, prec, emax; lia).
  rewrite Hf.
  destruct (Z.eq_dec d 53) as [H53|H53].
  - rewrite H53. cbn [Z.sub Z.add Z.opp Z.pos_sub Pos.compare Pos.compare_cont].
    change (53 - 53 - 0)%Z with 0%Z. cbn iota.
    exists p, 0%Z. split.
    + apply round_canonical; [exact H53 | lia | reflexivity].
    + split; [exact H53|]. split; [lia|]. cbn. lia.
  - replace (d - 53 - 0)%Z with (Z.neg (Z.to_pos (53 - d)))
      by (rewrite <- Pos2Z.opp_pos, Z2Pos.id by lia; lia).
    assert (Hm : Z.pos (Pos.iter xO p (Z.to_pos (53 - d))) = (Z.pos p * 2 ^ (53 - d))%Z).
    { rewrite iter_xO, Z2Pos.id by lia. reflexivity. }
    assert (Hdig : Z.pos (digits2_pos (Pos.iter xO p (Z.to_pos (53 - d)))) = 53%Z).
    { apply digits_unique. rewrite Hm. split.
      - replace (53 - 1)%Z with ((d - 1) + (53 - d))%Z by lia.
        rewrite Z.pow_add_r by lia. apply Z.mul_le_mono_nonneg_r; [apply Z.pow_nonneg; lia | exact Dlo].
      - replace 53%Z with (d + (53 - d))%Z at 2 by lia.
        rewrite Z.pow_add_r by lia. apply Z.mul_lt_mono_pos_r; [apply Z.pow_pos_nonneg; lia | exact Dhi]. }
    exists (Pos.iter xO p (Z.to_pos (53 - d))), (d - 53)%Z. split.
    + apply round_canonical; [exact Hdig | lia | reflexivity].
    + split; [exact Hdig|]. split; [lia|]. rewrite Hm. f_equal. f_equal. lia.
Qed.

Lemma of_count_zero : of_count 0 = fzero.
Proof. reflexivity. Qed.

Lemma of_count_pos n :
  0 < n ->
  exists m e,
    of_count n = S754_finite false m e
    /\ count_shape (Z.min (Z.of_nat n) max_count) m e.
Proof.
  intros Hn. unfold of_count.
  destruct (Z.min (Z.of_nat n) max_count) as [|p|p] eqn:Hk.
  - unfold max_count in Hk. lia.
  - apply normalize_count. rewrite <- Hk. apply Z.le_min_r.
  - unfold max_count in Hk. lia.
Qed.

Lemma new_location_exact nb : new_location nb 0 = loc_Exact.
Proof.
  unfold new_location, new_location_even, new_location_odd.
  destruct (Z.even nb); reflexivity.
Qed.

Lemma rne_cases m l :
  round_nearest_even m l = m \/ round_nearest_even m l = (m + 1)%Z.
Proof. destruct l as [|[]]; cbn; destruct (Z.even m); auto. Qed.

Lemma loc_of_record m l : loc_of_shr_record (shr_record_of_loc m l) = l.
Proof. destruct l as [|[]]; reflexivity. Qed.

Lemma shr_m_of_loc m l : shr_m (shr_record_of_loc m l) = m.
Proof. destruct l as [|[]]; reflexivity. Qed.

Lemma round_finish s mx ex lx :
  binary_round_aux prec emax s mx ex lx
  = let '(mrs, e) := shr_fexp prec emax mx ex lx in
    finish s (round_nearest_even (shr_m mrs) (loc_of_shr_record mrs)) e.
Proof. reflexivity. Qed.

Lemma finish_53 s p e :
  (2 ^ 52 <= Z.pos p < 2 ^ 53)%Z -> (-1074 <= e <= 971)%Z ->
  finish s (Z.pos p) e = S754_finite s p e.
Proof.
  intros Hp He.
  assert (Hd : Z.pos (digits2_pos p) = 53%Z) by (apply digits_unique; exact Hp).
  rewrite <- (round_canonical s p e loc_Exact Hd He eq_refl).
  unfold finish, binary_round_aux, shr_fexp. cbn [Zdigits2]. rewrite Hd.
  unfold fexp, emin, prec, emax.
  replace (Z.max (53 + e - 53) (3 - 1024 - 53) - e)%Z with 0%Z by lia.
  cbn [shr shr_record_of_loc shr_m loc_of_shr_record round_nearest_even Zdigits2].
  rewrite Hd.
  replace (Z.max (53 + e - 53) (3 - 1024 - 53) - e)%Z with 0%Z by lia.
  reflexivity.
Qed.

Lemma finish_54 s e :
  (-1074 <= e <= 970)%Z ->
  finish s 9007199254740992 e = S754_finite s 4503599627370496 (e + 1).
Proof.
  intros He. unfold finish, shr_fexp.
  change (Zdigits2 9007199254740992) with 54%Z.
  unfold fexp, emin, prec, emax.
  replace (Z.max (54 + e - 53) (3 - 1024 - 53) - e)%Z with 1%Z by lia.
  cbn [shr iter_pos shr_1 shr_record_of_loc shr_m].
  destruct (Z.leb_spec (e + 1) (1024 - 53)); [reflexivity | lia].
Qed.

(** After the rounding step: a mantissa between 2^52 and 2^53. *)
Lemma finish_cases s rn e :
  (2 ^ 52 <= rn <= 2 ^ 53)%Z -> (-1074 <= e <= 970)%Z ->
  exists mr er,
    finish s rn e = S754_finite s mr er
    /\ ((er = e /\ Z.pos mr = rn /\ rn < 2 ^ 53)
        \/ (er = e + 1 /\ mr = 4503599627370496%positive /\ rn = 2 ^ 53))%Z.
Proof.
  intros Hrn He.
  destruct (Z.eq_dec rn (2 ^ 53)) as [->|Hne].
  - exists 4503599627370496%positive, (e + 1)%Z. split.
    + apply (finish_54 s e He).
    + right. auto.
  - destruct rn as [|p|p]; try (cbn in Hrn; lia).
    exists p, e. split.
    + apply finish_53; lia.
    + left. repeat split. lia.
Qed.

Lemma shift_none p e l :
  (2 ^ 52 <= Z.pos p < 2 ^ 53)%Z -> (-1074 <= e)%Z ->
  shr_fexp prec emax (Z.pos p) e l = (shr_record_of_loc (Z.pos p) l, e).
Proof.
  intros Hp He. unfold shr_fexp. cbn [Zdigits2].
  rewrite (digits_unique p 53) by exact Hp.
  unfold fexp, emin, prec, emax.
  replace (Z.max (53 + e - 53) (3 - 1024 - 53) - e)%Z with 0%Z by lia.
  reflexivity.
Qed.

Lemma shift_one p e l :
  (2 ^ 53 <= Z.pos p < 2 ^ 54)%Z -> (-1074 <= e)%Z ->
  shr_fexp prec emax (Z.pos p) e l = (shr_1 (shr_record_of_loc (Z.pos p) l), (e + 1)%Z).
Proof.
  intros Hp He. unfold shr_fexp. cbn [Zdigits2].
  rewrite (digits_unique p 54) by exact Hp.
  unfold fexp, emin, prec, emax.
  replace (Z.max (54 + e - 53) (3 - 1024 - 53) - e)%Z with 1%Z by lia.
  reflexivity.
Qed.

Lemma shr_1_half p l :
  (2 <= Z.pos p)%Z ->
  exists h, shr_m (shr_1 (shr_record_of_loc (Z.pos p) l)) = Z.pos h
            /\ (2 * Z.pos h <= Z.pos p <= 2 * Z.pos h + 1)%Z.
Proof.
  intros Hp. destruct p as [h|h|]; [| |lia]; exists h;
    (split; [destruct l as [|[]]; reflexivity | lia]).
Qed.

(** Rounding a quotient that is not above 1 gives a float that is not
    above 1. *)
Lemma round_at_most_one s q e l :
  (2 ^ 52 <= q < 2 ^ 54)%Z -> (-1074 <= e)%Z ->
  (q <= 2 ^ (- e))%Z -> (q = 2 ^ (- e) -> l = loc_Exact)%Z ->
  exists mr er,
    binary_round_aux prec emax s q e l = S754_finite s mr er
    /\ (er < -52 \/ (er = -52 /\ mr = 4503599627370496%positive))%Z.
Proof.
  intros Hq He Hle Hex.
  assert (Hpow : forall k, (k < 52)%Z -> (2 ^ k < 2 ^ 52)%Z).
  { intros k Hk. destruct (Z.ltb_spec k 0) as [Hn|Hn].
    - rewrite Z.pow_neg_r by lia. lia.
    - apply Z.pow_lt_mono_r; lia. }
  assert (He52 : (e <= -52)%Z).
  { destruct (Z.leb_spec e (-52)) as [H|H]; [exact H|exfalso].
    specialize (Hpow (- e)%Z ltac:(lia)). lia. }
  destruct q as [|p|p]; try (cbn in Hq; lia).
  rewrite round_finish.
  destruct (Z.ltb_spec (Z.pos p) (2 ^ 53)) as [H53|H53].
  - rewrite shift_none by lia. rewrite shr_m_of_loc, loc_of_record.
    destruct (finish_cases s (round_nearest_even (Z.pos p) l) e) as (mr & er & -> & Hres).
    { destruct (rne_cases (Z.pos p) l) as [->| ->]; lia. }
    { lia. }
    exists mr, er. split; [reflexivity|].
    destruct Hres as [(-> & Hmr & Hlt)|(-> & -> & Hrn)].
    + destruct (Z.eq_dec e (-52)) as [He'|He']; [right | left; lia].
      split; [exact He'|]. subst e. change (2 ^ (- -52))%Z with (2 ^ 52)%Z in *.
      assert (Hp : Z.pos p = (2 ^ 52)%Z) by lia.
      rewrite (Hex Hp) in Hmr. cbn [round_nearest_even] in Hmr.
      rewrite Hp in Hmr. injection Hmr as ->. reflexivity.
    + destruct (Z.eq_dec e (-52)) as [He'|He'].
      * exfalso. subst e. change (2 ^ (- -52))%Z with (2 ^ 52)%Z in *.
        assert (Hp : Z.pos p = (2 ^ 52)%Z) by lia.
        rewrite (Hex Hp) in Hrn. cbn [round_nearest_even] in Hrn. lia.
      * destruct (Z.eq_dec e (-53)) as [He''|He'']; [right; split; [lia | reflexivity] | left; lia].
  - assert (He53 : (e <= -53)%Z).
    { destruct (Z.leb_spec e (-53)) as [H|H]; [exact H|exfalso].
      assert (e = -52)%Z by lia. subst e. change (2 ^ (- -52))%Z with (2 ^ 52)%Z in *. lia. }
    rewrite shift_one by lia.
    destruct (shr_1_half p l) as (h & Hh & Hhalf); [lia|].
    rewrite Hh.
    set (l' := loc_of_shr_record (shr_1 (shr_record_of_loc (Z.pos p) l))).
    destruct (finish_cases s (round_nearest_even (Z.pos h) l') (e + 1)) as (mr & er & -> & Hres).
    { change (2 ^ 54)%Z with (2 * 2 ^ 53)%Z in Hq. change (2 ^ 53)%Z with (2 * 2 ^ 52)%Z in H53.
      destruct (rne_cases (Z.pos h) l') as [->| ->]; change (2 ^ 53)%Z with (2 * 2 ^ 52)%Z; lia. }
    { lia. }
    exists mr, er. split; [reflexivity|].
    destruct (Z.eq_dec e (-53)) as [He'|He'].
    + subst e. change (2 ^ (- -53))%Z with (2 ^ 53)%Z in *.
      assert (Hp : Z.pos p = (2 ^ 53)%Z) by lia.
      specialize (Hex Hp). subst l. subst l'.
      injection Hp as ->. cbn in Hh. injection Hh as <-.
      cbn in Hres. right.
      destruct Hres as [(-> & Hmr & _)|(_ & _ & Hrn)]; [|discriminate].
      split; [reflexivity|]. injection Hmr as ->. reflexivity.
    + destruct Hres as [(-> & _ & _)|(-> & -> & _)]; [left; lia|].
      destruct (Z.eq_dec e (-54)) as [He''|He'']; [right; split; [lia | reflexivity] | left; lia].
Qed.

Lemma digits_53 m : Z.pos (digits2_pos m) = 53%Z -> (2 ^ 52 <= Z.pos m < 2 ^ 53)%Z.
Proof. intros H. pose proof (digits_bounds m) as Hb. rewrite H in Hb. exact Hb. Qed.

(** The quotient of two counts, the first not above the second. *)
Lemma div_at_most_one m1 e1 m2 e2 :
  Z.pos (digits2_pos m1) = 53%Z -> Z.pos (digits2_pos m2) = 53%Z ->
  (-52 <= e1 <= 0)%Z -> (-52 <= e2 <= 0)%Z ->
  (Z.pos m1 * 2 ^ (- e2) <= Z.pos m2 * 2 ^ (- e1))%Z ->
  exists mr er,
    SF64div (S754_finite false m1 e1) (S754_finite false m2 e2)
    = S754_finite false mr er
    /\ (er < -52 \/ (er = -52 /\ mr = 4503599627370496%positive))%Z.
Proof.
  intros Hd1 Hd2 He1 He2 Hle.
  pose proof (digits_53 m1 Hd1) as Hm1. pose proof (digits_53 m2 Hd2) as Hm2.
  unfold SF64div, SFdiv, SFdiv_core_binary. cbn [Zdigits2 xorb]. rewrite Hd1, Hd2.
  assert (Hexp : Z.min (fexp prec emax (53 + e1 - (53 + e2))) (e1 - e2) = (e1 - e2 - 53)%Z)
    by (unfold fexp, emin, prec, emax; lia).
  rewrite Hexp.
  replace (e1 - e2 - (e1 - e2 - 53))%Z with 53%Z by lia. cbv iota.
  rewrite Z.shiftl_mul_pow2 by lia.
  pose proof (Z_div_mod (Z.pos m1 * 2 ^ 53) (Z.pos m2) ltac:(lia)) as Hdiv.
  destruct (Z.div_eucl (Z.pos m1 * 2 ^ 53) (Z.pos m2)) as [q r].
  destruct Hdiv as [Hqr Hr].
  set (P1 := (2 ^ (- e1))%Z) in *. set (P2 := (2 ^ (- e2))%Z) in *.
  assert (HP1 : (0 < P1)%Z) by (apply Z.pow_pos_nonneg; lia).
  assert (HP2 : (0 < P2)%Z) by (apply Z.pow_pos_nonneg; lia).
  assert (Hpow : (2 ^ (- (e1 - e2 - 53)) * P2 = 2 ^ 53 * P1)%Z).
  { unfold P1, P2. rewrite <- !Z.pow_add_r by lia. f_equal. lia. }
  assert (Hq0 : (0 <= q)%Z) by nia.
  assert (Hqle : (q * P2 <= 2 ^ 53 * P1)%Z).
  { assert (Z.pos m2 * (q * P2) <= Z.pos m2 * (2 ^ 53 * P1))%Z by nia.
    apply Z.mul_le_mono_pos_l with (p := Z.pos m2); lia. }
  apply round_at_most_one.
  - split.
    + assert (Z.pos m2 * 2 ^ 52 < Z.pos m2 * (q + 1))%Z by nia.
      assert (2 ^ 52 < q + 1)%Z by (apply Z.mul_lt_mono_pos_l with (p := Z.pos m2); lia).
      lia.
    + assert (Z.pos m2 * q < Z.pos m2 * 2 ^ 54)%Z.
      { change (2 ^ 54)%Z with (2 * 2 ^ 53)%Z. change (2 ^ 53)%Z with (2 * 2 ^ 52)%Z in *. nia. }
      apply Z.mul_lt_mono_pos_l with (p := Z.pos m2); lia.
  - lia.
  - apply Z.mul_le_mono_pos_r with (p := P2); [exact HP2|]. rewrite Hpow. exact Hqle.
  - intros Heq. assert (Hr0 : r = 0%Z).
    { assert (q * P2 = 2 ^ 53 * P1)%Z by (rewrite Heq; exact Hpow). nia. }
    rewrite Hr0. apply new_location_exact.
Qed.

Lemma div_same m e :
  Z.pos (digits2_pos m) = 53%Z -> (-52 <= e <= 0)%Z ->
  SF64div (S754_finite false m e) (S754_finite false m e) = fone.
Proof.
  intros Hd He. pose proof (digits_53 m Hd) as Hm.
  unfold SF64div, SFdiv, SFdiv_core_binary. cbn [Zdigits2 xorb]. rewrite Hd.
  assert (Hexp : Z.min (fexp prec emax (53 + e - (53 + e))) (e - e) = (-53)%Z)
    by (unfold fexp, emin, prec, emax; lia).
  rewrite Hexp.
  replace (e - e - -53)%Z with 53%Z by lia. cbv iota.
  rewrite Z.shiftl_mul_pow2 by lia.
  pose proof (Z_div_mod (Z.pos m * 2 ^ 53) (Z.pos m) ltac:(lia)) as Hdiv.
  destruct (Z.div_eucl (Z.pos m * 2 ^ 53) (Z.pos m)) as [q r].
  destruct Hdiv as [Hqr Hr].
  assert (Hq : q = (2 ^ 53)%Z) by nia.
  assert (Hr0 : r = 0%Z) by nia.
  subst q r. rewrite new_location_exact. reflexivity.
Qed.

Lemma fraction_of_none n :
  fraction 0 n = if Nat.eqb n 0 then S754_nan else fzero.
Proof.
  unfold fraction. rewrite of_count_zero. destruct n as [|n]; [reflexivity|].
  destruct (of_count_pos (S n)) as (m & e & -> & _); [lia|]. reflexivity.
Qed.

Lemma fraction_at_most_one m n :
  0 < m <= n ->
  exists mr er,
    fraction m n = S754_finite false mr er
    /\ (er < -52 \/ (er = -52 /\ mr = 4503599627370496%positive))%Z.
Proof.
  intros [Hm Hmn]. unfold fraction.
  destruct (of_count_pos m Hm) as (m1 & e1 & -> & Hd1 & He1 & Hv1).
  destruct (of_count_pos n) as (m2 & e2 & -> & Hd2 & He2 & Hv2); [lia|].
  apply div_at_most_one; try assumption.
  rewrite Hv1, Hv2.
  assert (0 < 2 ^ (- e1))%Z by (apply Z.pow_pos_nonneg; lia).
  assert (0 < 2 ^ (- e2))%Z by (apply Z.pow_pos_nonneg; lia).
  assert (Z.min (Z.of_nat m) max_count <= Z.min (Z.of_nat n) max_count)%Z by lia.
  nia.
Qed.

Lemma fraction_of_whole n : 0 < n -> fraction n n = fone.
Proof.
  intros Hn. unfold fraction.
  destruct (of_count_pos n Hn) as (m & e & -> & Hd & He & _).
  apply div_same; assumption.
Qed.

(** ** The order of floats *)

Lemma SFltb_rank x y :
  SFltb x y = true <-> exists a b, rank x = Some a /\ rank y = Some b /\ before a b.
Proof.
  unfold SFltb. split.
  - destruct x as [[]|[]| |[] m1 e1], y as [[]|[]| |[] m2 e2]; cbn;
      try discriminate; intros H; eexists _, _; (split; [reflexivity|]);
      (split; [reflexivity|]); cbn; try lia.
    + destruct (Z.compare_spec e1 e2); try discriminate; try lia.
      right. split; [reflexivity|]. subst.
      change (Pos.compare_cont Eq m1 m2) with (Pos.compare m1 m2) in H.
      destruct (Pos.compare_spec m1 m2); try discriminate. lia.
    + destruct (Z.compare_spec e1 e2); try discriminate; try lia.
      right. split; [reflexivity|]. subst.
      change (Pos.compare_cont Eq m1 m2) with (Pos.compare m1 m2) in H.
      destruct (Pos.compare_spec m1 m2); try discriminate. lia.
  - intros (a & b & Ha & Hb & Hab).
    destruct x as [[]|[]| |[] m1 e1], y as [[]|[]| |[] m2 e2]; cbn in *;
      try discriminate; injection Ha as <-; injection Hb as <-; cbn in Hab;
      try reflexivity; try lia.
    + destruct (Z.compare_spec e1 e2); try lia.
      subst. change (Pos.compare_cont Eq m1 m2) with (Pos.compare m1 m2).
      destruct (Pos.compare_spec m1 m2); try reflexivity; lia.
    + destruct (Z.compare_spec e1 e2); try lia.
      subst. change (Pos.compare_cont Eq m1 m2) with (Pos.compare m1 m2).
      destruct (Pos.compare_spec m1 m2); try reflexivity; lia.
Qed.

Lemma SFleb_rank x y :
  SFleb x y = true
  <-> exists a b, rank x = Some a /\ rank y = Some b /\ (before a b \/ a = b).
Proof.
  unfold SFleb. split.
  - destruct x as [[]|[]| |[] m1 e1], y as [[]|[]| |[] m2 e2]; cbn;
      try discriminate; intros H; eexists _, _; (split; [reflexivity|]);
      (split; [reflexivity|]); cbn; try (left; lia); try (right; reflexivity).
    + destruct (Z.compare_spec e1 e2); try discriminate; try (left; lia).
      subst. change (Pos.compare_cont Eq m1 m2) with (Pos.compare m1 m2) in H.
      destruct (Pos.compare_spec m1 m2); try discriminate.
      * right. subst. reflexivity.
      * left. lia.
    + destruct (Z.compare_spec e1 e2); try discriminate; try (left; lia).
      subst. change (Pos.compare_cont Eq m1 m2) with (Pos.compare m1 m2) in H.
      destruct (Pos.compare_spec m1 m2); try discriminate.
      * right. subst. reflexivity.
      * left. lia.
  - intros (a & b & Ha & Hb & Hab).
    destruct x as [[]|[]| |[] m1 e1], y as [[]|[]| |[] m2 e2]; cbn in *;
      try discriminate; injection Ha as <-; injection Hb as <-;
      try reflexivity;
      try (destruct Hab as [Hab|Hab]; [cbn in Hab; lia | discriminate Hab]);
      try (destruct Hab as [Hab|Hab]; [cbn in Hab; lia | injection Hab; lia]).
    + destruct (Z.compare_spec e1 e2); try reflexivity.
      * subst. change (Pos.compare_cont Eq m1 m2) with (Pos.compare m1 m2).
        destruct (Pos.compare_spec m1 m2); try reflexivity.
        destruct Hab as [Hab|Hab]; [cbn in Hab; lia | injection Hab; lia].
      * destruct Hab as [Hab|Hab]; [cbn in Hab; lia | injection Hab; lia].
    + destruct (Z.compare_spec e1 e2); try reflexivity.
      * subst. change (Pos.compare_cont Eq m1 m2) with (Pos.compare m1 m2).
        destruct (Pos.compare_spec m1 m2); try reflexivity.
        destruct Hab as [Hab|Hab]; [cbn in Hab; lia | injection Hab; lia].
      * destruct Hab as [Hab|Hab]; [cbn in Hab; lia | injection Hab; lia].
Qed.

Lemma before_chain a b c : before a b -> before b c -> before a c.
Proof.
  destruct a as [[a1 a2] a3], b as [[b1 b2] b3], c as [[c1 c2] c3]. cbn. lia.
Qed.

Lemma before_strict a : ~ before a a.
Proof. destruct a as [[a1 a2] a3]. cbn. lia. Qed.

Lemma SFle_lt_trans a b c :
  SFleb a b = true -> SFltb b c = true -> SFltb a c = true.
Proof.
  rewrite SFleb_rank, !SFltb_rank.
  intros (ra & rb & Ha & Hb & Hab) (rb' & rc & Hb' & Hc & Hbc).
  rewrite Hb in Hb'. injection Hb' as <-.
  exists ra, rc. split; [exact Ha|]. split; [exact Hc|].
  destruct Hab as [Hab| ->]; [eapply before_chain; eassumption | exact Hbc].
Qed.

Lemma SFlt_le_trans a b c :
  SFltb a b = true -> SFleb b c = true -> SFltb a c = true.
Proof.
  rewrite SFleb_rank, !SFltb_rank.
  intros (ra & rb & Ha & Hb & Hab) (rb' & rc & Hb' & Hc & Hbc).
  rewrite Hb in Hb'. injection Hb' as <-.
  exists ra, rc. split; [exact Ha|]. split; [exact Hc|].
  destruct Hbc as [Hbc| <-]; [eapply before_chain; eassumption | exact Hab].
Qed.

Lemma SFlt_not_le a b : SFltb a b = true -> SFleb b a = false.
Proof.
  intros Hlt. destruct (SFleb b a) eqn:Hle; [exfalso | reflexivity].
  pose proof (SFlt_le_trans a b a Hlt Hle) as H.
  apply SFltb_rank in H. destruct H as (x & y & Hx & Hy & Hxy).
  rewrite Hx in Hy. injection Hy as <-. exact (before_strict x Hxy).
Qed.

Lemma py_int_count k m e :
  count_shape k m e -> py_int (S754_finite false m e) = inr k.
Proof.
  intros (_ & He & Hm). cbn [py_int cond_Zopp]. f_equal.
  destruct e as [|p|p]; [| lia |].
  - cbn in *. lia.
  - rewrite Z.shiftr_div_pow2 by lia. rewrite Hm.
    change (- Z.neg p)%Z with (Z.pos p).
    apply Z.div_mul. apply Z.pow_nonzero; lia.
Qed.

Lemma mul_one m e :
  Z.pos (digits2_pos m) = 53%Z -> (-52 <= e <= 0)%Z ->
  SF64mul fone (S754_finite false m e) = S754_finite false m e.
Proof.
  intros Hd He. pose proof (digits_53 m Hd) as Hm.
  unfold SF64mul, SFmul, fone. cbn [xorb]. rewrite round_finish. unfold shr_fexp.
  assert (Hdig : Zdigits2 (Z.pos (4503599627370496 * m)) = 105%Z).
  { cbn [Zdigits2]. apply digits_unique. rewrite Pos2Z.inj_mul.
    change (Z.pos 4503599627370496) with (2 ^ 52)%Z.
    change (2 ^ (105 - 1))%Z with (2 ^ 52 * 2 ^ 52)%Z.
    change (2 ^ 105)%Z with (2 ^ 52 * 2 ^ 53)%Z.
    assert (0 < 2 ^ 52)%Z by reflexivity. nia. }
  rewrite Hdig.
  replace (fexp prec emax (105 + (-52 + e)) - (-52 + e))%Z with 52%Z
    by (unfold fexp, emin, prec, emax; lia).
  cbn [Pos.mul shr shr_record_of_loc iter_pos shr_1 orb shr_m loc_of_shr_record
       round_nearest_even].
  replace (-52 + e + 52)%Z with e by lia.
  apply finish_53; lia.
Qed.


(** ** Running a computation *)

Lemma bind_inr {A B} (m : M A) (k : A -> M B) w a w' :
  m w = (inr a, w') -> bind m k w = k a w'.
Proof. intros H. unfold bind. rewrite H. reflexivity. Qed.

Lemma bind_inl {A B} (m : M A) (k : A -> M B) w e w' :
  m w = (inl e, w') -> bind m k w = (inl e, w').
Proof. intros H. unfold bind. rewrite H. reflexivity. Qed.

(** One step of a run: the first computation returns, or raises. *)
Tactic Notation "returns" uconstr(H) := rewrite (bind_inr _ _ _ _ _ H).
Tactic Notation "raises" uconstr(H) := rewrite (bind_inl _ _ _ _ _ H).

Lemma deref_run H E r df :
  nth_error H r = Some df ->
  deref r (mkWorld H E) = (inr df, mkWorld H E).
Proof. intros Hr. unfold deref. simpl. rewrite Hr. reflexivity. Qed.

Lemma modify_run H E r f df :
  nth_error H r = Some df ->
  modify r f (mkWorld H E) = (inr tt, mkWorld (update H r (f df)) E).
Proof.
  intros Hr. unfold modify.
  returns (deref_run H E r df Hr). reflexivity.
Qed.

Lemma new_after_deref H E r df (f : DataFrame -> DataFrame) :
  nth_error H r = Some df ->
  (d <- deref r ;; new (f d)) (mkWorld H E)
  = (inr (length H), mkWorld (H ++ [f df]) E).
Proof.
  intros Hr. returns (deref_run H E r df Hr). reflexivity.
Qed.

Lemma ret_after_deref {A} H E r df (f : DataFrame -> A) :
  nth_error H r = Some df ->
  (d <- deref r ;; ret (f d)) (mkWorld H E) = (inr (f df), mkWorld H E).
Proof.
  intros Hr. returns (deref_run H E r df Hr). reflexivity.
Qed.

Lemma bind_ret {A B} (a : A) (k : A -> M B) w : bind (ret a) k w = k a w.
Proof. reflexivity. Qed.

Lemma print_run H E line :
  print line (mkWorld H E) = (inr tt, mkWorld H (E ++ [EvPrint line])).
Proof. reflexivity. Qed.

(** ** The store *)

Lemma nth_error_end {A} (H L : list A) i :
  nth_error (H ++ L) (length H + i) = nth_error L i.
Proof.
  rewrite nth_error_app2 by lia. f_equal. lia.
Qed.

(** ** Labels *)

Lemma columns_named_In df col c :
  In c (columns_named df col) <-> In c (columns df) /\ label c = col.
Proof.
  unfold columns_named. rewrite filter_In, String.eqb_eq. reflexivity.
Qed.

Lemma label_selects_some df col :
  In col (labels df) -> columns_named df col <> [].
Proof.
  unfold labels. rewrite in_map_iff. intros (c & Hc & Hin) Hnil.
  assert (Hm : In c (columns_named df col)) by (apply columns_named_In; auto).
  rewrite Hnil in Hm. exact Hm.
Qed.

(** The list comprehension of line 118, run on a store. *)
Lemma comprehension_run H E r df thresh l :
  nth_error H r = Some df ->
  (forall col, In col l -> In col (labels df)) ->
  comprehension l (fun col => isna_mean_exceeds r col thresh) (mkWorld H E)
  = (if forallb (single df) l
     then inr (filter (label_too_sparse df thresh) l)
     else inl ambiguous,
     mkWorld H E).
Proof.
  intros Hr. induction l as [|col l IH]; intros Hin.
  - reflexivity.
  - assert (Hcol : In col (labels df)) by (apply Hin; left; reflexivity).
    assert (Hl : forall c, In c l -> In c (labels df))
      by (intros c Hc; apply Hin; right; exact Hc).
    specialize (IH Hl).
    apply label_selects_some in Hcol.
    cbn [comprehension forallb filter].
    unfold isna_mean_exceeds at 1, single at 1, label_too_sparse at 1.
    unfold bind at 1.
    returns (deref_run H E r df Hr).
    destruct (columns_named df col) as [|c [|c' cs]] eqn:Hsel.
    + congruence.
    + cbn [raise ret andb]. unfold bind at 1. rewrite IH.
      destruct (forallb (single df) l); reflexivity.
    + reflexivity.
Qed.

(** ** [clean_quarterly_data] on a store *)

Lemma nth_error_fresh {A} (H : list A) x :
  nth_error (H ++ [x]) (length H) = Some x.
Proof.
  rewrite nth_error_app2 by lia. rewrite Nat.sub_diag. reflexivity.
Qed.

Lemma update_fresh {A} (H : list A) x y :
  update (H ++ [x]) (length H) y = H ++ [y].
Proof.
  induction H as [|z H IH]; simpl; [reflexivity | rewrite IH; reflexivity].
Qed.

Lemma clean_quarterly_data_run H E r df thresh :
  nth_error H r = Some df ->
  clean_quarterly_data r thresh (mkWorld H E)
  = if unique_labels df
    then (inr (length H + 3),
          mkWorld (H ++ clean_objects df thresh) (E ++ clean_log df thresh))
    else (inl ambiguous, mkWorld (H ++ [df]) E).
Proof.
  intros Hr. unfold clean_quarterly_data.
  unfold df_copy. returns (new_after_deref H E r df (fun d => d) Hr).
  pose proof (nth_error_fresh H df) as H0.
  unfold df_columns.
  returns (ret_after_deref _ E _ df labels H0).
  pose proof (comprehension_run _ E _ df thresh (labels df) H0 (fun _ h => h)) as Hc.
  fold (unique_labels df) in Hc.
  destruct (unique_labels df).
  2:{ raises Hc. reflexivity. }
  returns Hc. fold (drop_cols df thresh).
  unfold df_drop_inplace.
  returns (modify_run _ E _ _ df H0).
  rewrite update_fresh. fold (pruned df thresh).
  set (p := pruned df thresh).
  unfold df_ffill.
  returns (new_after_deref _ E _ p ffill (nth_error_fresh H p)).
  unfold df_bfill.
  returns (new_after_deref _ E _ (ffill p) bfill (nth_error_fresh (H ++ [p]) (ffill p))).
  unfold df_dropna_inplace.
  returns (modify_run _ E _ dropna _ (nth_error_fresh ((H ++ [p]) ++ [ffill p]) _)).
  rewrite update_fresh. fold p. change (dropna (bfill (ffill p))) with (filled df thresh).
  set (f := filled df thresh).
  unfold df_number_columns.
  returns (ret_after_deref _ E _ f number_columns
                (nth_error_fresh ((H ++ [p]) ++ [ffill p]) f)).
  unfold df_getitem.
  returns (new_after_deref _ E _ f (fun d => select_columns d (number_columns f))
                (nth_error_fresh ((H ++ [p]) ++ [ffill p]) f)).
  change (select_columns f (number_columns f)) with (clean_steps df thresh).
  unfold df_shape.
  returns (ret_after_deref _ E _ _ shape
                (nth_error_fresh (((H ++ [p]) ++ [ffill p]) ++ [f]) (clean_steps df thresh))).
  unfold print, emit, bind, ret. cbn [heap events].
  unfold clean_objects, clean_log. fold p f.
  repeat rewrite length_app. cbn [length].
  repeat rewrite <- app_assoc. cbn [app].
  f_equal. f_equal. lia.
Qed.

Lemma clean_unfold df thresh :
  clean df thresh
  = if unique_labels df then inr (clean_steps df thresh) else inl ambiguous.
Proof.
  unfold clean, outcome.
  rewrite (clean_quarterly_data_run [df] [] 0 df thresh eq_refl).
  destruct (unique_labels df); reflexivity.
Qed.

(** ** Distinct labels *)

Lemma filter_label_none (l : list Column) col :
  ~ In col (map label l) ->
  filter (fun c => String.eqb (label c) col) l = [].
Proof.
  induction l as [|a l IH]; simpl; intros Hn.
  - reflexivity.
  - destruct (String.eqb_spec (label a) col) as [He|He].
    + exfalso. apply Hn. left. exact He.
    + apply IH. intros Hin. apply Hn. right. exact Hin.
Qed.

Lemma filter_label_one (l : list Column) c :
  NoDup (map label l) -> In c l ->
  filter (fun c' => String.eqb (label c') (label c)) l = [c].
Proof.
  induction l as [|a l IH]; simpl; intros Hnd Hin.
  - contradiction.
  - inversion Hnd as [|x xs Hna Hnd']; subst.
    destruct Hin as [->|Hin].
    + rewrite String.eqb_refl. f_equal. apply filter_label_none. exact Hna.
    + destruct (String.eqb_spec (label a) (label c)) as [He|He].
      * exfalso. apply Hna. rewrite He. apply in_map. exact Hin.
      * apply IH; assumption.
Qed.

Lemma all_single_NoDup (l : list Column) :
  (forall c, In c l ->
     exists c', filter (fun x => String.eqb (label x) (label c)) l = [c']) ->
  NoDup (map label l).
Proof.
  induction l as [|a l IH]; simpl; intros Hs.
  - constructor.
  - constructor.
    + intros Hin. apply in_map_iff in Hin. destruct Hin as (c & Hc & Hin).
      destruct (Hs a (or_introl eq_refl)) as (c' & Hf).
      rewrite String.eqb_refl in Hf. injection Hf as _ Hnil.
      assert (Hm : In c (filter (fun x => String.eqb (label x) (label a)) l)).
      { apply filter_In. split; [exact Hin | apply String.eqb_eq; exact Hc]. }
      rewrite Hnil in Hm. exact Hm.
    + apply IH. intros c Hin.
      destruct (Hs c (or_intror Hin)) as (c' & Hf).
      destruct (String.eqb (label a) (label c)).
      * injection Hf as _ Hnil.
        assert (Hm : In c (filter (fun x => String.eqb (label x) (label c)) l)).
        { apply filter_In. split; [exact Hin | apply String.eqb_refl]. }
        rewrite Hnil in Hm. contradiction.
      * exists c'. exact Hf.
Qed.

Lemma unique_labels_NoDup df :
  unique_labels df = true <-> NoDup (labels df).
Proof.
  unfold unique_labels, labels. split.
  - intros Hu. apply all_single_NoDup. intros c Hc.
    rewrite forallb_forall in Hu.
    specialize (Hu (label c) (in_map label _ _ Hc)).
    unfold single, columns_named in Hu.
    destruct (filter _ (columns df)) as [|c' [|c'' cs]]; try discriminate.
    exists c'. reflexivity.
  - intros Hnd. apply forallb_forall. intros col Hcol.
    apply in_map_iff in Hcol. destruct Hcol as (c & <- & Hc).
    unfold single, columns_named.
    rewrite (filter_label_one _ c Hnd Hc). reflexivity.
Qed.

Lemma columns_named_unique df c :
  NoDup (labels df) -> In c (columns df) ->
  columns_named df (label c) = [c].
Proof. intros Hnd Hc. apply filter_label_one; assumption. Qed.

Lemma filter_keeps_distinct (keep : Column -> bool) (cols : list Column) :
  NoDup (map label cols) -> NoDup (map label (filter keep cols)).
Proof.
  induction cols as [|c cols IH]; cbn [map filter]; intros Hnd.
  - constructor.
  - apply NoDup_cons_iff in Hnd. destruct Hnd as [Hfresh Hnd].
    destruct (keep c); [|exact (IH Hnd)].
    cbn [map]. apply NoDup_cons_iff. split; [|exact (IH Hnd)].
    rewrite in_map_iff. intros (c' & Hl & Hin).
    apply filter_In in Hin. apply Hfresh. rewrite <- Hl.
    apply in_map. apply Hin.
Qed.

(** ** Column pruning *)

Lemma mem_In s l : mem s l = true <-> In s l.
Proof.
  unfold mem. rewrite existsb_exists. split.
  - intros (x & Hx & He). apply String.eqb_eq in He. subst. exact Hx.
  - intros Hin. exists s. split; [exact Hin | apply String.eqb_refl].
Qed.

Lemma mem_drop_cols df thresh c :
  NoDup (labels df) -> In c (columns df) ->
  mem (label c) (drop_cols df thresh) = too_sparse thresh c.
Proof.
  intros Hnd Hc.
  assert (Hl : label_too_sparse df thresh (label c) = too_sparse thresh c).
  { unfold label_too_sparse. rewrite (columns_named_unique df c Hnd Hc). reflexivity. }
  destruct (too_sparse thresh c) eqn:Hs.
  - apply mem_In. unfold drop_cols. apply filter_In. split.
    + apply in_map. exact Hc.
    + exact Hl.
  - destruct (mem (label c) (drop_cols df thresh)) eqn:Hm; [|reflexivity].
    apply mem_In in Hm. unfold drop_cols in Hm. apply filter_In in Hm.
    destruct Hm as [_ Hm]. congruence.
Qed.

Lemma pruned_columns df thresh :
  NoDup (labels df) ->
  columns (pruned df thresh)
  = filter (fun c => negb (too_sparse thresh c)) (columns df).
Proof.
  intros Hnd. unfold pruned, drop_columns. simpl.
  apply filter_ext_in. intros c Hc.
  rewrite (mem_drop_cols df thresh c Hnd Hc). reflexivity.
Qed.

Lemma select_number_columns d :
  NoDup (labels d) ->
  columns (select_columns d (number_columns d))
  = filter (fun c => is_number (dtype c)) (columns d).
Proof.
  intros Hnd. unfold select_columns, number_columns. simpl.
  assert (Hgen : forall l, incl l (columns d) ->
            flat_map (columns_named d) (map label l) = l).
  { induction l as [|a l IH]; intros Hincl; simpl.
    - reflexivity.
    - rewrite (columns_named_unique d a Hnd) by (apply Hincl; left; reflexivity).
      simpl. f_equal. apply IH. intros x Hx. apply Hincl. right. exact Hx. }
  apply Hgen. intros x Hx. apply filter_In in Hx. apply Hx.
Qed.

(** ** Rows *)

Lemma map_nth_positions {A} (l : list A) (d : A) :
  map (fun i => nth i l d) (seq 0 (length l)) = l.
Proof.
  apply (nth_ext _ _ d d).
  - rewrite length_map, length_seq. reflexivity.
  - intros n Hn. rewrite length_map, length_seq in Hn.
    rewrite (nth_indep _ d (nth 0 l d)) by (rewrite length_map, length_seq; exact Hn).
    rewrite (map_nth (fun i => nth i l d)).
    rewrite seq_nth by exact Hn. reflexivity.
Qed.

Lemma subsequence_positions {A} (p : nat -> bool) (d : A) (l : list A) k :
  subsequence
    (map (fun i => nth (i - k) l d) (filter p (seq k (length l)))) l.
Proof.
  revert k. induction l as [|a l IH]; intros k.
  - constructor.
  - cbn [length seq filter].
    assert (Hrest :
      map (fun i => nth (i - k) (a :: l) d) (filter p (seq (S k) (length l)))
      = map (fun i => nth (i - S k) l d) (filter p (seq (S k) (length l)))).
    { apply map_ext_in. intros i Hi. apply filter_In in Hi.
      destruct Hi as [Hi _]. apply in_seq in Hi.
      replace (i - k) with (S (i - S k)) by lia. reflexivity. }
    destruct (p k); cbn [map].
    + rewrite Nat.sub_diag. rewrite Hrest. apply sub_keep. apply IH.
    + rewrite Hrest. apply sub_skip. apply IH.
Qed.

Lemma dropna_index_subsequence d :
  subsequence (index (dropna d)) (index d).
Proof.
  unfold dropna, take_rows, complete_rows. simpl.
  pose proof (subsequence_positions (row_complete d) 0%Z (index d) 0) as Hs.
  erewrite map_ext in Hs; [exact Hs|].
  intros i. simpl. rewrite Nat.sub_0_r. reflexivity.
Qed.

Lemma dropna_column d c' :
  In c' (columns (dropna d)) ->
  exists c, In c (columns d) /\ label c' = label c /\ dtype c' = dtype c
            /\ values c' = map (cell_at c) (complete_rows d).
Proof.
  unfold dropna, take_rows. simpl. rewrite in_map_iff.
  intros (c & <- & Hc). exists c. simpl. auto.
Qed.

Lemma dropna_complete d : complete (dropna d).
Proof.
  intros c' Hc' v Hv.
  destruct (dropna_column d c' Hc') as (c & Hc & _ & _ & Hvals).
  rewrite Hvals in Hv. apply in_map_iff in Hv. destruct Hv as (i & <- & Hi).
  unfold complete_rows in Hi. apply filter_In in Hi. destruct Hi as [_ Hi].
  unfold row_complete in Hi. rewrite forallb_forall in Hi.
  specialize (Hi c Hc). unfold notna in Hi.
  destruct (isna (cell_at c i)); [discriminate | reflexivity].
Qed.

Lemma dropna_rectangular d : rectangular (dropna d).
Proof.
  intros c' Hc'.
  destruct (dropna_column d c' Hc') as (c & _ & _ & _ & Hvals).
  rewrite Hvals. unfold dropna, take_rows. simpl.
  rewrite !length_map. reflexivity.
Qed.

Lemma labels_map_values f d : labels (map_values f d) = labels d.
Proof.
  unfold labels, map_values. simpl. rewrite map_map. reflexivity.
Qed.

Lemma labels_take_rows d rows : labels (take_rows d rows) = labels d.
Proof.
  unfold labels, take_rows. simpl. rewrite map_map. reflexivity.
Qed.

Lemma labels_filled df thresh :
  labels (filled df thresh) = labels (pruned df thresh).
Proof.
  unfold filled, dropna, bfill, ffill.
  rewrite labels_take_rows, !labels_map_values. reflexivity.
Qed.

Lemma index_filled df thresh :
  subsequence (index (filled df thresh)) (index df).
Proof.
  unfold filled.
  change (index df) with (index (bfill (ffill (pruned df thresh)))).
  apply dropna_index_subsequence.
Qed.

Lemma NoDup_labels_pruned df thresh :
  NoDup (labels df) -> NoDup (labels (pruned df thresh)).
Proof.
  intros Hnd. unfold labels. rewrite (pruned_columns df thresh Hnd).
  apply filter_keeps_distinct. exact Hnd.
Qed.

Lemma clean_steps_columns df thresh :
  NoDup (labels df) ->
  columns (clean_steps df thresh)
  = filter (fun c => is_number (dtype c)) (columns (filled df thresh)).
Proof.
  intros Hnd. unfold clean_steps. apply select_number_columns.
  rewrite labels_filled. apply NoDup_labels_pruned. exact Hnd.
Qed.

Lemma clean_steps_index df thresh :
  index (clean_steps df thresh) = index (filled df thresh).
Proof. reflexivity. Qed.

(** ** The output of [clean] *)

Lemma clean_steps_complete df thresh :
  NoDup (labels df) -> complete (clean_steps df thresh).
Proof.
  intros Hnd c Hc. rewrite (clean_steps_columns df thresh Hnd) in Hc.
  apply filter_In in Hc. destruct Hc as [Hc _].
  exact (dropna_complete _ c Hc).
Qed.

Lemma clean_steps_numeric df thresh :
  NoDup (labels df) -> numeric (clean_steps df thresh).
Proof.
  intros Hnd c Hc. rewrite (clean_steps_columns df thresh Hnd) in Hc.
  apply filter_In in Hc. apply Hc.
Qed.

Lemma clean_steps_rectangular df thresh :
  NoDup (labels df) -> rectangular (clean_steps df thresh).
Proof.
  intros Hnd c Hc. rewrite (clean_steps_columns df thresh Hnd) in Hc.
  apply filter_In in Hc. destruct Hc as [Hc _].
  rewrite clean_steps_index. exact (dropna_rectangular _ c Hc).
Qed.

Lemma clean_steps_NoDup df thresh :
  NoDup (labels df) -> NoDup (labels (clean_steps df thresh)).
Proof.
  intros Hnd. unfold labels. rewrite (clean_steps_columns df thresh Hnd).
  apply filter_keeps_distinct. fold (labels (filled df thresh)).
  rewrite labels_filled. apply NoDup_labels_pruned. exact Hnd.
Qed.

(** [clean] returns for every panel with distinct labels. *)
Lemma clean_defined df thresh :
  NoDup (labels df) -> clean df thresh = inr (clean_steps df thresh).
Proof.
  intros Hnd. rewrite clean_unfold.
  rewrite (proj2 (unique_labels_NoDup df) Hnd). reflexivity.
Qed.

Lemma clean_returns df thresh out :
  clean df thresh = inr out ->
  NoDup (labels df) /\ out = clean_steps df thresh.
Proof.
  rewrite clean_unfold. destruct (unique_labels df) eqn:Hu; [|discriminate].
  intros Heq. injection Heq as <-. split; [|reflexivity].
  apply unique_labels_NoDup. exact Hu.
Qed.

(** C1 -- Whatever the input panel and the threshold, the panel [clean]
    returns has no missing value, all its columns have a numeric dtype,
    and its row index is the input's row index with some labels left out,
    the others in their original order. *)
Theorem clean_output_invariant (df : DataFrame) (thresh : binary64) (out : DataFrame) :
  clean df thresh = inr out ->
  complete out /\ numeric out /\ subsequence (index out) (index df).
Proof.
  intros Hc. apply clean_returns in Hc. destruct Hc as [Hnd ->].
  split; [|split].
  - apply clean_steps_complete. exact Hnd.
  - apply clean_steps_numeric. exact Hnd.
  - rewrite clean_steps_index. apply index_filled.
Qed.

(** ** Cleaning a clean panel *)

Lemma filter_all {A} (p : A -> bool) (l : list A) :
  (forall x, In x l -> p x = true) -> filter p l = l.
Proof.
  induction l as [|a l IH]; simpl; intros Hp.
  - reflexivity.
  - rewrite (Hp a (or_introl eq_refl)). f_equal.
    apply IH. intros x Hx. apply Hp. right. exact Hx.
Qed.

Lemma filter_none {A} (p : A -> bool) (l : list A) :
  (forall x, In x l -> p x = false) -> filter p l = [].
Proof.
  induction l as [|a l IH]; simpl; intros Hp.
  - reflexivity.
  - rewrite (Hp a (or_introl eq_refl)).
    apply IH. intros x Hx. apply Hp. right. exact Hx.
Qed.

Lemma ffill_from_full last vs :
  (forall v, In v vs -> isna v = false) -> ffill_from last vs = vs.
Proof.
  revert last. induction vs as [|v vs IH]; simpl; intros last Hf.
  - reflexivity.
  - rewrite (Hf v (or_introl eq_refl)). f_equal.
    apply IH. intros x Hx. apply Hf. right. exact Hx.
Qed.

Lemma bfill_values_full vs :
  (forall v, In v vs -> isna v = false) -> bfill_values vs = vs.
Proof.
  induction vs as [|v vs IH]; simpl; intros Hf.
  - reflexivity.
  - rewrite (Hf v (or_introl eq_refl)). f_equal.
    apply IH. intros x Hx. apply Hf. right. exact Hx.
Qed.

Lemma column_eta c : mkColumn (label c) (dtype c) (values c) = c.
Proof. destruct c. reflexivity. Qed.

Lemma frame_eta d : mkDataFrame (index d) (columns d) = d.
Proof. destruct d. reflexivity. Qed.

Lemma map_values_fixed f d :
  (forall c, In c (columns d) -> f (values c) = values c) ->
  map_values f d = d.
Proof.
  intros Hf. unfold map_values. destruct d as [idx cols]. simpl in *.
  f_equal. rewrite <- (map_id cols) at 2.
  apply map_ext_in. intros c Hc. rewrite (Hf c Hc). apply column_eta.
Qed.

Lemma dropna_fixed d :
  complete d -> rectangular d -> dropna d = d.
Proof.
  intros Hcomp Hrect. unfold dropna.
  assert (Hrows : complete_rows d = seq 0 (length (index d))).
  { unfold complete_rows. apply filter_all. intros i Hi.
    apply in_seq in Hi. unfold row_complete. apply forallb_forall.
    intros c Hc. unfold notna, cell_at.
    rewrite (Hcomp c Hc); [reflexivity|].
    apply nth_In. rewrite (Hrect c Hc). lia. }
  rewrite Hrows. unfold take_rows.
  destruct d as [idx cols]. unfold rectangular in Hrect. simpl in *.
  f_equal.
  - apply map_nth_positions.
  - rewrite <- (map_id cols) at 2.
    apply map_ext_in. intros c Hc. unfold cell_at.
    rewrite <- (Hrect c Hc). rewrite map_nth_positions. apply column_eta.
Qed.

Lemma clean_steps_fixed d thresh :
  NoDup (labels d) -> complete d -> numeric d -> rectangular d ->
  (forall c, In c (columns d) -> too_sparse thresh c = false) ->
  clean_steps d thresh = d.
Proof.
  intros Hnd Hcomp Hnum Hrect Hkeep.
  assert (Hp : pruned d thresh = d).
  { pose proof (pruned_columns d thresh Hnd) as Hcols.
    rewrite filter_all in Hcols
      by (intros c Hc; rewrite (Hkeep c Hc); reflexivity).
    unfold pruned, drop_columns in *. simpl in Hcols. rewrite Hcols.
    apply frame_eta. }
  assert (Hf : filled d thresh = d).
  { unfold filled. rewrite Hp. unfold ffill, bfill.
    rewrite (map_values_fixed ffill_values d)
      by (intros c Hc; apply ffill_from_full; exact (Hcomp c Hc)).
    rewrite (map_values_fixed bfill_values d)
      by (intros c Hc; apply bfill_values_full; exact (Hcomp c Hc)).
    apply dropna_fixed; assumption. }
  pose proof (clean_steps_columns d thresh Hnd) as Hcols.
  rewrite Hf in Hcols.
  rewrite filter_all in Hcols by (intros c Hc; exact (Hnum c Hc)).
  pose proof (clean_steps_index d thresh) as Hidx. rewrite Hf in Hidx.
  destruct (clean_steps d thresh) as [idx cols]. simpl in *. subst.
  apply frame_eta.
Qed.

(** ** Missing fractions *)

Lemma SFltb_nan x : SFltb x S754_nan = false.
Proof. destruct x as [[]|[]| |[] m e]; reflexivity. Qed.

Lemma below_zero_below_positive t m e :
  SFltb t fzero = true -> SFltb t (S754_finite false m e) = true.
Proof.
  destruct t as [[]|[]| |[] mt et]; cbn; intros H; try discriminate; reflexivity.
Qed.

Lemma missing_count_bound (vs : list Cell) :
  length (filter isna vs) <= length vs.
Proof.
  induction vs as [|v vs IH]; cbn [filter length]; [lia|].
  destruct (isna v); cbn [length]; lia.
Qed.

(** The missing fraction strictly exceeds the threshold. *)
Lemma too_sparse_spec thresh c :
  too_sparse thresh c = true <-> above thresh c.
Proof. apply SFltb_rank. Qed.

Lemma too_sparse_full thresh c :
  (forall v, In v (values c) -> isna v = false) ->
  (values c <> [] -> SFltb thresh fzero = false) ->
  too_sparse thresh c = false.
Proof.
  intros Hfull Hpos. unfold too_sparse, exceeds, strict_gt, isna_mean.
  rewrite (filter_none isna _ Hfull). cbn [length]. rewrite fraction_of_none.
  destruct (values c) as [|v vs] eqn:Hv; cbn [length Nat.eqb].
  - apply SFltb_nan.
  - apply Hpos. discriminate.
Qed.

Lemma kept_threshold_nonneg thresh c :
  values c <> [] -> too_sparse thresh c = false -> SFltb thresh fzero = false.
Proof.
  unfold too_sparse, exceeds, strict_gt, isna_mean. intros Hne Hs.
  destruct (SFltb thresh fzero) eqn:Hneg; [exfalso | reflexivity].
  pose proof (missing_count_bound (values c)) as Hb.
  destruct (length (filter isna (values c))) as [|k] eqn:Hk.
  - rewrite fraction_of_none in Hs.
    destruct (values c); [congruence|]. cbn [length Nat.eqb] in Hs. congruence.
  - destruct (fraction_at_most_one (S k) (length (values c))) as (mr & er & Hf & _);
      [lia|].
    rewrite Hf, (below_zero_below_positive _ _ _ Hneg) in Hs. discriminate.
Qed.

Lemma fill_columns df thresh :
  NoDup (labels df) ->
  columns (bfill (ffill (pruned df thresh)))
  = map fill_column
      (filter (fun c => negb (too_sparse thresh c)) (columns df)).
Proof.
  intros Hnd. rewrite <- (pruned_columns df thresh Hnd).
  unfold bfill, ffill, map_values. cbn [columns]. rewrite map_map. reflexivity.
Qed.

Lemma filled_column df thresh c' :
  NoDup (labels df) ->
  In c' (columns (filled df thresh)) ->
  exists c, In c (columns df) /\ too_sparse thresh c = false
            /\ label c' = label c /\ dtype c' = dtype c
            /\ values c'
               = map (cell_at (fill_column c))
                     (complete_rows (bfill (ffill (pruned df thresh)))).
Proof.
  intros Hnd Hc'. unfold filled in Hc'.
  destruct (dropna_column _ c' Hc') as (c2 & Hc2 & Hl & Hd & Hv).
  rewrite (fill_columns df thresh Hnd) in Hc2. apply in_map_iff in Hc2.
  destruct Hc2 as (c & <- & Hc). apply filter_In in Hc.
  destruct Hc as [Hc Hs]. apply negb_true_iff in Hs.
  exists c. repeat split; assumption.
Qed.

Lemma clean_steps_not_sparse df thresh c' :
  NoDup (labels df) ->
  In c' (columns (clean_steps df thresh)) ->
  too_sparse thresh c' = false.
Proof.
  intros Hnd Hc'.
  apply too_sparse_full.
  - exact (clean_steps_complete df thresh Hnd c' Hc').
  - intros Hne.
    rewrite (clean_steps_columns df thresh Hnd) in Hc'.
    apply filter_In in Hc'. destruct Hc' as [Hc' _].
    destruct (filled_column df thresh c' Hnd Hc') as (c & Hc & Hs & _ & _ & Hv).
    apply (kept_threshold_nonneg thresh c); [|exact Hs].
    intros Hnil. apply Hne. rewrite Hv.
    destruct (complete_rows (bfill (ffill (pruned df thresh)))) as [|i rows] eqn:Hrows;
      [reflexivity|].
    exfalso.
    assert (Hi : In i (complete_rows (bfill (ffill (pruned df thresh)))))
      by (rewrite Hrows; left; reflexivity).
    unfold complete_rows in Hi. apply filter_In in Hi. destruct Hi as [_ Hi].
    unfold row_complete in Hi. rewrite forallb_forall in Hi.
    assert (Hin : In (fill_column c) (columns (bfill (ffill (pruned df thresh))))).
    { rewrite (fill_columns df thresh Hnd). apply in_map. apply filter_In.
      split; [exact Hc | rewrite Hs; reflexivity]. }
    specialize (Hi _ Hin). unfold notna, cell_at, fill_column in Hi.
    cbn [values] in Hi. rewrite Hnil in Hi. simpl in Hi. destruct i; discriminate.
Qed.

(** C7 -- Cleaning is idempotent: when [clean] returns a panel, [clean]
    applied to that panel, with the same threshold, returns it again. *)
Theorem clean_idempotent (df : DataFrame) (thresh : binary64) (out : DataFrame) :
  clean df thresh = inr out ->
  clean out thresh = inr out.
Proof.
  intros Hc. apply clean_returns in Hc. destruct Hc as [Hnd ->].
  rewrite clean_unfold.
  pose proof (clean_steps_NoDup df thresh Hnd) as Hnd'.
  rewrite (proj2 (unique_labels_NoDup _) Hnd'). f_equal.
  apply clean_steps_fixed.
  - exact Hnd'.
  - apply clean_steps_complete. exact Hnd.
  - apply clean_steps_numeric. exact Hnd.
  - apply clean_steps_rectangular. exact Hnd.
  - intros c Hc. exact (clean_steps_not_sparse df thresh c Hnd Hc).
Qed.

(** ** The threshold *)

Lemma ten_rows_fraction vs k :
  length vs = 10 -> length (filter isna vs) = k ->
  isna_mean vs = fraction k 10.
Proof.
  intros Hlen Hk. unfold isna_mean. rewrite Hlen, Hk. reflexivity.
Qed.

Lemma equal_is_not_above a b : SFeqb a b = true -> strict_gt a b = false.
Proof.
  intros He. unfold strict_gt.
  destruct (SFltb b a) eqn:Hlt; [|reflexivity].
  apply SFlt_not_le in Hlt. unfold SFeqb in He. unfold SFleb in Hlt.
  destruct (SFcompare a b) as [[]|]; discriminate.
Qed.

Lemma pruned_keeps df thresh c :
  NoDup (labels df) ->
  In c (columns (pruned df thresh))
  <-> In c (columns df) /\ too_sparse thresh c = false.
Proof.
  intros Hnd. rewrite (pruned_columns df thresh Hnd), filter_In.
  rewrite negb_true_iff. reflexivity.
Qed.

Lemma clean_steps_label df thresh name :
  NoDup (labels df) ->
  In name (labels (clean_steps df thresh))
  <-> exists c, In c (columns df) /\ label c = name
                /\ too_sparse thresh c = false /\ is_number (dtype c) = true.
Proof.
  intros Hnd. unfold labels at 1.
  rewrite (clean_steps_columns df thresh Hnd). rewrite in_map_iff. split.
  - intros (c' & Hl & Hc'). apply filter_In in Hc'. destruct Hc' as [Hc' Hn].
    destruct (filled_column df thresh c' Hnd Hc') as (c & Hc & Hs & Hl' & Hd & _).
    exists c. repeat split; try assumption; congruence.
  - intros (c & Hc & Hl & Hs & Hn).
    set (rows := complete_rows (bfill (ffill (pruned df thresh)))).
    exists (mkColumn (label c) (dtype c) (map (cell_at (fill_column c)) rows)).
    split; [exact Hl|]. apply filter_In. split; [|exact Hn].
    unfold filled, dropna, take_rows. cbn [columns].
    rewrite (fill_columns df thresh Hnd). rewrite map_map.
    apply in_map_iff. exists c. split; [reflexivity|].
    apply filter_In. split; [exact Hc | rewrite Hs; reflexivity].
Qed.

(** C3 -- When [clean] returns, the column-pruning step has dropped
    exactly the columns whose fraction of missing cells, taken on the
    input panel, is strictly above the threshold: the frame after the
    drop (the second object of the run) has the columns of the input
    whose fraction is not above the threshold, and no other.  Fraction
    and comparison are those of the code, in floats.  A fraction equal
    to the threshold keeps the column; with 10 rows and a threshold of
    0.3, the fraction of 3 missing cells is the float 0.3 itself and the
    column is kept, and 4 missing cells drop it.  A dropped column is not
    in the returned panel, and a kept column of numeric dtype is. *)
Theorem column_pruning_is_strict (df : DataFrame) (thresh : binary64) (out : DataFrame) :
  clean df thresh = inr out ->
  nth_error (heap (snd (clean_quarterly_data 0 thresh (mkWorld [df] [])))) 1
  = Some (pruned df thresh)
  /\ (forall c, In c (columns (pruned df thresh))
                <-> In c (columns df) /\ ~ above thresh c)
  /\ (forall c, In c (columns df) ->
        SFeqb (isna_mean (values c)) thresh = true ->
        In c (columns (pruned df thresh)))
  /\ (forall c, In c (columns df) -> length (values c) = 10 ->
        thresh = f0_3 ->
        (length (filter isna (values c)) = 3 ->
           isna_mean (values c) = f0_3 /\ In c (columns (pruned df thresh)))
        /\ (length (filter isna (values c)) = 4 ->
             ~ In c (columns (pruned df thresh))))
  /\ (forall c, In c (columns df) -> above thresh c ->
        ~ In (label c) (labels out))
  /\ (forall c, In c (columns df) -> ~ above thresh c ->
        is_number (dtype c) = true -> In (label c) (labels out)).
Proof.
  intros Hc.
  assert (Hu : unique_labels df = true).
  { rewrite clean_unfold in Hc. destruct (unique_labels df); [reflexivity | discriminate]. }
  apply clean_returns in Hc. destruct Hc as [Hnd ->].
  assert (Hkeep : forall c, In c (columns (pruned df thresh))
                            <-> In c (columns df) /\ ~ above thresh c).
  { intros c. rewrite (pruned_keeps df thresh c Hnd).
    rewrite <- too_sparse_spec.
    destruct (too_sparse thresh c); intuition congruence. }
  split; [|split; [exact Hkeep|split; [|split; [|split]]]].
  - rewrite (clean_quarterly_data_run [df] [] 0 df thresh eq_refl), Hu.
    reflexivity.
  - intros c Hin He. apply (pruned_keeps df thresh c Hnd). split; [exact Hin|].
    exact (equal_is_not_above _ _ He).
  - intros c Hin Hlen ->. split; intros Hk.
    + split; [rewrite (ten_rows_fraction _ 3 Hlen Hk); vm_compute; reflexivity|].
      apply (pruned_keeps df f0_3 c Hnd). split; [exact Hin|].
      unfold too_sparse.
      rewrite (ten_rows_fraction _ 3 Hlen Hk). vm_compute. reflexivity.
    + intros Hp. apply (pruned_keeps df f0_3 c Hnd) in Hp.
      destruct Hp as [_ Hs]. unfold too_sparse in Hs.
      rewrite (ten_rows_fraction _ 4 Hlen Hk) in Hs. vm_compute in Hs.
      discriminate.
  - intros c Hin Hs Hout. apply (clean_steps_label df thresh _ Hnd) in Hout.
    destruct Hout as (c' & Hc' & Hl & Hs' & _).
    assert (Hsame : c' = c).
    { pose proof (columns_named_unique df c Hnd Hin) as H1.
      assert (H2 : In c' (columns_named df (label c)))
        by (apply columns_named_In; auto).
      rewrite H1 in H2. destruct H2 as [H2|[]]. congruence. }
    subst c'. apply too_sparse_spec in Hs. congruence.
  - intros c Hin Hs Hn. apply (clean_steps_label df thresh _ Hnd).
    exists c. repeat split; try assumption.
    destruct (too_sparse thresh c) eqn:Hts; [|reflexivity].
    exfalso. apply Hs. apply too_sparse_spec. exact Hts.
Qed.

(** ** [clean_quarterly_data] and the world *)

Lemma nth_error_grows {A} (H L : list A) k d :
  nth_error H k = Some d -> nth_error (H ++ L) k = Some d.
Proof.
  intros Hk. rewrite nth_error_app1; [exact Hk|].
  apply nth_error_Some. congruence.
Qed.

Lemma clean_quarterly_data_outcome H E r df thresh :
  nth_error H r = Some df ->
  outcome (clean_quarterly_data r thresh (mkWorld H E)) = clean df thresh.
Proof.
  intros Hr. rewrite clean_unfold.
  rewrite (clean_quarterly_data_run H E r df thresh Hr).
  destruct (unique_labels df); [|reflexivity].
  unfold outcome, clean_objects. cbn [heap].
  rewrite nth_error_end. reflexivity.
Qed.

(** C9 -- [clean] is deterministic and pure.  Take two calls, in any two
    worlds, on references to equal panels and with the same threshold:
    they have the same outcome (the same panel returned, or the same
    exception); the call makes no provider request (it only prints) and
    it leaves every object of the store it started from, the input panel
    among them, as it was. *)
Theorem clean_is_pure (w1 w2 : World) (r1 r2 : Ref) (df : DataFrame) (thresh : binary64) :
  nth_error (heap w1) r1 = Some df ->
  nth_error (heap w2) r2 = Some df ->
  let run1 := clean_quarterly_data r1 thresh w1 in
  let run2 := clean_quarterly_data r2 thresh w2 in
  outcome run1 = outcome run2
  /\ nth_error (heap (snd run1)) r1 = Some df
  /\ (forall k d, nth_error (heap w1) k = Some d ->
                  nth_error (heap (snd run1)) k = Some d)
  /\ (exists log, events (snd run1) = events w1 ++ log
                  /\ forall e, In e log -> exists line, e = EvPrint line).
Proof.
  intros H1 H2. cbv zeta.
  destruct w1 as [h1 e1], w2 as [h2 e2]. cbn [heap events] in *.
  rewrite (clean_quarterly_data_outcome h1 e1 r1 df thresh H1).
  rewrite (clean_quarterly_data_outcome h2 e2 r2 df thresh H2).
  split; [reflexivity|].
  rewrite (clean_quarterly_data_run h1 e1 r1 df thresh H1).
  destruct (unique_labels df); cbn [snd heap events].
  - split; [apply nth_error_grows; exact H1|].
    split; [intros k d Hk; apply nth_error_grows; exact Hk|].
    exists (clean_log df thresh). split; [reflexivity|].
    intros e [<-|[]]. eexists. reflexivity.
  - split; [apply nth_error_grows; exact H1|].
    split; [intros k d Hk; apply nth_error_grows; exact Hk|].
    exists []. split; [rewrite app_nil_r; reflexivity|].
    intros e [].
Qed.

(** ** Slices and the split index *)

Lemma slice_bound_inside n k :
  (0 <= k <= Z.of_nat n)%Z -> slice_bound n k = Z.to_nat k.
Proof.
  intros Hk. unfold slice_bound.
  destruct (Z.ltb_spec k 0); lia.
Qed.

(** [int] raises for a test fraction that is NaN or infinite. *)
Lemma split_index_nan n :
  split_index S754_nan n = inl (ValueError "cannot convert float NaN to integer").
Proof. reflexivity. Qed.

Lemma split_index_infinity s n :
  0 < n ->
  split_index (S754_infinity s) n
  = inl (OverflowError "cannot convert float infinity to integer").
Proof.
  intros Hn. unfold split_index.
  destruct (of_count_pos n Hn) as (m & e & -> & _). reflexivity.
Qed.

Lemma split_index_at_one n : split_index fone n = inr 0%Z.
Proof.
  unfold split_index. change (SF64sub fone fone) with (S754_zero false).
  destruct n as [|n]; [reflexivity|].
  destruct (of_count_pos (S n)) as (m & e & -> & _); [lia|]. reflexivity.
Qed.

Lemma split_index_at_zero s n :
  (Z.of_nat n <= max_count)%Z -> split_index (S754_zero s) n = inr (Z.of_nat n).
Proof.
  intros Hn. unfold split_index. change (SF64sub fone (S754_zero s)) with fone.
  destruct n as [|n]; [reflexivity|].
  destruct (of_count_pos (S n)) as (m & e & -> & Hshape); [lia|].
  destruct Hshape as (Hd & He & Hm).
  rewrite (mul_one m e Hd He).
  rewrite (py_int_count (Z.min (Z.of_nat (S n)) max_count) m e)
    by (split; [exact Hd | split; [exact He | exact Hm]]).
  f_equal. lia.
Qed.

(** ** [prepare_data] *)

Section PrepareFacts.

Variable read_csv : string -> Exception + DataFrame.
Variables Scaler Scaled : Type.
Variable fit_transform : ndarray Cell -> Exception + (Scaler * ndarray Scaled).
Variable loader_rejects : EconomicDataset Scaled -> Z -> bool -> option Exception.

Local Abbreviation prepare :=
  (prepare_data read_csv Scaler Scaled fit_transform loader_rejects).
Local Abbreviation steps :=
  (prepare_steps read_csv Scaler Scaled fit_transform loader_rejects).

Lemma prepare_data_run csv_path test_size batch w :
  prepare csv_path test_size batch w = steps csv_path test_size batch w.
Proof.
  destruct w as [H E]. unfold prepare_data, prepare_steps, pd_read_csv.
  cbn [heap events].
  destruct (read_csv csv_path) as [e|df]; [reflexivity|].
  rewrite (bind_inr _ _ (mkWorld H E) (length H) (mkWorld (H ++ [df]) E) eq_refl).
  pose proof (nth_error_fresh H df) as H0.
  unfold df_shape. returns (ret_after_deref _ E _ df shape H0).
  returns (print_run _ _ _).
  set (E1 := E ++ [EvPrint ("Original dataset shape: " ++ str_shape (shape df))]).
  unfold df_columns. returns (ret_after_deref _ E1 _ df labels H0).
  pose proof (clean_quarterly_data_run (H ++ [df]) E1 (length H) df f0_3 H0) as Hc.
  destruct (unique_labels df).
  2:{ raises Hc. reflexivity. }
  returns Hc.
  set (H2 := (H ++ [df]) ++ clean_objects df f0_3).
  set (E2 := E1 ++ clean_log df f0_3).
  assert (Hout : nth_error H2 (length (H ++ [df]) + 3) = Some (clean_steps df f0_3)).
  { unfold H2. rewrite nth_error_end. reflexivity. }
  unfold df_values. returns (ret_after_deref _ E2 _ _ frame_values Hout).
  unfold scaler_fit_transform.
  destruct (fit_transform (frame_values (clean_steps df f0_3))) as [e|fitted].
  { reflexivity. }
  cbv iota. rewrite bind_ret.
  unfold split_steps, py_split_index.
  destruct (split_index test_size (length (rows (snd fitted)))) as [e|split_idx].
  { reflexivity. }
  cbv iota. rewrite bind_ret.
  unfold load_steps, new_loader. cbn [rows ncols heap events].
  destruct (loader_rejects
              (mkDataset (slice_to (rows (snd fitted)) split_idx))
              batch true) as [e|].
  { reflexivity. }
  cbv iota. rewrite bind_ret.
  destruct (loader_rejects
              (mkDataset (slice_from (rows (snd fitted)) split_idx))
              batch false) as [e|].
  { reflexivity. }
  cbv iota. rewrite bind_ret.
  unfold print, emit, bind, ret, array_shape. cbn [heap events rows ncols].
  rewrite <- app_assoc. reflexivity.
Qed.

(** The outcome of a call once the file is read, cleaned and scaled. *)
Lemma prepare_outcome csv_path test_size batch w df cleaned fitted :
  read_csv csv_path = inr df ->
  clean df f0_3 = inr cleaned ->
  fit_transform (frame_values cleaned) = inr fitted ->
  fst (prepare csv_path test_size batch w)
  = match split_index test_size (length (rows (snd fitted))) with
    | inl e => inl e
    | inr split_idx =>
        let train := slice_to (rows (snd fitted)) split_idx in
        let test := slice_from (rows (snd fitted)) split_idx in
        match loader_rejects (mkDataset train) batch true with
        | Some e => inl e
        | None =>
            match loader_rejects (mkDataset test) batch false with
            | Some e => inl e
            | None =>
                inr (mkPrepared (mkLoader (mkDataset train) batch true)
                                (mkLoader (mkDataset test) batch false)
                                (fst fitted) (labels df))
            end
        end
    end.
Proof.
  intros Hread Hclean Hfit.
  rewrite prepare_data_run. unfold prepare_steps. rewrite Hread.
  rewrite clean_unfold in Hclean.
  destruct (unique_labels df); [|discriminate]. injection Hclean as <-.
  rewrite Hfit. unfold split_steps.
  destruct (split_index test_size (length (rows (snd fitted)))) as [e|split_idx];
    [reflexivity|].
  unfold load_steps. cbv zeta.
  destruct (loader_rejects (mkDataset (slice_to _ split_idx)) batch true);
    [reflexivity|].
  destruct (loader_rejects (mkDataset (slice_from _ split_idx)) batch false);
    reflexivity.
Qed.

Lemma frame_values_rows df : length (rows (frame_values df)) = length (index df).
Proof.
  unfold frame_values, to_values. cbn [rows].
  rewrite length_map, length_seq. reflexivity.
Qed.

(** C2, as the code has it -- Once the file is read, cleaned and scaled,
    with [n] the number of rows of the scaled array (the rows of the
    cleaned panel, when the scaler keeps the shape): the split index is
    [int ((1 - test_size) * n)] in float arithmetic, the difference and
    the product each rounded; when [int] returns it, the train partition
    is the Python slice [rows[:split_idx]] and the test partition
    [rows[split_idx:]], so no row position is in both, every train row
    comes before every test row, and together they are the whole array;
    these two partitions are what the call hands to the batch-source
    constructor and returns.  For [n = 100] and the float 0.2 the index
    is 80. *)
Theorem chronological_split csv_path test_size batch w df cleaned fitted split_idx :
  read_csv csv_path = inr df ->
  clean df f0_3 = inr cleaned ->
  fit_transform (frame_values cleaned) = inr fitted ->
  let scaled := rows (snd fitted) in
  let n := length scaled in
  py_int (SF64mul (SF64sub fone test_size) (of_count n)) = inr split_idx ->
  let k := slice_bound n split_idx in
  let train := firstn k scaled in
  let test := skipn k scaled in
  (n = length (rows (frame_values cleaned)) -> n = length (index cleaned))
  /\ ((0 <= split_idx <= Z.of_nat n)%Z -> k = Z.to_nat split_idx)
  /\ train ++ test = scaled
  /\ (forall i row, nth_error train i = Some row ->
        i < k /\ nth_error scaled i = Some row)
  /\ (forall j row, nth_error test j = Some row ->
        nth_error scaled (k + j) = Some row)
  /\ fst (prepare csv_path test_size batch w)
     = match loader_rejects (mkDataset train) batch true with
       | Some e => inl e
       | None =>
           match loader_rejects (mkDataset test) batch false with
           | Some e => inl e
           | None =>
               inr (mkPrepared (mkLoader (mkDataset train) batch true)
                               (mkLoader (mkDataset test) batch false)
                               (fst fitted) (labels df))
           end
       end
  /\ (n = 100 -> test_size = f0_2 -> split_idx = 80%Z).
Proof.
  intros Hread Hclean Hfit scaled n Hk k train test.
  split; [intros ->; apply frame_values_rows|].
  split; [apply slice_bound_inside|].
  split; [apply firstn_skipn|]. split; [|split; [|split]].
  - intros i row Hrow. unfold train in Hrow. rewrite nth_error_firstn in Hrow.
    destruct (Nat.ltb_spec i k); [auto | discriminate].
  - intros j row Hrow. unfold test in Hrow. rewrite nth_error_skipn in Hrow.
    exact Hrow.
  - rewrite (prepare_outcome _ _ _ w df cleaned fitted Hread Hclean Hfit).
    fold scaled. fold n. unfold split_index. rewrite Hk. reflexivity.
  - intros Hn ->. rewrite Hn in Hk. vm_compute in Hk. injection Hk as <-.
    reflexivity.
Qed.


Lemma prepare_goes_on csv_path test_size batch w df cleaned :
  read_csv csv_path = inr df ->
  clean df f0_3 = inr cleaned ->
  exists w1,
    prepare csv_path test_size batch w
    = match fit_transform (frame_values cleaned) with
      | inl e => (inl e, w1)
      | inr fitted => split_steps Scaler Scaled loader_rejects (labels df) fitted
                        test_size batch w1
      end.
Proof.
  intros Hread Hclean. rewrite prepare_data_run. unfold prepare_steps.
  rewrite Hread. rewrite clean_unfold in Hclean.
  destruct (unique_labels df); [|discriminate]. injection Hclean as <-.
  eexists. reflexivity.
Qed.


Lemma empty_values cleaned :
  index cleaned = [] \/ columns cleaned = [] ->
  rows (frame_values cleaned) = [] \/ ncols (frame_values cleaned) = 0.
Proof.
  unfold frame_values, to_values. cbn [rows ncols].
  intros [Hrows|Hcols]; [left; rewrite Hrows | right; rewrite Hcols]; reflexivity.
Qed.

(** C8, as the code has it -- Cleaning that removes all rows or all
    columns raises nothing: [clean] returns the empty table (it returns
    for every panel with distinct labels, and the only exception it
    raises at all is the ValueError of pandas for a repeated label).
    [prepare] has no check of its own either and hands the values of the
    empty table to the scaler; the validation of the scaler rejects an
    array without rows or without columns, and the call fails with that
    ValueError. *)
Theorem empty_panel_is_not_checked csv_path test_size batch w df cleaned :
  rejects_empty fit_transform ->
  read_csv csv_path = inr df ->
  clean df f0_3 = inr cleaned ->
  index cleaned = [] \/ columns cleaned = [] ->
  cleaned = clean_steps df f0_3
  /\ (forall e, clean df f0_3 = inl e -> e = ambiguous)
  /\ exists msg,
       fit_transform (frame_values cleaned) = inl (ValueError msg)
       /\ fst (prepare csv_path test_size batch w) = inl (ValueError msg).
Proof.
  intros Hscaler Hread Hclean Hempty.
  split; [apply clean_returns in Hclean; apply Hclean|].
  split; [rewrite Hclean; discriminate|].
  destruct (Hscaler (frame_values cleaned) (empty_values cleaned Hempty)) as (msg & Hfit).
  exists msg. split; [exact Hfit|].
  destruct (prepare_goes_on csv_path test_size batch w df cleaned Hread Hclean)
    as (w1 & Hrun).
  rewrite Hrun, Hfit. reflexivity.
Qed.

End PrepareFacts.

(** ** [collect_data] on a store *)

Section CollectFacts.

Variable get_series : string -> Exception + Series.

Lemma for_each_app {A} (l1 l2 : list A) (body : A -> M unit) w :
  for_each (l1 ++ l2) body w = (for_each l1 body ;; for_each l2 body) w.
Proof.
  revert w. induction l1 as [|x l1 IH]; intros w; cbn [for_each app].
  - reflexivity.
  - unfold bind. destruct (body x w) as [[e|u] w1]; [reflexivity|].
    rewrite IH. reflexivity.
Qed.

Lemma for_each_nested (cat : Catalog) (body : string * string -> M unit) w :
  for_each cat (fun item => for_each (snd item) body) w
  = for_each (entries cat) body w.
Proof.
  revert w. induction cat as [|item cat IH]; intros w.
  - reflexivity.
  - unfold entries. cbn [flat_map for_each]. rewrite for_each_app.
    unfold bind. destruct (for_each (snd item) body w) as [[e|u] w1]; [reflexivity|].
    apply IH.
Qed.

Lemma fred_get_series_run H E series_id :
  fred_get_series get_series series_id (mkWorld H E)
  = (get_series series_id, mkWorld H (E ++ [EvRequest series_id])).
Proof.
  unfold fred_get_series, bind, emit, ret, raise. cbn [heap events].
  destruct (get_series series_id); reflexivity.
Qed.

Lemma time_sleep_run H E s :
  time_sleep s (mkWorld H E) = (inr tt, mkWorld H (E ++ [EvSleep s])).
Proof. reflexivity. Qed.

Lemma fetch_one_run H E df entry :
  fetch_one get_series (length H) entry (mkWorld (H ++ [df]) E)
  = (inr tt,
     mkWorld (H ++ [assemble df (fetched get_series [entry])])
             (E ++ round_log get_series entry)).
Proof.
  destruct entry as [series_id series_name].
  unfold fetch_one, try_except, fetched, round_log. cbn [flat_map fst snd].
  pose proof (fred_get_series_run (H ++ [df]) E series_id) as Hreq.
  destruct (get_series series_id) as [e|s].
  - raises Hreq. rewrite print_run.
    cbn [assemble fold_left app]. rewrite <- app_assoc. reflexivity.
  - returns Hreq. unfold df_setitem.
    returns (modify_run _ _ _ (fun d => setitem d series_name s) df
                  (nth_error_fresh H df)).
    rewrite update_fresh.
    returns (print_run _ _ _).
    rewrite time_sleep_run.
    cbn [assemble fold_left app fst snd]. rewrite <- !app_assoc. reflexivity.
Qed.

Lemma fetched_cons entry es :
  fetched get_series (entry :: es)
  = fetched get_series [entry] ++ fetched get_series es.
Proof.
  unfold fetched. cbn [flat_map]. rewrite app_nil_r. reflexivity.
Qed.

Lemma assemble_app df l1 l2 :
  assemble df (l1 ++ l2) = assemble (assemble df l1) l2.
Proof. unfold assemble. apply fold_left_app. Qed.

Lemma for_each_fetch H E df es :
  for_each es (fetch_one get_series (length H)) (mkWorld (H ++ [df]) E)
  = (inr tt,
     mkWorld (H ++ [assemble df (fetched get_series es)])
             (E ++ flat_map (round_log get_series) es)).
Proof.
  revert df E. induction es as [|entry es IH]; intros df E.
  - cbn [for_each flat_map]. unfold fetched. cbn [flat_map assemble fold_left].
    rewrite app_nil_r. reflexivity.
  - rewrite (fetched_cons entry es), assemble_app.
    cbn [for_each]. returns (fetch_one_run H E df entry).
    rewrite IH. cbn [flat_map]. rewrite <- app_assoc. reflexivity.
Qed.

Lemma collect_data_run cat H E :
  collect_data get_series cat (mkWorld H E)
  = (inr (length H),
     mkWorld (H ++ [assemble empty_frame (fetched get_series (entries cat))])
             (E ++ flat_map (round_log get_series) (entries cat))).
Proof.
  unfold collect_data.
  rewrite (bind_inr _ _ (mkWorld H E) (length H) (mkWorld (H ++ [empty_frame]) E) eq_refl).
  unfold bind at 1. rewrite for_each_nested. rewrite for_each_fetch. reflexivity.
Qed.

Lemma collect_data_outcome cat w :
  outcome (collect_data get_series cat w)
  = inr (assemble empty_frame (fetched get_series (entries cat))).
Proof.
  destruct w as [H E]. rewrite collect_data_run. unfold outcome. cbn [heap].
  rewrite nth_error_fresh. reflexivity.
Qed.

End CollectFacts.

(** ** Assembling the panel *)

Lemma put_column_In c c' cols :
  In c' (put_column c cols) -> c' = c \/ In c' cols.
Proof.
  induction cols as [|a cols IH]; simpl.
  - intros [<-|[]]. left. reflexivity.
  - destruct (String.eqb (label a) (label c)).
    + intros [<-|Hin]; [left; reflexivity | right; right; exact Hin].
    + intros [<-|Hin]; [right; left; reflexivity|].
      destruct (IH Hin) as [->|Hin']; [left; reflexivity | right; right; exact Hin'].
Qed.








(** The index of a frame with rows never changes; the index of a frame
    without rows is set by the first value that has rows. *)
Lemma setitem_index df name s :
  index (setitem df name s)
  = match index df with
    | [] => s_index s
    | _ :: _ => index df
    end.
Proof.
  unfold setitem, s_index. cbn [index].
  destruct (index df); [destruct (s_obs s)|]; reflexivity.
Qed.

Lemma assemble_index cols df :
  index (assemble df cols)
  = match index df with
    | [] => match first_with_rows cols with
            | Some s => s_index s
            | None => []
            end
    | _ :: _ => index df
    end.
Proof.
  revert df. induction cols as [|col cols IH]; intros df.
  - simpl. destruct (index df); reflexivity.
  - cbn [assemble fold_left]. fold (assemble (setitem df (fst col) (snd col)) cols).
    rewrite IH, setitem_index.
    destruct (index df) as [|d idx]; [|reflexivity].
    unfold first_with_rows, s_index, has_rows. cbn [find].
    destruct (s_obs (snd col)) as [|o os] eqn:Hobs; cbn; rewrite ?Hobs; reflexivity.
Qed.

Lemma reindex_no_obs s idx :
  s_obs s = [] -> reindex s idx = map (fun _ => NaN) idx.
Proof. intros Hs. unfold reindex. rewrite Hs. reflexivity. Qed.

Lemma setitem_sourced df done name s :
  sourced df done -> unborn df done ->
  sourced (setitem df name s) (done ++ [(name, s)])
  /\ unborn (setitem df name s) (done ++ [(name, s)]).
Proof.
  intros Hsrc Hunb. split.
  - intros c' Hc'. unfold setitem in *. cbn [index columns] in *.
    apply put_column_In in Hc'. destruct Hc' as [->|Hc'].
    { exists s. split; [apply in_or_app; right; left; reflexivity | reflexivity]. }
    destruct (index df) as [|d idx] eqn:Hidx; [destruct (s_obs s) as [|o os] eqn:Hobs|].
    + destruct (Hsrc c' Hc') as (s0 & Hin & Heq). rewrite Hidx in Heq.
      exists s0. split; [apply in_or_app; left; exact Hin | exact Heq].
    + apply in_map_iff in Hc'. destruct Hc' as (c & <- & Hc).
      destruct (Hsrc c Hc) as (s0 & Hin & Heq).
      exists s0. cbn [label]. split; [apply in_or_app; left; exact Hin|].
      unfold aligned. rewrite (reindex_no_obs s0) by exact (Hunb Hidx _ Hin).
      rewrite Heq. reflexivity.
    + destruct (Hsrc c' Hc') as (s0 & Hin & Heq). rewrite Hidx in Heq.
      exists s0. split; [apply in_or_app; left; exact Hin | exact Heq].
  - intros Hempty col Hcol. rewrite setitem_index in Hempty.
    destruct (index df) as [|d idx] eqn:Hidx; [|discriminate].
    apply in_app_or in Hcol. destruct Hcol as [Hcol|[<-|[]]].
    + exact (Hunb Hidx col Hcol).
    + cbn [snd]. unfold s_index in Hempty.
      destruct (s_obs s); [reflexivity | discriminate].
Qed.

Lemma assemble_sourced cols df done :
  sourced df done -> unborn df done ->
  sourced (assemble df cols) (done ++ cols).
Proof.
  revert df done. induction cols as [|col cols IH]; intros df done Hsrc Hunb.
  - rewrite app_nil_r. exact Hsrc.
  - cbn [assemble fold_left]. fold (assemble (setitem df (fst col) (snd col)) cols).
    destruct (setitem_sourced df done (fst col) (snd col) Hsrc Hunb) as [Hsrc' Hunb'].
    rewrite <- surjective_pairing in Hsrc', Hunb'.
    change (done ++ col :: cols) with (done ++ [col] ++ cols). rewrite app_assoc.
    apply IH; assumption.
Qed.





(** ** The panel [collect_data] returns *)

Section PanelFacts.

Variable get_series : string -> Exception + Series.


Lemma sourced_start : sourced empty_frame [] /\ unborn empty_frame [].
Proof.
  split.
  - intros c [].
  - intros _ col [].
Qed.





(** C10, as the code has it -- The row index of the panel [collect_data]
    returns is the index of the first successfully fetched series that
    has at least one observation, and is empty when there is none; it is
    the index of the first successfully fetched series when that one has
    an observation.  Every column is a fetched series read at the labels
    of that index only: its observations at other labels are left out,
    and no label is added to the index. *)
Theorem index_is_set_by_first_series_with_rows (cat : Catalog) (w : World) :
  exists panel,
    outcome (collect_data get_series cat w) = inr panel
    /\ index panel
       = match first_with_rows (fetched get_series (entries cat)) with
         | Some s => s_index s
         | None => []
         end
    /\ (forall name s rest,
          fetched get_series (entries cat) = (name, s) :: rest ->
          s_obs s <> [] -> index panel = s_index s)
    /\ (forall c, In c (columns panel) ->
          exists s,
            In (label c, s) (fetched get_series (entries cat))
            /\ values c = map (fun d => lookup_label d (s_obs s)) (index panel)).
Proof.
  eexists. split; [apply collect_data_outcome|].
  assert (Hidx : index (assemble empty_frame (fetched get_series (entries cat)))
                 = match first_with_rows (fetched get_series (entries cat)) with
                   | Some s => s_index s
                   | None => []
                   end)
    by (rewrite assemble_index; reflexivity).
  split; [exact Hidx|]. split.
  - intros name s rest Hf Hne. rewrite Hidx, Hf.
    unfold first_with_rows, has_rows. cbn [find snd].
    destruct (s_obs s); [congruence | reflexivity].
  - intros c Hc.
    destruct sourced_start as [Hsrc Hunb].
    destruct (assemble_sourced (fetched get_series (entries cat)) _ _ Hsrc Hunb c Hc)
      as (s & Hin & Heq).
    exists s. split; [exact Hin|]. rewrite Heq at 1. reflexivity.
Qed.

(** ** Pacing *)

Lemma paced_never_again pause owed l1 l2 :
  (forall o, paced pause o l2 = false) ->
  paced pause owed (l1 ++ l2) = false.
Proof.
  intros Hl2. revert owed. induction l1 as [|e l1 IH]; intros owed.
  - apply Hl2.
  - destruct e; cbn [app paced]; rewrite ?IH; auto using andb_false_r.
Qed.

(** A failed request that is not the last one breaks the pacing: the
    next request comes with no pause in between. *)
Lemma failure_breaks_pacing pause es1 entry next es2 e :
  get_series (fst entry) = inl e ->
  paced pause false
    (flat_map (round_log get_series) (es1 ++ entry :: next :: es2))
  = false.
Proof.
  intros Hfail. rewrite flat_map_app. apply paced_never_again. intros o.
  destruct entry as [series_id series_name], next as [next_id next_name].
  cbn [fst] in Hfail. cbn [flat_map]. unfold round_log at 1. rewrite Hfail.
  cbn [app paced]. unfold round_log at 1.
  destruct (get_series next_id); cbn [app paced negb andb];
    apply andb_false_r.
Qed.

(** When no request fails, each request is followed by its pause. *)
Lemma paced_when_all_succeed (es : list (string * string)) :
  (forall entry, In entry es -> exists s, get_series (fst entry) = inr s) ->
  paced (2 # 10) false (flat_map (round_log get_series) es) = true.
Proof.
  induction es as [|[series_id series_name] es IH]; intros Hok.
  - reflexivity.
  - cbn [flat_map]. unfold round_log at 1.
    destruct (Hok (series_id, series_name) (or_introl eq_refl)) as (s & Hget).
    cbn [fst] in Hget. rewrite Hget. cbn [app paced negb andb].
    change (Qle_bool (2 # 10) (2 # 10)) with true. cbn [negb andb].
    apply IH. intros entry Hin. apply Hok. right. exact Hin.
Qed.

End PanelFacts.

(** ** The functions on the sample inputs *)

(** On counts below 2^53 the floats of the machine compute what the
    model computes: the comparison of the missing fraction with the
    threshold, and the split index. *)
Lemma machine_count n :
  (Z.of_nat n <= max_count)%Z ->
  Prim2SF (Binary64.of_count (Z.of_nat n)) = of_count n.
Proof.
  intros Hn. unfold Binary64.of_count, of_count.
  rewrite of_uint63_spec, Uint63.of_Z_spec.
  unfold max_count in Hn.
  rewrite Z.mod_small by (change wB with 9223372036854775808%Z; lia).
  f_equal. unfold max_count. lia.
Qed.

Lemma machine_agrees m n (col_thresh test_size : float) :
  (Z.of_nat m <= max_count)%Z -> (Z.of_nat n <= max_count)%Z ->
  Binary64.isna_mean_exceeds (Z.of_nat m) (Z.of_nat n) col_thresh
  = exceeds (fraction m n) (Prim2SF col_thresh)
  /\ Binary64.split_index test_size (Z.of_nat n)
     = match split_index (Prim2SF test_size) n with
       | inr k => Some k
       | inl _ => None
       end.
Proof.
  intros Hm Hn. split.
  - unfold Binary64.isna_mean_exceeds, exceeds, strict_gt, fraction.
    rewrite ltb_spec, div_spec, !machine_count by assumption. reflexivity.
  - unfold Binary64.split_index, split_index, Binary64.py_int, py_int.
    rewrite mul_spec, sub_spec, machine_count by assumption.
    change (Prim2SF PrimFloat.one) with fone.
    destruct (SF64mul (SF64sub fone (Prim2SF test_size)) (of_count n))
      as [sg|sg| |sg mz ez]; reflexivity.
Qed.

(** The floats of the machine give what the model gives: the literals
    are the same floats, 3 missing cells of 10 do not exceed 0.3, 4 do,
    and the split index of 100 rows at 0.2 is 80. *)
Lemma binary64_examples :
  Prim2SF Binary64.f0_3 = f0_3
  /\ Prim2SF Binary64.f0_2 = f0_2
  /\ Binary64.isna_mean_exceeds 3 10 Binary64.f0_3 = exceeds (fraction 3 10) f0_3
  /\ Binary64.isna_mean_exceeds 4 10 Binary64.f0_3 = exceeds (fraction 4 10) f0_3
  /\ exceeds (fraction 3 10) f0_3 = false
  /\ exceeds (fraction 4 10) f0_3 = true
  /\ Binary64.split_index Binary64.f0_2 100 = Some 80%Z
  /\ split_index f0_2 100 = inr 80%Z.
Proof. repeat split; vm_compute; reflexivity. Qed.

(** The display names of the catalog of the file are distinct, and so
    are its identifiers. *)
Lemma series_map_names_distinct :
  NoDup (map snd (entries series_map)) /\ NoDup (map fst (entries series_map)).
Proof.
  split; apply (NoDup_count_occ' string_dec); intros x Hx;
    repeat (destruct Hx as [<-|Hx]; [vm_compute; reflexivity|]); destruct Hx.
Qed.

Lemma clean_output_invariant_quarters :
  clean Sample.quarters f0_3 = inr Sample.quarters_clean
  /\ complete Sample.quarters_clean
  /\ numeric Sample.quarters_clean
  /\ subsequence (index Sample.quarters_clean) (index Sample.quarters).
Proof.
  split; [vm_compute; reflexivity|].
  apply (clean_output_invariant Sample.quarters f0_3).
  vm_compute. reflexivity.
Defined.

Lemma clean_idempotent_quarters :
  clean Sample.quarters f0_3 = inr Sample.quarters_clean
  /\ clean Sample.quarters_clean f0_3 = inr Sample.quarters_clean.
Proof.
  split; [vm_compute; reflexivity|].
  apply (clean_idempotent Sample.quarters f0_3).
  vm_compute. reflexivity.
Defined.

Lemma column_pruning_quarters :
  clean Sample.quarters f0_3 = inr Sample.quarters_clean
  /\ In Sample.gdp (columns (pruned Sample.quarters f0_3))
  /\ ~ In Sample.rate (columns (pruned Sample.quarters f0_3))
  /\ In "gdp" (labels Sample.quarters_clean)
  /\ ~ In "rate" (labels Sample.quarters_clean).
Proof.
  assert (Hc : clean Sample.quarters f0_3 = inr Sample.quarters_clean)
    by (vm_compute; reflexivity).
  split; [exact Hc|].
  destruct (column_pruning_is_strict Sample.quarters f0_3 Sample.quarters_clean Hc)
    as (_ & _ & _ & Hten & Hdrop & Hkeep).
  assert (Hgdp : In Sample.gdp (columns Sample.quarters)) by (left; reflexivity).
  assert (Hrate : In Sample.rate (columns Sample.quarters))
    by (right; left; reflexivity).
  split; [|split; [|split]].
  - apply (Hten Sample.gdp Hgdp eq_refl eq_refl). reflexivity.
  - apply (Hten Sample.rate Hrate eq_refl eq_refl). reflexivity.
  - apply (Hkeep Sample.gdp Hgdp); [|reflexivity].
    intros Habove. apply too_sparse_spec in Habove. vm_compute in Habove.
    discriminate.
  - apply (Hdrop Sample.rate Hrate).
    apply too_sparse_spec. vm_compute. reflexivity.
Defined.

Lemma clean_is_pure_quarters :
  nth_error (heap Sample.alone) 0 = Some Sample.quarters
  /\ nth_error (heap Sample.crowded) 1 = Some Sample.quarters
  /\ outcome (clean_quarterly_data 0 f0_3 Sample.alone)
     = outcome (clean_quarterly_data 1 f0_3 Sample.crowded)
  /\ nth_error (heap (snd (clean_quarterly_data 0 f0_3 Sample.alone))) 0
     = Some Sample.quarters.
Proof.
  split; [reflexivity|]. split; [reflexivity|].
  destruct (clean_is_pure Sample.alone Sample.crowded 0 1 Sample.quarters f0_3
              eq_refl eq_refl)
    as (Hsame & Hinput & _).
  split; assumption.
Defined.

Lemma chronological_split_hundred :
  exists fitted,
    Reference.read_csv "panel.csv" Sample.hundred "panel.csv" = inr Sample.hundred
    /\ clean Sample.hundred f0_3 = inr Sample.hundred
    /\ Reference.fit_transform (frame_values Sample.hundred) = inr fitted
    /\ py_int (SF64mul (SF64sub fone f0_2) (of_count (length (rows (snd fitted)))))
       = inr 80%Z
    /\ firstn 80 (rows (snd fitted)) ++ skipn 80 (rows (snd fitted))
       = rows (snd fitted)
    /\ partitions
         (Reference.prepare_data "panel.csv" Sample.hundred "panel.csv"
            f0_2 32 world0)
       = Some (firstn 80 (rows (snd fitted)), skipn 80 (rows (snd fitted))).
Proof.
  destruct (Reference.fit_transform (frame_values Sample.hundred))
    as [e|fitted] eqn:Hfit; [vm_compute in Hfit; discriminate|].
  exists fitted.
  assert (Hread : Reference.read_csv "panel.csv" Sample.hundred "panel.csv"
                  = inr Sample.hundred) by reflexivity.
  assert (Hclean : clean Sample.hundred f0_3 = inr Sample.hundred)
    by (vm_compute; reflexivity).
  assert (Hn : length (rows (snd fitted)) = 100).
  { vm_compute in Hfit. injection Hfit as <-. vm_compute. reflexivity. }
  assert (Hk : py_int (SF64mul (SF64sub fone f0_2)
                         (of_count (length (rows (snd fitted))))) = inr 80%Z)
    by (rewrite Hn; vm_compute; reflexivity).
  split; [exact Hread|]. split; [exact Hclean|]. split; [reflexivity|].
  split; [exact Hk|].
  destruct (chronological_split _ _ _ _ Reference.loader_rejects
              "panel.csv" f0_2 32 world0 _ _ _ 80%Z Hread Hclean Hfit Hk)
    as (_ & _ & Hcover & _ & _ & Hrun & _).
  rewrite Hn in Hcover, Hrun.
  change (slice_bound 100 80) with 80 in Hcover, Hrun.
  split; [exact Hcover|].
  unfold partitions, Reference.prepare_data. rewrite Hrun.
  assert (Htrain : Reference.loader_rejects
                     (mkDataset (firstn 80 (rows (snd fitted)))) 32 true = None).
  { vm_compute in Hfit. injection Hfit as <-. vm_compute. reflexivity. }
  rewrite Htrain. reflexivity.
Defined.

(** The split index is not the floor of the exact product.  With the
    float nearest to 0.9 and 10 rows it is 0, where the exact product of
    the decimal, [(1 - 0.9) * 10], is 1: the train partition is empty
    and the batch-source constructor rejects it.  With the float nearest
    to 0.2 and 100 rows it is 80, where the floor of the exact product
    for that float is 79. *)
Lemma floor_formula_is_not_exact :
  split_index f0_9 10 = inr 0%Z
  /\ Qfloor ((1 - (9 # 10)) * 10) = 1%Z
  /\ option_map (fun parts => (fst parts, length (snd parts)))
       (partitions
          (prepare_data (Reference.read_csv "panel.csv" Sample.quarters)
             Reference.Scaler Reference.Scaled Reference.fit_transform More.accepts
             "panel.csv" f0_9 32 world0))
     = Some ([], 10)
  /\ raised
       (Reference.prepare_data "panel.csv" Sample.quarters "panel.csv" f0_9 32 world0)
     = Some "ValueError"
  /\ split_index f0_2 100 = inr 80%Z
  /\ Qfloor ((1 - exact f0_2) * 100) = 79%Z.
Proof. repeat split; vm_compute; reflexivity. Qed.


Lemma reference_rejects_empty : rejects_empty Reference.fit_transform.
Proof.
  intros a Hempty. unfold Reference.fit_transform.
  destruct (Reference.number_rows (rows a)) as [xs|] eqn:Hxs; [|eexists; reflexivity].
  destruct Hempty as [Hrows|Hcols].
  - rewrite Hrows in Hxs. injection Hxs as <-. eexists. reflexivity.
  - rewrite Hcols. destruct xs; eexists; reflexivity.
Qed.

Lemma empty_panel_dates_only :
  Reference.read_csv "panel.csv" Sample.dates_only "panel.csv" = inr Sample.dates_only
  /\ clean Sample.dates_only f0_3 = inr (mkDataFrame [0; 1]%Z [])
  /\ exists msg,
       Reference.fit_transform (frame_values (mkDataFrame [0; 1]%Z []))
       = inl (ValueError msg)
       /\ fst (Reference.prepare_data "panel.csv" Sample.dates_only "panel.csv"
                 f0_2 32 world0)
          = inl (ValueError msg).
Proof.
  assert (Hread : Reference.read_csv "panel.csv" Sample.dates_only "panel.csv"
                  = inr Sample.dates_only) by reflexivity.
  assert (Hclean : clean Sample.dates_only f0_3 = inr (mkDataFrame [0; 1]%Z []))
    by (vm_compute; reflexivity).
  split; [exact Hread|]. split; [exact Hclean|].
  apply (empty_panel_is_not_checked _ _ _ _ Reference.loader_rejects
           "panel.csv" f0_2 32%Z world0 Sample.dates_only _
           reference_rejects_empty Hread Hclean).
  right. reflexivity.
Defined.

(** A panel of dates only is cleaned to a table without columns, which
    [clean] returns; [prepare] then fails in the scaler, with its
    ValueError. *)
Lemma table_without_columns_is_returned :
  clean Sample.dates_only f0_3 = inr (mkDataFrame [0; 1]%Z [])
  /\ raised
       (Reference.prepare_data "panel.csv" Sample.dates_only "panel.csv"
          f0_2 32 world0)
     = Some "ValueError".
Proof. split; vm_compute; reflexivity. Qed.


(** The first series fetched has no observation: the index of the panel
    is the index of the second one. *)
Lemma later_series_sets_the_index :
  fetched Sample.a_is_empty (entries Sample.two_series)
  = [ ("a", mkSeries float64 []); ("b", Sample.series_b) ]
  /\ outcome (collect_data Sample.a_is_empty Sample.two_series world0)
     = inr (mkDataFrame [1%Z]
              [ mkColumn "a" float64 [NaN]; mkColumn "b" float64 [Num 5] ]).
Proof. split; vm_compute; reflexivity. Qed.

(** C4 -- The pause after a request is missing when the request fails:
    with a provider that fails on the first of two series, the second
    request follows the first with no sleep in between, so the log of the
    run is not paced at 0.2 s. *)
Theorem failed_request_is_not_followed_by_pause :
  events (snd (collect_data Sample.a_fails Sample.two_series world0))
  = [ EvRequest "A";
      EvPrint "Failed to fetch a (A): Bad Request.  The series does not exist.";
      EvRequest "B";
      EvPrint "Added b (B)";
      EvSleep (2 # 10) ]
  /\ paced (2 # 10) false
       (events (snd (collect_data Sample.a_fails Sample.two_series world0)))
     = false.
Proof. split; vm_compute; reflexivity. Qed.

(** * More about the functions *)

(** ** Sublists *)

Lemma subsequence_same {A} (l : list A) : subsequence l l.
Proof. induction l as [|x l IH]; constructor; exact IH. Qed.

Lemma subsequence_chain {A} (l1 l2 l3 : list A) :
  subsequence l1 l2 -> subsequence l2 l3 -> subsequence l1 l3.
Proof.
  intros H12 H23. revert l1 H12.
  induction H23 as [|x l2 l3 H23 IH|x l2 l3 H23 IH]; intros l1 H12.
  - exact H12.
  - apply sub_skip. apply IH. exact H12.
  - inversion H12; subst.
    + apply sub_skip. apply IH. assumption.
    + apply sub_keep. apply IH. assumption.
Qed.

Lemma subsequence_shorter {A} (l1 l2 : list A) :
  subsequence l1 l2 -> length l1 <= length l2.
Proof. induction 1; simpl; lia. Qed.

Lemma subsequence_kept_labels (keep keep' : Column -> bool) (cols : list Column) :
  (forall c, In c cols -> keep c = true -> keep' c = true) ->
  subsequence (map label (filter keep cols)) (map label (filter keep' cols)).
Proof.
  induction cols as [|c cols IH]; intros Himp.
  - constructor.
  - assert (IH' := IH (fun x Hx => Himp x (or_intror Hx))).
    cbn [filter]. destruct (keep c) eqn:Hk.
    + rewrite (Himp c (or_introl eq_refl) Hk). cbn [map]. apply sub_keep. exact IH'.
    + destruct (keep' c); cbn [map]; [apply sub_skip|]; exact IH'.
Qed.

Lemma kept_labels_of_all (keep : Column -> bool) (cols : list Column) :
  subsequence (map label (filter keep cols)) (map label cols).
Proof.
  rewrite <- (filter_all (fun _ => true) cols) at 2 by reflexivity.
  apply subsequence_kept_labels. reflexivity.
Qed.

(** ** The columns [clean] returns *)

Lemma filled_columns df thresh :
  NoDup (labels df) ->
  columns (filled df thresh)
  = map (fun c => mkColumn (label c) (dtype c)
                    (map (cell_at (fill_column c))
                         (complete_rows (bfill (ffill (pruned df thresh))))))
        (filter (fun c => negb (too_sparse thresh c)) (columns df)).
Proof.
  intros Hnd. unfold filled, dropna, take_rows. cbn [columns].
  rewrite (fill_columns df thresh Hnd). rewrite map_map. reflexivity.
Qed.

Lemma filter_after_map {A B} (f : A -> B) (p : B -> bool) (l : list A) :
  filter p (map f l) = map f (filter (fun x => p (f x)) l).
Proof.
  induction l as [|x l IH]; cbn [map filter]; [reflexivity|].
  destruct (p (f x)); cbn [map]; rewrite IH; reflexivity.
Qed.

Lemma filter_twice {A} (p1 p2 : A -> bool) (l : list A) :
  filter p2 (filter p1 l) = filter (fun x => p1 x && p2 x) l.
Proof.
  induction l as [|x l IH]; cbn [filter]; [reflexivity|].
  destruct (p1 x); cbn [filter andb]; [destruct (p2 x)|]; rewrite IH; reflexivity.
Qed.

Lemma clean_steps_kept df thresh :
  NoDup (labels df) ->
  columns (clean_steps df thresh)
  = map (fun c => mkColumn (label c) (dtype c)
                    (map (cell_at (fill_column c))
                         (complete_rows (bfill (ffill (pruned df thresh))))))
        (filter (kept thresh) (columns df)).
Proof.
  intros Hnd. rewrite (clean_steps_columns df thresh Hnd).
  rewrite (filled_columns df thresh Hnd).
  rewrite filter_after_map. cbn [dtype]. rewrite filter_twice. reflexivity.
Qed.

Lemma clean_steps_kept_labels df thresh :
  NoDup (labels df) ->
  labels (clean_steps df thresh) = map label (filter (kept thresh) (columns df)).
Proof.
  intros Hnd. unfold labels. rewrite (clean_steps_kept df thresh Hnd).
  rewrite map_map. reflexivity.
Qed.

Lemma clean_steps_labels df thresh :
  NoDup (labels df) ->
  subsequence (labels (clean_steps df thresh)) (labels df)
  /\ length (columns (clean_steps df thresh)) <= length (columns df).
Proof.
  intros Hnd.
  assert (Hl : subsequence (labels (clean_steps df thresh)) (labels df)).
  { rewrite (clean_steps_kept_labels df thresh Hnd). apply kept_labels_of_all. }
  split; [exact Hl|].
  apply subsequence_shorter in Hl. unfold labels in Hl.
  rewrite !length_map in Hl. exact Hl.
Qed.

(** X1 -- Cleaning never adds anything and never reorders: the labels of
    the returned panel are labels of the input in their input order, so
    the panel has at most as many columns, and it has at most as many
    rows. *)
Theorem clean_never_grows (df : DataFrame) (thresh : binary64) (out : DataFrame) :
  clean df thresh = inr out ->
  subsequence (labels out) (labels df)
  /\ length (columns out) <= length (columns df)
  /\ length (index out) <= length (index df).
Proof.
  intros Hc. apply clean_returns in Hc. destruct Hc as [Hnd ->].
  destruct (clean_steps_labels df thresh Hnd) as [Hl Hlen].
  split; [exact Hl|]. split; [exact Hlen|].
  rewrite clean_steps_index. apply subsequence_shorter. apply index_filled.
Qed.

Lemma clean_never_grows_quarters :
  clean Sample.quarters f0_3 = inr Sample.quarters_clean
  /\ subsequence (labels Sample.quarters_clean) (labels Sample.quarters)
  /\ length (columns Sample.quarters_clean) <= length (columns Sample.quarters)
  /\ length (index Sample.quarters_clean) <= length (index Sample.quarters).
Proof.
  split; [vm_compute; reflexivity|].
  apply (clean_never_grows Sample.quarters f0_3).
  vm_compute. reflexivity.
Defined.

(** ** Filling *)

Lemma ffill_from_len last vs : length (ffill_from last vs) = length vs.
Proof.
  revert last. induction vs as [|v vs IH]; intros last; cbn [ffill_from length].
  - reflexivity.
  - destruct (isna v); cbn [length]; rewrite IH; reflexivity.
Qed.

Lemma bfill_values_len vs : length (bfill_values vs) = length vs.
Proof.
  induction vs as [|v vs IH]; cbn [bfill_values length]; [|rewrite IH]; reflexivity.
Qed.

Lemma isna_is_NaN v : isna v = true -> v = NaN.
Proof. destruct v; [reflexivity | discriminate | discriminate]. Qed.

Lemma ffill_from_observed last vs i :
  isna (nth i vs NaN) = false ->
  nth i (ffill_from last vs) NaN = nth i vs NaN.
Proof.
  revert last i. induction vs as [|v vs IH]; intros last i Hv.
  - destruct i; discriminate.
  - cbn [ffill_from]. destruct i as [|i]; cbn [nth] in *.
    + rewrite Hv. reflexivity.
    + destruct (isna v); cbn [nth]; apply IH; exact Hv.
Qed.

Lemma bfill_values_observed vs i :
  isna (nth i vs NaN) = false ->
  nth i (bfill_values vs) NaN = nth i vs NaN.
Proof.
  revert i. induction vs as [|v vs IH]; intros i Hv.
  - destruct i; discriminate.
  - cbn [bfill_values]. destruct i as [|i]; cbn [nth] in *.
    + rewrite Hv. reflexivity.
    + apply IH. exact Hv.
Qed.

Lemma ffill_from_source last vs x :
  In x (ffill_from last vs) -> x = last \/ In x vs.
Proof.
  revert last. induction vs as [|v vs IH]; intros last; cbn [ffill_from].
  - intros [].
  - destruct (isna v); intros [<-|Hin].
    + left. reflexivity.
    + destruct (IH _ Hin) as [->|H]; [left; reflexivity | right; right; exact H].
    + right. left. reflexivity.
    + destruct (IH _ Hin) as [->|H]; [right; left; reflexivity | right; right; exact H].
Qed.

Lemma bfill_values_source vs x :
  In x (bfill_values vs) -> x = NaN \/ In x vs.
Proof.
  induction vs as [|v vs IH]; cbn [bfill_values].
  - intros [].
  - intros [<-|Hin].
    + destruct (isna v); [|right; left; reflexivity].
      destruct (bfill_values vs) as [|b bs]; [left; reflexivity|].
      destruct (IH (or_introl eq_refl)) as [H|H]; [left; exact H | right; right; exact H].
    + destruct (IH Hin) as [H|H]; [left; exact H | right; right; exact H].
Qed.

Lemma ffill_from_after_observation last vs :
  isna last = false -> forall x, In x (ffill_from last vs) -> isna x = false.
Proof.
  revert last. induction vs as [|v vs IH]; intros last Hl x; cbn [ffill_from].
  - intros [].
  - destruct (isna v) eqn:Hv; intros [<-|Hin]; eauto.
Qed.

Lemma fill_leaves_no_gap vs :
  (exists v, In v vs /\ isna v = false) ->
  forall x, In x (bfill_values (ffill_values vs)) -> isna x = false.
Proof.
  unfold ffill_values. induction vs as [|v vs IH]; intros (w & Hw & Hvalid).
  - destruct Hw.
  - cbn [ffill_from]. destruct (isna v) eqn:Hv.
    + assert (Hrest : exists v0, In v0 vs /\ isna v0 = false).
      { destruct Hw as [<-|Hw]; [congruence | eauto]. }
      specialize (IH Hrest). cbn [bfill_values]. change (isna NaN) with true. cbv iota.
      intros x [<-|Hin]; [|exact (IH x Hin)].
      destruct (bfill_values (ffill_from NaN vs)) as [|b bs] eqn:Hb.
      * exfalso. destruct Hrest as (v0 & Hv0 & _).
        assert (Hlen : length (bfill_values (ffill_from NaN vs)) = length vs)
          by (rewrite bfill_values_len, ffill_from_len; reflexivity).
        rewrite Hb in Hlen. destruct vs; [destruct Hv0 | discriminate].
      * apply IH. left. reflexivity.
    + assert (Hfull : forall x, In x (v :: ffill_from v vs) -> isna x = false).
      { intros x [<-|Hin]; [exact Hv|].
        exact (ffill_from_after_observation v vs Hv x Hin). }
      rewrite (bfill_values_full _ Hfull). exact Hfull.
Qed.

Lemma ffill_from_inner_gap last pre v gap rest j :
  isna v = false -> (forall g, In g gap -> isna g = true) ->
  j < length gap ->
  nth (length pre + 1 + j) (ffill_from last (pre ++ v :: gap ++ rest)) NaN = v.
Proof.
  intros Hv Hgap Hj. revert last.
  induction pre as [|a pre IH]; intros last.
  - cbn [app length Nat.add ffill_from]. rewrite Hv. cbn [nth].
    clear last. revert j Hj. induction gap as [|g gap IHg]; intros j Hj.
    + cbn [length] in Hj. lia.
    + cbn [app ffill_from]. rewrite (Hgap g (or_introl eq_refl)).
      destruct j as [|j]; cbn [nth]; [reflexivity|].
      apply IHg; [intros x Hx; apply Hgap; right; exact Hx | cbn [length] in Hj; lia].
  - cbn [app length Nat.add ffill_from].
    destruct (isna a); cbn [nth]; apply IH.
Qed.

Lemma ffill_from_leading_gap gap l :
  (forall g, In g gap -> isna g = true) ->
  ffill_from NaN (gap ++ l) = gap ++ ffill_from NaN l.
Proof.
  induction gap as [|g gap IH]; intros Hgap; cbn [app ffill_from].
  - reflexivity.
  - pose proof (isna_is_NaN g (Hgap g (or_introl eq_refl))) as Hg. subst g.
    cbn [isna]. rewrite IH by (intros x Hx; apply Hgap; right; exact Hx).
    reflexivity.
Qed.

Lemma bfill_values_leading_gap gap v rest j :
  (forall g, In g gap -> isna g = true) -> isna v = false ->
  j <= length gap ->
  nth j (bfill_values (gap ++ v :: rest)) NaN = v.
Proof.
  intros Hgap Hv. revert j. induction gap as [|g gap IH]; intros j Hj.
  - cbn [length] in Hj. replace j with 0 by lia.
    cbn [app bfill_values nth]. rewrite Hv. reflexivity.
  - assert (IH' := IH (fun x Hx => Hgap x (or_intror Hx))).
    cbn [app bfill_values]. rewrite (Hgap g (or_introl eq_refl)).
    destruct j as [|j]; cbn [nth].
    + specialize (IH' 0 (Nat.le_0_l _)).
      destruct (bfill_values (gap ++ v :: rest)); [exact IH' | exact IH'].
    + apply IH'. cbn [length] in Hj. lia.
Qed.

Lemma ffill_from_all_missing vs :
  (forall v, In v vs -> isna v = true) -> ffill_from NaN vs = vs.
Proof.
  intros Hall. rewrite <- (app_nil_r vs) at 1.
  rewrite (ffill_from_leading_gap vs [] Hall). apply app_nil_r.
Qed.

Lemma bfill_values_all_missing vs :
  (forall v, In v vs -> isna v = true) -> bfill_values vs = vs.
Proof.
  induction vs as [|v vs IH]; intros Hall; cbn [bfill_values]; [reflexivity|].
  rewrite IH by (intros x Hx; apply Hall; right; exact Hx).
  pose proof (isna_is_NaN v (Hall v (or_introl eq_refl))) as Hv. subst v.
  cbn [isna]. f_equal. destruct vs as [|w vs]; [reflexivity|].
  cbn [hd]. apply isna_is_NaN. apply Hall. right. left. reflexivity.
Qed.

Lemma fill_frame df :
  columns (bfill (ffill df)) = map fill_column (columns df)
  /\ index (bfill (ffill df)) = index df.
Proof.
  unfold bfill, ffill, map_values. cbn [columns index].
  rewrite map_map. split; reflexivity.
Qed.

Lemma fill_column_len c :
  length (values (fill_column c)) = length (values c).
Proof.
  unfold fill_column. cbn [values]. unfold ffill_values.
  rewrite bfill_values_len, ffill_from_len. reflexivity.
Qed.

Lemma fill_column_complete c :
  observed c -> forall x, In x (values (fill_column c)) -> isna x = false.
Proof.
  unfold fill_column. cbn [values]. unfold ffill_values.
  intros Hobs. apply fill_leaves_no_gap. exact Hobs.
Qed.

Lemma fill_column_void c :
  (forall v, In v (values c) -> isna v = true) -> fill_column c = c.
Proof.
  intros Hall. unfold fill_column, ffill_values.
  rewrite (ffill_from_all_missing _ Hall).
  rewrite (bfill_values_all_missing _ Hall). apply column_eta.
Qed.

(** X2 -- What [df.ffill().bfill()] does to a column.  The frame keeps
    its index and its columns, each filled on its own.  A filled column
    has the length of the column; an observed cell keeps its value and
    its place; a gap after an observation takes that observation (the
    earlier one, not the next); a gap at the start takes the first
    observation; no value is invented; a column with one observation or
    more has no missing cell left, and a column without any is left as
    it is. *)
Theorem fill_closes_gaps (df : DataFrame) :
  columns (bfill (ffill df)) = map fill_column (columns df)
  /\ index (bfill (ffill df)) = index df
  /\ forall c,
       length (values (fill_column c)) = length (values c)
       /\ (forall i, isna (nth i (values c) NaN) = false ->
             nth i (values (fill_column c)) NaN = nth i (values c) NaN)
       /\ (forall pre v gap rest j,
             values c = pre ++ v :: gap ++ rest ->
             isna v = false -> (forall g, In g gap -> isna g = true) ->
             j < length gap ->
             nth (length pre + 1 + j) (values (fill_column c)) NaN = v)
       /\ (forall gap v rest j,
             values c = gap ++ v :: rest ->
             (forall g, In g gap -> isna g = true) -> isna v = false ->
             j < length gap ->
             nth j (values (fill_column c)) NaN = v)
       /\ (forall x, In x (values (fill_column c)) -> isna x = false ->
             In x (values c))
       /\ (observed c ->
             forall x, In x (values (fill_column c)) -> isna x = false)
       /\ ((forall v, In v (values c) -> isna v = true) ->
             fill_column c = c).
Proof.
  destruct (fill_frame df) as [Hcols Hidx].
  split; [exact Hcols|]. split; [exact Hidx|].
  intros c. split; [apply fill_column_len|].
  split; [|split; [|split; [|split; [|split]]]];
    [| | | | apply fill_column_complete | apply fill_column_void];
    unfold fill_column; cbn [values]; unfold ffill_values.
  - intros i Hi. rewrite bfill_values_observed; rewrite ffill_from_observed;
      try reflexivity; try exact Hi.
  - intros pre v gap rest j Hvals Hv Hgap Hj. rewrite Hvals.
    pose proof (ffill_from_inner_gap NaN pre v gap rest j Hv Hgap Hj) as Hf.
    rewrite bfill_values_observed; rewrite Hf; [reflexivity | exact Hv].
  - intros gap v rest j Hvals Hgap Hv Hj. rewrite Hvals.
    rewrite (ffill_from_leading_gap gap (v :: rest) Hgap).
    cbn [ffill_from]. rewrite Hv.
    apply bfill_values_leading_gap; [exact Hgap | exact Hv | lia].
  - intros x Hin Hx.
    destruct (bfill_values_source _ _ Hin) as [->|Hin']; [discriminate|].
    destruct (ffill_from_source _ _ _ Hin') as [->|H]; [discriminate | exact H].
Qed.

(** ** Thresholds below 1 *)

Lemma all_or_observed (vs : list Cell) :
  (forall v, In v vs -> isna v = true)
  \/ (exists v, In v vs /\ isna v = false).
Proof.
  induction vs as [|v vs [Hall|(w & Hw & Hv)]].
  - left. intros v [].
  - destruct (isna v) eqn:Hv.
    + left. intros x [<-|Hx]; [exact Hv | exact (Hall x Hx)].
    + right. exists v. split; [left; reflexivity | exact Hv].
  - right. exists w. split; [right; exact Hw | exact Hv].
Qed.

Lemma kept_column_is_observed thresh c :
  SFltb thresh fone = true -> values c <> [] -> too_sparse thresh c = false ->
  observed c.
Proof.
  intros Hlt Hne Hs. destruct (all_or_observed (values c)) as [Hall|Hobs];
    [exfalso | exact Hobs].
  unfold too_sparse, exceeds, strict_gt, isna_mean in Hs.
  rewrite (filter_all isna _ Hall) in Hs.
  rewrite fraction_of_whole in Hs by (destruct (values c); [congruence | cbn; lia]).
  congruence.
Qed.

Lemma filled_without_row_pruning df thresh :
  NoDup (labels df) -> rectangular df -> SFltb thresh fone = true ->
  filled df thresh = bfill (ffill (pruned df thresh)).
Proof.
  intros Hnd Hrect Hlt. unfold filled.
  destruct (fill_frame (pruned df thresh)) as (_ & Hidx).
  apply dropna_fixed.
  - intros c' Hc' x Hx. rewrite (fill_columns df thresh Hnd) in Hc'.
    apply in_map_iff in Hc'. destruct Hc' as (c & <- & Hc).
    apply filter_In in Hc. destruct Hc as [Hc Hs]. apply negb_true_iff in Hs.
    apply (fill_column_complete c); [|exact Hx].
    apply (kept_column_is_observed thresh c Hlt); [|exact Hs].
    intros Hnil. unfold fill_column in Hx. cbn [values] in Hx.
    rewrite Hnil in Hx. exact Hx.
  - intros c' Hc'. rewrite Hidx. rewrite (fill_columns df thresh Hnd) in Hc'.
    apply in_map_iff in Hc'. destruct Hc' as (c & <- & Hc).
    apply filter_In in Hc. destruct Hc as [Hc _].
    rewrite fill_column_len.
    change (index (pruned df thresh)) with (index df). exact (Hrect c Hc).
Qed.

Lemma clean_steps_below_one df thresh :
  NoDup (labels df) -> rectangular df -> SFltb thresh fone = true ->
  index (clean_steps df thresh) = index df
  /\ columns (clean_steps df thresh)
     = map fill_column (filter (kept thresh) (columns df)).
Proof.
  intros Hnd Hrect Hlt.
  pose proof (filled_without_row_pruning df thresh Hnd Hrect Hlt) as Hf.
  split.
  - rewrite clean_steps_index, Hf. reflexivity.
  - rewrite (clean_steps_columns df thresh Hnd), Hf.
    rewrite (fill_columns df thresh Hnd).
    rewrite filter_after_map. unfold fill_column at 1. cbn [dtype].
    rewrite filter_twice. reflexivity.
Qed.

(** X3 -- With a threshold below 1, on a panel whose columns have one
    cell per row, [clean] drops no row: the returned panel has the index
    of the input, and its columns are the columns of the input that are
    numeric and not above the threshold (fraction and comparison in
    floats, as the code has them), in their order, each forward and
    backward filled.  (The fraction of a column that is missing
    throughout is the float 1, so a column that is kept has an
    observation, and filling closes all its gaps.) *)
Theorem clean_below_one (df : DataFrame) (thresh : binary64) (out : DataFrame) :
  clean df thresh = inr out ->
  rectangular df ->
  SFltb thresh fone = true ->
  index out = index df
  /\ columns out = map fill_column (filter (kept thresh) (columns df)).
Proof.
  intros Hc Hrect Hlt. apply clean_returns in Hc. destruct Hc as [Hnd ->].
  exact (clean_steps_below_one df thresh Hnd Hrect Hlt).
Qed.

Lemma clean_below_one_quarters :
  clean Sample.quarters f0_3 = inr Sample.quarters_clean
  /\ rectangular Sample.quarters
  /\ SFltb f0_3 fone = true
  /\ index Sample.quarters_clean = index Sample.quarters
  /\ columns Sample.quarters_clean
     = map fill_column (filter (kept f0_3) (columns Sample.quarters)).
Proof.
  assert (Hc : clean Sample.quarters f0_3 = inr Sample.quarters_clean)
    by (vm_compute; reflexivity).
  assert (Hr : rectangular Sample.quarters).
  { intros c Hc'. repeat (destruct Hc' as [<-|Hc']; [reflexivity|]). destruct Hc'. }
  assert (Hl : SFltb f0_3 fone = true) by reflexivity.
  split; [exact Hc|]. split; [exact Hr|]. split; [exact Hl|].
  exact (clean_below_one Sample.quarters f0_3 Sample.quarters_clean Hc Hr Hl).
Defined.

(** ** Panels that are clean already, and thresholds *)

(** X4 -- [clean] leaves a clean panel as it is: a panel with distinct
    labels, one cell per row in every column, no missing cell and only
    numeric dtypes is returned unchanged, for any threshold that is not
    below 0 (NaN included). *)
Theorem clean_leaves_clean_panels (df : DataFrame) (thresh : binary64) :
  NoDup (labels df) -> rectangular df -> complete df -> numeric df ->
  SFltb thresh fzero = false ->
  clean df thresh = inr df.
Proof.
  intros Hnd Hrect Hcomp Hnum Hpos.
  rewrite (clean_defined df thresh Hnd). f_equal.
  apply clean_steps_fixed; try assumption.
  intros c Hc. apply too_sparse_full; [exact (Hcomp c Hc) | intros _; exact Hpos].
Qed.

Ltac each_column Hc :=
  repeat (destruct Hc as [<-|Hc]; [|]); [..|destruct Hc].

Lemma clean_leaves_quarters_clean :
  NoDup (labels Sample.quarters_clean)
  /\ rectangular Sample.quarters_clean
  /\ complete Sample.quarters_clean
  /\ numeric Sample.quarters_clean
  /\ SFltb f0_3 fzero = false
  /\ clean Sample.quarters_clean f0_3 = inr Sample.quarters_clean.
Proof.
  assert (Hnd : NoDup (labels Sample.quarters_clean))
    by (apply unique_labels_NoDup; vm_compute; reflexivity).
  assert (Hr : rectangular Sample.quarters_clean)
    by (intros c Hc; each_column Hc; reflexivity).
  assert (Hcomp : complete Sample.quarters_clean).
  { intros c Hc; each_column Hc; intros v Hv; each_column Hv; reflexivity. }
  assert (Hnum : numeric Sample.quarters_clean)
    by (intros c Hc; each_column Hc; reflexivity).
  assert (Hpos : SFltb f0_3 fzero = false) by reflexivity.
  repeat (split; [assumption|]).
  exact (clean_leaves_clean_panels _ _ Hnd Hr Hcomp Hnum Hpos).
Defined.

Lemma too_sparse_lower thresh thresh' c :
  SFleb thresh thresh' = true -> too_sparse thresh c = false ->
  too_sparse thresh' c = false.
Proof.
  unfold too_sparse, exceeds, strict_gt. intros Hle Hs.
  destruct (SFltb thresh' (isna_mean (values c))) eqn:Hlt; [|reflexivity].
  rewrite (SFle_lt_trans _ _ _ Hle Hlt) in Hs. discriminate.
Qed.

(** X5 -- A higher threshold keeps every column a lower one keeps: the
    labels [clean] returns at a threshold are among the labels it returns
    at any higher threshold, in the same order. *)
Theorem higher_threshold_keeps_more (df : DataFrame) (thresh thresh' : binary64)
  (out out' : DataFrame) :
  clean df thresh = inr out ->
  clean df thresh' = inr out' ->
  SFleb thresh thresh' = true ->
  subsequence (labels out) (labels out').
Proof.
  intros Hc Hc' Hle.
  apply clean_returns in Hc. destruct Hc as [Hnd ->].
  apply clean_returns in Hc'. destruct Hc' as [_ ->].
  rewrite !clean_steps_kept_labels by exact Hnd.
  apply subsequence_kept_labels. intros c _. unfold kept.
  rewrite !andb_true_iff, !negb_true_iff. intros [Hs Hn].
  split; [exact (too_sparse_lower _ _ c Hle Hs) | exact Hn].
Qed.

Lemma higher_threshold_quarters :
  clean Sample.quarters f0_3 = inr Sample.quarters_clean
  /\ clean Sample.quarters f0_5 = inr (clean_steps Sample.quarters f0_5)
  /\ SFleb f0_3 f0_5 = true
  /\ subsequence (labels Sample.quarters_clean)
       (labels (clean_steps Sample.quarters f0_5)).
Proof.
  assert (H1 : clean Sample.quarters f0_3 = inr Sample.quarters_clean)
    by (vm_compute; reflexivity).
  assert (H2 : clean Sample.quarters f0_5
               = inr (clean_steps Sample.quarters f0_5))
    by (vm_compute; reflexivity).
  assert (H3 : SFleb f0_3 f0_5 = true) by reflexivity.
  repeat (split; [assumption|]).
  exact (higher_threshold_keeps_more _ _ _ _ _ H1 H2 H3).
Defined.

Lemma at_most_one_le mr er :
  (er < -52 \/ (er = -52 /\ mr = 4503599627370496%positive))%Z ->
  SFleb (S754_finite false mr er) fone = true.
Proof.
  intros [Her|[-> ->]]; [|reflexivity].
  unfold SFleb, fone. cbn [SFcompare].
  destruct (Z.compare_spec er (-52)); [lia | reflexivity | lia].
Qed.

Lemma never_sparse_from_one thresh c :
  SFleb fone thresh = true -> too_sparse thresh c = false.
Proof.
  intros Hone. unfold too_sparse, exceeds, strict_gt, isna_mean.
  pose proof (missing_count_bound (values c)) as Hk.
  destruct (SFltb thresh (fraction (length (filter isna (values c)))
                            (length (values c)))) eqn:Hlt; [exfalso | reflexivity].
  destruct (length (filter isna (values c))) as [|k].
  - rewrite fraction_of_none in Hlt.
    destruct (Nat.eqb (length (values c)) 0); [rewrite SFltb_nan in Hlt; discriminate|].
    pose proof (SFle_lt_trans _ _ _ Hone Hlt) as H. discriminate H.
  - destruct (fraction_at_most_one (S k) (length (values c))) as (mr & er & Hf & Hle);
      [lia|].
    rewrite Hf in Hlt.
    pose proof (SFlt_le_trans _ _ _ Hlt (at_most_one_le mr er Hle)) as H.
    apply SFlt_not_le in H. congruence.
Qed.

Lemma void_column_empties df thresh c :
  NoDup (labels df) ->
  In c (columns df) -> too_sparse thresh c = false ->
  (forall v, In v (values c) -> isna v = true) ->
  index (filled df thresh) = [].
Proof.
  intros Hnd Hc Hs Hall.
  assert (Hrows : complete_rows (bfill (ffill (pruned df thresh))) = []).
  { unfold complete_rows. apply filter_none. intros i _.
    destruct (row_complete (bfill (ffill (pruned df thresh))) i) eqn:Hrow;
      [exfalso | reflexivity].
    unfold row_complete in Hrow. rewrite forallb_forall in Hrow.
    assert (Hin : In (fill_column c) (columns (bfill (ffill (pruned df thresh))))).
    { rewrite (fill_columns df thresh Hnd). apply in_map. apply filter_In.
      split; [exact Hc | rewrite Hs; reflexivity]. }
    specialize (Hrow _ Hin).
    rewrite (fill_column_void c Hall) in Hrow. unfold notna, cell_at in Hrow.
    destruct (nth_in_or_default i (values c) NaN) as [Hnth|Hnth].
    - rewrite (Hall _ Hnth) in Hrow. discriminate.
    - rewrite Hnth in Hrow. discriminate. }
  unfold filled, dropna, take_rows. cbn [index]. rewrite Hrows. reflexivity.
Qed.

(** X6 -- From a threshold of 1 on no column is dropped for its missing
    cells: [clean] returns the numeric columns of the input, all of them.
    A column that is missing throughout is then kept through the fill,
    and the row pruning removes every row: the returned panel has no
    row. *)
Theorem threshold_from_one (df : DataFrame) (thresh : binary64) (out : DataFrame) :
  clean df thresh = inr out ->
  SFleb fone thresh = true ->
  columns (pruned df thresh) = columns df
  /\ labels out = map label (filter (fun c => is_number (dtype c)) (columns df))
  /\ ((exists c, In c (columns df) /\ forall v, In v (values c) -> isna v = true) ->
      index out = []).
Proof.
  intros Hc Hone. apply clean_returns in Hc. destruct Hc as [Hnd ->].
  split; [|split].
  - rewrite (pruned_columns df thresh Hnd). apply filter_all.
    intros c _. rewrite (never_sparse_from_one thresh c Hone). reflexivity.
  - rewrite (clean_steps_kept_labels df thresh Hnd). f_equal.
    apply filter_ext. intros c. unfold kept.
    rewrite (never_sparse_from_one thresh c Hone). reflexivity.
  - intros (c & Hc & Hall). rewrite clean_steps_index.
    exact (void_column_empties df thresh c Hnd Hc
             (never_sparse_from_one thresh c Hone) Hall).
Qed.

Lemma threshold_from_one_with_void :
  clean More.with_void fone = inr (mkDataFrame [] [ mkColumn "gdp" float64 [];
                                                    mkColumn "void" float64 [] ])
  /\ SFleb fone fone = true
  /\ columns (pruned More.with_void fone) = columns More.with_void
  /\ index (mkDataFrame [] [ mkColumn "gdp" float64 []; mkColumn "void" float64 [] ])
     = [].
Proof.
  assert (Hc : clean More.with_void fone
               = inr (mkDataFrame [] [ mkColumn "gdp" float64 [];
                                       mkColumn "void" float64 [] ]))
    by (vm_compute; reflexivity).
  assert (Hone : SFleb fone fone = true) by reflexivity.
  split; [exact Hc|]. split; [exact Hone|].
  destruct (threshold_from_one _ _ _ Hc Hone) as (Hcols & _ & Hrows).
  split; [exact Hcols|]. apply Hrows.
  exists (mkColumn "void" float64 [NaN; NaN]).
  split; [right; left; reflexivity|].
  intros v Hv. each_column Hv; reflexivity.
Defined.

(** X7 -- A negative threshold drops every column: on a panel that has
    rows, one cell per row in every column, [clean] returns the index of
    the input and no column. *)
Theorem negative_threshold_drops_all (df : DataFrame) (thresh : binary64) (out : DataFrame) :
  clean df thresh = inr out ->
  rectangular df -> index df <> [] ->
  SFltb thresh fzero = true ->
  columns out = [] /\ index out = index df.
Proof.
  intros Hc Hrect Hrows Hneg. apply clean_returns in Hc. destruct Hc as [Hnd ->].
  assert (Hlt : SFltb thresh fone = true)
    by (apply (SFlt_le_trans _ fzero); [exact Hneg | reflexivity]).
  destruct (clean_steps_below_one df thresh Hnd Hrect Hlt) as [Hidx Hcols].
  split; [|exact Hidx].
  rewrite Hcols. rewrite filter_none; [reflexivity|].
  intros c Hc. unfold kept.
  destruct (too_sparse thresh c) eqn:Hs; [reflexivity|]. exfalso.
  assert (Hne : values c <> []).
  { intros Hnil. apply Hrows. apply length_zero_iff_nil.
    rewrite <- (Hrect c Hc), Hnil. reflexivity. }
  pose proof (kept_threshold_nonneg thresh c Hne Hs) as Hpos.
  congruence.
Qed.

Lemma negative_threshold_quarters :
  clean Sample.quarters (SFopp fone) = inr (mkDataFrame (index Sample.quarters) [])
  /\ rectangular Sample.quarters
  /\ index Sample.quarters <> []
  /\ SFltb (SFopp fone) fzero = true
  /\ columns (mkDataFrame (index Sample.quarters) []) = []
  /\ index (mkDataFrame (index Sample.quarters) []) = index Sample.quarters.
Proof.
  assert (Hc : clean Sample.quarters (SFopp fone)
               = inr (mkDataFrame (index Sample.quarters) []))
    by (vm_compute; reflexivity).
  assert (Hr : rectangular Sample.quarters)
    by (intros c Hc'; each_column Hc'; reflexivity).
  assert (Hrows : index Sample.quarters <> []) by discriminate.
  assert (Hneg : SFltb (SFopp fone) fzero = true) by reflexivity.
  repeat (split; [assumption|]).
  exact (negative_threshold_drops_all _ _ _ Hc Hr Hrows Hneg).
Defined.

(** ** Split indices at the ends *)

Lemma slice_bound_whole n k : (Z.of_nat n <= k)%Z -> slice_bound n k = n.
Proof.
  intros Hk. unfold slice_bound. destruct (Z.ltb_spec k 0); lia.
Qed.

(** ** More about [prepare_data] *)

Section PrepareMore.

Variable read_csv : string -> Exception + DataFrame.
Variables Scaler Scaled : Type.
Variable fit_transform : ndarray Cell -> Exception + (Scaler * ndarray Scaled).
Variable loader_rejects : EconomicDataset Scaled -> Z -> bool -> option Exception.

Local Abbreviation prepare' :=
  (prepare_data read_csv Scaler Scaled fit_transform loader_rejects).

(** What a call that returned went through. *)
Lemma prepare_returned csv_path test_size batch w res w' :
  prepare' csv_path test_size batch w = (inr res, w') ->
  exists df fitted split_idx,
    read_csv csv_path = inr df
    /\ clean df f0_3 = inr (clean_steps df f0_3)
    /\ fit_transform (frame_values (clean_steps df f0_3)) = inr fitted
    /\ split_index test_size (length (rows (snd fitted))) = inr split_idx
    /\ res = mkPrepared
               (mkLoader (mkDataset (slice_to (rows (snd fitted)) split_idx))
                  batch true)
               (mkLoader (mkDataset (slice_from (rows (snd fitted)) split_idx))
                  batch false)
               (fst fitted) (labels df).
Proof.
  intros Hrun.
  assert (Hfst : fst (prepare' csv_path test_size batch w) = inr res)
    by (rewrite Hrun; reflexivity).
  rewrite prepare_data_run in Hrun. unfold prepare_steps in Hrun.
  destruct (read_csv csv_path) as [e|df] eqn:Hread; [discriminate|].
  destruct (unique_labels df) eqn:Hu; [|discriminate].
  destruct (fit_transform (frame_values (clean_steps df f0_3)))
    as [e|fitted] eqn:Hfit; [discriminate|].
  assert (Hclean : clean df f0_3 = inr (clean_steps df f0_3))
    by (rewrite clean_unfold, Hu; reflexivity).
  rewrite (prepare_outcome read_csv Scaler Scaled fit_transform loader_rejects
             csv_path test_size batch w df _ fitted Hread Hclean Hfit) in Hfst.
  destruct (split_index test_size (length (rows (snd fitted))))
    as [e|split_idx] eqn:Hk; [discriminate|].
  exists df, fitted, split_idx. repeat split; try assumption.
  cbv zeta in Hfst.
  destruct (loader_rejects _ batch true); [discriminate|].
  destruct (loader_rejects _ batch false); [discriminate|].
  injection Hfst as <-. reflexivity.
Qed.

(** X8 -- Whatever the test fraction (also outside of 0 to 1, where the
    split index is negative or beyond the end), a call of [prepare_data]
    that returns has put every row of the scaled array in exactly one
    partition and kept the order: the train rows followed by the test
    rows are the scaled array.  The train source shuffles, the test
    source does not, and both have the batch size of the call. *)
Theorem partitions_cover_the_array csv_path test_size batch w res w' :
  prepare' csv_path test_size batch w = (inr res, w') ->
  exists df cleaned fitted,
    read_csv csv_path = inr df
    /\ clean df f0_3 = inr cleaned
    /\ fit_transform (frame_values cleaned) = inr fitted
    /\ data (dataset (train_loader res)) ++ data (dataset (test_loader res))
       = rows (snd fitted)
    /\ dataset_len (dataset (train_loader res)) + dataset_len (dataset (test_loader res))
       = length (rows (snd fitted))
    /\ shuffle (train_loader res) = true
    /\ shuffle (test_loader res) = false
    /\ batch_size (train_loader res) = batch
    /\ batch_size (test_loader res) = batch
    /\ scaler res = fst fitted.
Proof.
  intros Hrun.
  destruct (prepare_returned _ _ _ _ _ _ Hrun)
    as (df & fitted & split_idx & Hread & Hclean & Hfit & _ & ->).
  exists df, (clean_steps df f0_3), fitted.
  cbn [train_loader test_loader dataset data shuffle batch_size scaler].
  repeat split; try assumption.
  - apply firstn_skipn.
  - unfold dataset_len. cbn [data]. rewrite <- length_app.
    unfold slice_to, slice_from. rewrite firstn_skipn. reflexivity.
Qed.

(** X9 -- [prepare_data] returns as feature names the column labels of
    the file as read, before cleaning.  The columns of the array that is
    scaled are those of the cleaned panel: their labels are among the
    feature names, in the same order, and can be fewer. *)
Theorem feature_names_are_the_raw_labels csv_path test_size batch w res w' :
  prepare' csv_path test_size batch w = (inr res, w') ->
  exists df cleaned,
    read_csv csv_path = inr df
    /\ clean df f0_3 = inr cleaned
    /\ feature_names res = labels df
    /\ subsequence (labels cleaned) (feature_names res)
    /\ ncols (frame_values cleaned) = length (labels cleaned)
    /\ ncols (frame_values cleaned) <= length (feature_names res).
Proof.
  intros Hrun.
  destruct (prepare_returned _ _ _ _ _ _ Hrun)
    as (df & fitted & split_idx & Hread & Hclean & Hfit & _ & ->).
  exists df, (clean_steps df f0_3). cbn [feature_names].
  pose proof Hclean as Hnd. apply clean_returns in Hnd. destruct Hnd as [Hnd _].
  destruct (clean_steps_labels df f0_3 Hnd) as (Hsub & Hlen).
  repeat split; try assumption.
  - unfold frame_values, labels. cbn [ncols]. rewrite length_map. reflexivity.
  - unfold frame_values, labels. cbn [ncols]. rewrite length_map. exact Hlen.
Qed.

(** X10 -- At the low end of the test fraction.  With a test fraction of
    0 (of either sign) the product is the number of rows itself: once the
    file is read, cleaned and scaled, the train dataset handed to the
    batch-source constructor is the whole scaled array and the test
    dataset is empty, and the call returns them unless the constructor
    rejects one.  With minus infinity, and an array that has rows, the
    product is infinite and [int] raises OverflowError: no batch source
    is built. *)
Theorem no_test_rows_at_zero csv_path test_size batch w df cleaned fitted :
  read_csv csv_path = inr df ->
  clean df f0_3 = inr cleaned ->
  fit_transform (frame_values cleaned) = inr fitted ->
  (Z.of_nat (length (rows (snd fitted))) <= max_count)%Z ->
  ((exists s, test_size = S754_zero s) ->
   fst (prepare' csv_path test_size batch w)
   = match loader_rejects (mkDataset (rows (snd fitted))) batch true with
     | Some e => inl e
     | None =>
         match loader_rejects (mkDataset []) batch false with
         | Some e => inl e
         | None =>
             inr (mkPrepared (mkLoader (mkDataset (rows (snd fitted))) batch true)
                             (mkLoader (mkDataset []) batch false)
                             (fst fitted) (labels df))
         end
     end)
  /\ (test_size = S754_infinity true -> rows (snd fitted) <> [] ->
      fst (prepare' csv_path test_size batch w)
      = inl (OverflowError "cannot convert float infinity to integer")).
Proof.
  intros Hread Hclean Hfit Hn.
  rewrite (prepare_outcome _ _ _ _ _ _ _ _ w df cleaned fitted Hread Hclean Hfit).
  split.
  - intros (s & ->). rewrite (split_index_at_zero s _ Hn). cbv zeta.
    unfold slice_to, slice_from.
    rewrite (slice_bound_whole _ _ (Z.le_refl _)).
    rewrite firstn_all, skipn_all. reflexivity.
  - intros -> Hrows. rewrite split_index_infinity; [reflexivity|].
    destruct (rows (snd fitted)); [congruence | cbn; lia].
Qed.

(** X11 -- At the high end of the test fraction.  With a test fraction
    of 1 the difference [1 - test_size] is 0 and so is the split index:
    once the file is read, cleaned and scaled, the train dataset handed
    to the batch-source constructor is empty and the test dataset is the
    whole scaled array.  With plus infinity, and an array that has rows,
    [int] raises OverflowError, and with NaN it raises ValueError: no
    batch source is built. *)
Theorem no_train_rows_at_one csv_path test_size batch w df cleaned fitted :
  read_csv csv_path = inr df ->
  clean df f0_3 = inr cleaned ->
  fit_transform (frame_values cleaned) = inr fitted ->
  (test_size = fone ->
   fst (prepare' csv_path test_size batch w)
   = match loader_rejects (mkDataset []) batch true with
     | Some e => inl e
     | None =>
         match loader_rejects (mkDataset (rows (snd fitted))) batch false with
         | Some e => inl e
         | None =>
             inr (mkPrepared (mkLoader (mkDataset []) batch true)
                             (mkLoader (mkDataset (rows (snd fitted))) batch false)
                             (fst fitted) (labels df))
         end
     end)
  /\ (test_size = S754_infinity false -> rows (snd fitted) <> [] ->
      fst (prepare' csv_path test_size batch w)
      = inl (OverflowError "cannot convert float infinity to integer"))
  /\ (test_size = S754_nan ->
      fst (prepare' csv_path test_size batch w)
      = inl (ValueError "cannot convert float NaN to integer")).
Proof.
  intros Hread Hclean Hfit.
  rewrite (prepare_outcome _ _ _ _ _ _ _ _ w df cleaned fitted Hread Hclean Hfit).
  split; [|split].
  - intros ->. rewrite split_index_at_one. reflexivity.
  - intros -> Hrows. rewrite split_index_infinity; [reflexivity|].
    destruct (rows (snd fitted)); [congruence | cbn; lia].
  - intros ->. rewrite split_index_nan. reflexivity.
Qed.

(** X17 -- Whatever its outcome, a call of [prepare_data] makes no
    provider request and never sleeps: all it adds to the log is printed
    lines, four at most.  Every object the store held before the call is
    unchanged after it.  When the file cannot be read the call raises the
    error of the reader and changes nothing at all. *)
Theorem prepare_only_prints csv_path test_size batch w :
  let run := prepare' csv_path test_size batch w in
  (forall k d, nth_error (heap w) k = Some d ->
               nth_error (heap (snd run)) k = Some d)
  /\ (exists log, events (snd run) = events w ++ log
                  /\ length log <= 4
                  /\ forall ev, In ev log -> exists line, ev = EvPrint line)
  /\ (forall e, read_csv csv_path = inl e -> run = (inl e, w)).
Proof.
  cbv zeta. rewrite prepare_data_run. unfold prepare_steps, split_steps, load_steps.
  destruct (read_csv csv_path) as [e|df].
  { split; [auto|]. split; [|intros e' [= <-]; reflexivity].
    exists []. rewrite app_nil_r. split; [reflexivity|].
    split; [cbn [length]; lia | intros ev []]. }
  split; [|split; [|intros e' [=]]].
  - intros k d Hk.
    destruct (unique_labels df);
      [destruct (fit_transform _) as [e|fitted];
       [|destruct (split_index test_size _) as [e|split_idx];
         [|cbv zeta; destruct (loader_rejects _ batch true);
           [|destruct (loader_rejects _ batch false)]]]|];
      cbn [snd heap]; repeat apply nth_error_grows; exact Hk.
  - destruct (unique_labels df);
      [destruct (fit_transform _) as [e|fitted];
       [|destruct (split_index test_size _) as [e|split_idx];
         [|cbv zeta; destruct (loader_rejects _ batch true);
           [|destruct (loader_rejects _ batch false)]]]|];
      cbn [snd events]; rewrite <- ?app_assoc; eexists;
      (split; [reflexivity|]); unfold clean_log; cbn [app length];
      (split; [lia|]); intros ev Hev; cbn [In] in Hev;
      repeat (destruct Hev as [<-|Hev]; [eexists; reflexivity|]); destruct Hev.
Qed.

End PrepareMore.

Lemma partitions_cover_two_rows :
  exists res w',
    Reference.prepare_data "panel.csv" Sample.two_rows "panel.csv" f0_5 32 world0
    = (inr res, w')
    /\ exists df cleaned fitted,
         Reference.read_csv "panel.csv" Sample.two_rows "panel.csv" = inr df
         /\ clean df f0_3 = inr cleaned
         /\ Reference.fit_transform (frame_values cleaned) = inr fitted
         /\ data (dataset (train_loader res)) ++ data (dataset (test_loader res))
            = rows (snd fitted)
         /\ dataset_len (dataset (train_loader res))
            + dataset_len (dataset (test_loader res))
            = length (rows (snd fitted))
         /\ shuffle (train_loader res) = true
         /\ shuffle (test_loader res) = false
         /\ batch_size (train_loader res) = 32%Z
         /\ batch_size (test_loader res) = 32%Z
         /\ scaler res = fst fitted.
Proof.
  destruct (Reference.prepare_data "panel.csv" Sample.two_rows "panel.csv"
              f0_5 32 world0) as [[e|res] w'] eqn:Hrun;
    [vm_compute in Hrun; discriminate|].
  exists res, w'. split; [reflexivity|].
  exact (partitions_cover_the_array
           (Reference.read_csv "panel.csv" Sample.two_rows)
           Reference.Scaler Reference.Scaled Reference.fit_transform
           Reference.loader_rejects "panel.csv" f0_5 32%Z world0 res w' Hrun).
Defined.

Lemma feature_names_quarters :
  exists res w',
    Reference.prepare_data "panel.csv" Sample.quarters "panel.csv" f0_2 32 world0
    = (inr res, w')
    /\ exists df cleaned,
         Reference.read_csv "panel.csv" Sample.quarters "panel.csv" = inr df
         /\ clean df f0_3 = inr cleaned
         /\ feature_names res = labels df
         /\ subsequence (labels cleaned) (feature_names res)
         /\ ncols (frame_values cleaned) = length (labels cleaned)
         /\ ncols (frame_values cleaned) <= length (feature_names res).
Proof.
  destruct (Reference.prepare_data "panel.csv" Sample.quarters "panel.csv"
              f0_2 32 world0) as [[e|res] w'] eqn:Hrun;
    [vm_compute in Hrun; discriminate|].
  exists res, w'. split; [reflexivity|].
  exact (feature_names_are_the_raw_labels
           (Reference.read_csv "panel.csv" Sample.quarters)
           Reference.Scaler Reference.Scaled Reference.fit_transform
           Reference.loader_rejects "panel.csv" f0_2 32%Z world0 res w' Hrun).
Defined.

Lemma no_test_rows_two_rows :
  exists fitted,
    Reference.read_csv "panel.csv" Sample.two_rows "panel.csv" = inr Sample.two_rows
    /\ clean Sample.two_rows f0_3 = inr Sample.two_rows
    /\ Reference.fit_transform (frame_values Sample.two_rows) = inr fitted
    /\ (Z.of_nat (length (rows (snd fitted))) <= max_count)%Z
    /\ partitions
         (Reference.prepare_data "panel.csv" Sample.two_rows "panel.csv"
            (S754_zero true) 32 world0)
       = Some (rows (snd fitted), [])
    /\ raised
         (Reference.prepare_data "panel.csv" Sample.two_rows "panel.csv"
            (S754_infinity true) 32 world0)
       = Some "OverflowError".
Proof.
  destruct (Reference.fit_transform (frame_values Sample.two_rows))
    as [e|fitted] eqn:Hfit; [vm_compute in Hfit; discriminate|].
  exists fitted.
  assert (Hread : Reference.read_csv "panel.csv" Sample.two_rows "panel.csv"
                  = inr Sample.two_rows) by reflexivity.
  assert (Hclean : clean Sample.two_rows f0_3 = inr Sample.two_rows)
    by (vm_compute; reflexivity).
  assert (Hn : (Z.of_nat (length (rows (snd fitted))) <= max_count)%Z).
  { vm_compute in Hfit. injection Hfit as <-. vm_compute. discriminate. }
  assert (Hrows : rows (snd fitted) <> []).
  { vm_compute in Hfit. injection Hfit as <-. discriminate. }
  split; [exact Hread|]. split; [exact Hclean|]. split; [reflexivity|].
  split; [exact Hn|].
  split.
  - destruct (no_test_rows_at_zero _ _ _ _ Reference.loader_rejects
                "panel.csv" (S754_zero true) 32%Z world0 _ _ _ Hread Hclean Hfit Hn)
      as [Hzero _].
    unfold partitions, Reference.prepare_data.
    rewrite (Hzero (ex_intro _ true eq_refl)).
    assert (Htrain : Reference.loader_rejects (mkDataset (rows (snd fitted))) 32 true
                     = None).
    { vm_compute in Hfit. injection Hfit as <-. vm_compute. reflexivity. }
    rewrite Htrain. reflexivity.
  - destruct (no_test_rows_at_zero _ _ _ _ Reference.loader_rejects
                "panel.csv" (S754_infinity true) 32%Z world0 _ _ _ Hread Hclean Hfit Hn)
      as [_ Hinf].
    unfold raised, Reference.prepare_data. rewrite (Hinf eq_refl Hrows).
    reflexivity.
Defined.

(** With a test fraction of 1 the train dataset is empty, and the check
    of a shuffling batch source rejects it. *)
Lemma no_train_rows_two_rows :
  exists fitted,
    Reference.read_csv "panel.csv" Sample.two_rows "panel.csv" = inr Sample.two_rows
    /\ clean Sample.two_rows f0_3 = inr Sample.two_rows
    /\ Reference.fit_transform (frame_values Sample.two_rows) = inr fitted
    /\ raised (Reference.prepare_data "panel.csv" Sample.two_rows "panel.csv"
                 fone 32 world0)
       = Some "ValueError"
    /\ partitions
         (prepare_data (Reference.read_csv "panel.csv" Sample.two_rows)
            Reference.Scaler Reference.Scaled Reference.fit_transform More.accepts
            "panel.csv" fone 32 world0)
       = Some ([], rows (snd fitted))
    /\ fst (Reference.prepare_data "panel.csv" Sample.two_rows "panel.csv"
              S754_nan 32 world0)
       = inl (ValueError "cannot convert float NaN to integer").
Proof.
  destruct (Reference.fit_transform (frame_values Sample.two_rows))
    as [e|fitted] eqn:Hfit; [vm_compute in Hfit; discriminate|].
  exists fitted.
  assert (Hread : Reference.read_csv "panel.csv" Sample.two_rows "panel.csv"
                  = inr Sample.two_rows) by reflexivity.
  assert (Hclean : clean Sample.two_rows f0_3 = inr Sample.two_rows)
    by (vm_compute; reflexivity).
  split; [exact Hread|]. split; [exact Hclean|]. split; [reflexivity|].
  split; [|split].
  - destruct (no_train_rows_at_one _ _ _ _ Reference.loader_rejects
                "panel.csv" fone 32%Z world0 _ _ _ Hread Hclean Hfit) as [Hone _].
    unfold raised, Reference.prepare_data. rewrite (Hone eq_refl). reflexivity.
  - destruct (no_train_rows_at_one _ _ _ _ More.accepts
                "panel.csv" fone 32%Z world0 _ _ _ Hread Hclean Hfit) as [Hone _].
    unfold partitions. rewrite (Hone eq_refl). reflexivity.
  - destruct (no_train_rows_at_one _ _ _ _ Reference.loader_rejects
                "panel.csv" S754_nan 32%Z world0 _ _ _ Hread Hclean Hfit)
      as (_ & _ & Hnan).
    unfold Reference.prepare_data. exact (Hnan eq_refl).
Defined.

(** ** More about [collect_data] *)

Lemma put_column_new c cols :
  ~ In (label c) (map label cols) -> put_column c cols = cols ++ [c].
Proof.
  induction cols as [|a cols IH]; cbn [put_column map app]; intros Hnew.
  - reflexivity.
  - destruct (String.eqb_spec (label a) (label c)) as [He|He].
    + exfalso. apply Hnew. left. exact He.
    + rewrite IH; [reflexivity|]. intros Hin. apply Hnew. right. exact Hin.
Qed.

Lemma setitem_in_order df done name s :
  in_order df done -> unborn df done -> ~ In name (map fst done) ->
  in_order (setitem df name s) (done ++ [(name, s)]).
Proof.
  unfold in_order. intros Hcols Hunb Hnew.
  assert (Hlabels : map label (columns df) = map fst done).
  { rewrite Hcols, map_map. reflexivity. }
  unfold setitem. cbn [index columns].
  destruct (index df) as [|d idx] eqn:Hidx; [destruct (s_obs s) as [|o os] eqn:Hobs|].
  - rewrite put_column_new by (cbn [label]; rewrite Hlabels; exact Hnew).
    rewrite map_app, Hcols. reflexivity.
  - rewrite put_column_new
      by (cbn [label]; rewrite map_map; cbn [label];
          intros Hin; apply Hnew; rewrite <- Hlabels; exact Hin).
    rewrite map_app. cbn [map fst snd]. f_equal.
    rewrite Hcols, map_map. apply map_ext_in. intros col Hcol.
    unfold aligned. cbn [label dtype].
    rewrite (reindex_no_obs (snd col)) by exact (Hunb Hidx col Hcol).
    reflexivity.
  - rewrite put_column_new by (cbn [label]; rewrite Hlabels; exact Hnew).
    rewrite map_app, Hcols. reflexivity.
Qed.

Lemma assemble_in_order cols df done :
  in_order df done -> sourced df done -> unborn df done ->
  NoDup (map fst (done ++ cols)) ->
  in_order (assemble df cols) (done ++ cols).
Proof.
  revert df done. induction cols as [|col cols IH]; intros df done Hord Hsrc Hunb Hnd.
  - rewrite app_nil_r. exact Hord.
  - cbn [assemble fold_left]. fold (assemble (setitem df (fst col) (snd col)) cols).
    rewrite map_app in Hnd. cbn [map] in Hnd.
    assert (Hnew : ~ In (fst col) (map fst done)).
    { intros Hin. apply NoDup_remove_2 in Hnd. apply Hnd.
      apply in_or_app. left. exact Hin. }
    pose proof (setitem_in_order df done (fst col) (snd col) Hord Hunb Hnew) as Hord'.
    destruct (setitem_sourced df done (fst col) (snd col) Hsrc Hunb) as [Hsrc' Hunb'].
    rewrite <- surjective_pairing in Hord', Hsrc', Hunb'.
    change (done ++ col :: cols) with (done ++ [col] ++ cols). rewrite app_assoc.
    apply IH; try assumption.
    rewrite <- app_assoc. rewrite map_app. exact Hnd.
Qed.

Section CollectMore.

Variable get_series : string -> Exception + Series.

Lemma fetched_names es :
  subsequence (map fst (fetched get_series es)) (map snd es).
Proof.
  induction es as [|entry es IH].
  - constructor.
  - rewrite fetched_cons, map_app. unfold fetched at 1. cbn [flat_map map].
    destruct (get_series (fst entry)); cbn [app map fst].
    + apply sub_skip. exact IH.
    + apply sub_keep. exact IH.
Qed.

Lemma subsequence_In {A} (l1 l2 : list A) x :
  subsequence l1 l2 -> In x l1 -> In x l2.
Proof.
  induction 1; intros Hin.
  - exact Hin.
  - right. auto.
  - destruct Hin as [<-|Hin]; [left; reflexivity | right; auto].
Qed.

Lemma subsequence_distinct {A} (l1 l2 : list A) :
  subsequence l1 l2 -> NoDup l2 -> NoDup l1.
Proof.
  induction 1; intros Hnd.
  - constructor.
  - apply IHsubsequence. apply NoDup_cons_iff in Hnd. apply Hnd.
  - apply NoDup_cons_iff in Hnd. destruct Hnd as [Hx Hnd].
    apply NoDup_cons_iff. split; [|auto].
    intros Hin. apply Hx. eapply subsequence_In; eassumption.
Qed.

Lemma assemble_fetched_in_order es :
  NoDup (map snd es) ->
  in_order (assemble empty_frame (fetched get_series es)) (fetched get_series es).
Proof.
  intros Hnd. destruct sourced_start as [Hsrc Hunb].
  apply (assemble_in_order _ empty_frame []); try assumption.
  - reflexivity.
  - cbn [app]. exact (subsequence_distinct _ _ (fetched_names es) Hnd).
Qed.

Lemma in_order_labels df done : in_order df done -> labels df = map fst done.
Proof.
  unfold in_order, labels. intros ->. rewrite map_map. reflexivity.
Qed.

Lemma run_requests (cat : Catalog) (w : World) :
  filter is_request (events (snd (collect_data get_series cat w)))
  = filter is_request (events w) ++ map EvRequest (map fst (entries cat)).
Proof.
  destruct w as [H E]. rewrite collect_data_run. cbn [snd events].
  rewrite filter_app. f_equal.
  induction (entries cat) as [|[series_id series_name] es IH].
  - reflexivity.
  - cbn [flat_map map fst]. rewrite filter_app, IH. f_equal.
    unfold round_log. destruct (get_series series_id); reflexivity.
Qed.

(** X12 -- When the display names of the catalog are distinct, the
    columns of the panel [collect_data] returns are the successfully
    fetched series in the order of the catalog, one column each, named by
    the display name and aligned to the index of the panel. *)
Theorem columns_follow_the_catalog (cat : Catalog) (w : World) :
  NoDup (map snd (entries cat)) ->
  exists panel,
    outcome (collect_data get_series cat w) = inr panel
    /\ columns panel
       = map (fun col => aligned (fst col) (snd col) (index panel))
           (fetched get_series (entries cat))
    /\ labels panel = map fst (fetched get_series (entries cat)).
Proof.
  intros Hnd. eexists. split; [apply collect_data_outcome|].
  pose proof (assemble_fetched_in_order (entries cat) Hnd) as Hord.
  split; [exact Hord | exact (in_order_labels _ _ Hord)].
Qed.

Lemma round_requests entry :
  filter is_request (round_log get_series entry) = [EvRequest (fst entry)].
Proof.
  destruct entry as [series_id series_name]. unfold round_log.
  destruct (get_series series_id); reflexivity.
Qed.

Lemma round_sleeps entry :
  filter is_sleep (round_log get_series entry)
  = map (fun _ => EvSleep (2 # 10)) (fetched get_series [entry]).
Proof.
  destruct entry as [series_id series_name]. unfold round_log, fetched.
  cbn [flat_map fst]. destruct (get_series series_id); reflexivity.
Qed.

Lemma filter_flat_map {A B} (p : B -> bool) (f : A -> list B) (l : list A) :
  filter p (flat_map f l) = flat_map (fun x => filter p (f x)) l.
Proof.
  induction l as [|x l IH]; cbn [flat_map]; [reflexivity|].
  rewrite filter_app, IH. reflexivity.
Qed.

Lemma run_sleeps (cat : Catalog) (w : World) :
  filter is_sleep (events (snd (collect_data get_series cat w)))
  = filter is_sleep (events w)
    ++ map (fun _ => EvSleep (2 # 10)) (fetched get_series (entries cat)).
Proof.
  destruct w as [H E]. rewrite collect_data_run. cbn [snd events].
  rewrite filter_app, filter_flat_map. f_equal.
  induction (entries cat) as [|entry es IH].
  - reflexivity.
  - cbn [flat_map]. rewrite round_sleeps, IH, (fetched_cons get_series entry es).
    rewrite map_app. reflexivity.
Qed.

(** X13 -- A run of [collect_data] requests every series of the catalog
    once, in catalog order, whether earlier requests failed or not (no
    retry, no early exit), and it sleeps once, 0.2 s, for each series
    fetched successfully and for no other. *)
Theorem one_request_per_series (cat : Catalog) (w : World) :
  exists log,
    events (snd (collect_data get_series cat w)) = events w ++ log
    /\ filter is_request log = map EvRequest (map fst (entries cat))
    /\ filter is_sleep log
       = map (fun _ => EvSleep (2 # 10)) (fetched get_series (entries cat)).
Proof.
  destruct w as [H E]. rewrite collect_data_run. cbn [snd events].
  eexists. split; [reflexivity|]. split.
  - rewrite filter_flat_map. induction (entries cat) as [|entry es IH].
    + reflexivity.
    + cbn [flat_map map]. rewrite round_requests, IH. reflexivity.
  - rewrite filter_flat_map. induction (entries cat) as [|entry es IH].
    + reflexivity.
    + cbn [flat_map]. rewrite round_sleeps, IH, (fetched_cons get_series entry es).
      rewrite map_app. reflexivity.
Qed.

Lemma fetched_nothing es :
  (forall entry, In entry es -> exists e, get_series (fst entry) = inl e) ->
  fetched get_series es = [].
Proof.
  induction es as [|entry es IH]; intros Hfail; [reflexivity|].
  rewrite fetched_cons, IH by (intros x Hx; apply Hfail; right; exact Hx).
  destruct (Hfail entry (or_introl eq_refl)) as (e & He).
  unfold fetched. cbn [flat_map]. rewrite He. reflexivity.
Qed.

(** X14 -- When every request fails, [collect_data] still returns: the
    empty frame [pd.DataFrame()], without index and without column, and
    the run has not slept at all. *)
Theorem all_failures_give_the_empty_frame (cat : Catalog) (w : World) :
  (forall entry, In entry (entries cat) -> exists e, get_series (fst entry) = inl e) ->
  outcome (collect_data get_series cat w) = inr empty_frame
  /\ filter is_sleep (events (snd (collect_data get_series cat w)))
     = filter is_sleep (events w).
Proof.
  intros Hfail. split.
  - rewrite collect_data_outcome, (fetched_nothing _ Hfail). reflexivity.
  - rewrite run_sleeps, (fetched_nothing _ Hfail), app_nil_r. reflexivity.
Qed.

(** X15 -- When no request fails, every request of the run is followed by
    a pause of 0.2 s before the next request. *)
Theorem successes_are_paced (cat : Catalog) (H : list DataFrame) :
  (forall entry, In entry (entries cat) -> exists s, get_series (fst entry) = inr s) ->
  paced (2 # 10) false (events (snd (collect_data get_series cat (mkWorld H []))))
  = true.
Proof.
  intros Hok. rewrite collect_data_run. cbn [snd events app].
  apply paced_when_all_succeed. exact Hok.
Qed.

(** X16 -- A request that fails is followed by the next request of the
    catalog with no pause in between, whatever pause is asked for: the
    sleep is skipped on the failure path. *)
Theorem failure_skips_the_pause (cat : Catalog) (H : list DataFrame)
  (pause : Q) es1 entry next es2 e :
  entries cat = es1 ++ entry :: next :: es2 ->
  get_series (fst entry) = inl e ->
  paced pause false (events (snd (collect_data get_series cat (mkWorld H []))))
  = false.
Proof.
  intros Hcat Hfail. rewrite collect_data_run. cbn [snd events app].
  rewrite Hcat. exact (failure_breaks_pacing get_series pause es1 entry next es2 e Hfail).
Qed.

End CollectMore.

Lemma columns_follow_two_series :
  NoDup (map snd (entries Sample.two_series))
  /\ exists panel,
       outcome (collect_data Sample.a_is_empty Sample.two_series world0) = inr panel
       /\ columns panel
          = map (fun col => aligned (fst col) (snd col) (index panel))
              (fetched Sample.a_is_empty (entries Sample.two_series))
       /\ labels panel = map fst (fetched Sample.a_is_empty (entries Sample.two_series)).
Proof.
  assert (Hnd : NoDup (map snd (entries Sample.two_series))).
  { apply (NoDup_count_occ' string_dec). intros x Hx.
    repeat (destruct Hx as [<-|Hx]; [vm_compute; reflexivity|]). destruct Hx. }
  split; [exact Hnd|].
  exact (columns_follow_the_catalog Sample.a_is_empty Sample.two_series world0 Hnd).
Defined.

Lemma all_failures_two_series :
  (forall entry, In entry (entries Sample.two_series) ->
     exists e, More.all_fail (fst entry) = inl e)
  /\ outcome (collect_data More.all_fail Sample.two_series world0) = inr empty_frame
  /\ filter is_sleep (events (snd (collect_data More.all_fail Sample.two_series world0)))
     = filter is_sleep (events world0).
Proof.
  assert (Hfail : forall entry, In entry (entries Sample.two_series) ->
                    exists e, More.all_fail (fst entry) = inl e).
  { intros entry _. eexists. reflexivity. }
  split; [exact Hfail|].
  exact (all_failures_give_the_empty_frame More.all_fail Sample.two_series world0 Hfail).
Defined.

Lemma successes_are_paced_two_series :
  (forall entry, In entry (entries Sample.two_series) ->
     exists s, More.all_answer (fst entry) = inr s)
  /\ paced (2 # 10) false
       (events (snd (collect_data More.all_answer Sample.two_series world0)))
     = true.
Proof.
  assert (Hok : forall entry, In entry (entries Sample.two_series) ->
                  exists s, More.all_answer (fst entry) = inr s).
  { intros entry _. eexists. reflexivity. }
  split; [exact Hok|].
  exact (successes_are_paced More.all_answer Sample.two_series [] Hok).
Defined.

Lemma failure_skips_the_pause_two_series :
  entries Sample.two_series = [] ++ ("A", "a") :: ("B", "b") :: []
  /\ Sample.a_fails "A" = inl (ValueError "Bad Request.  The series does not exist.")
  /\ paced 0 false
       (events (snd (collect_data Sample.a_fails Sample.two_series world0)))
     = false.
Proof.
  assert (Hcat : entries Sample.two_series = [] ++ ("A", "a") :: ("B", "b") :: [])
    by reflexivity.
  assert (Hfail : Sample.a_fails (fst ("A", "a"))
                  = inl (ValueError "Bad Request.  The series does not exist."))
    by reflexivity.
  split; [exact Hcat|]. split; [exact Hfail|].
  exact (failure_skips_the_pause Sample.a_fails Sample.two_series [] 0
           [] ("A", "a") ("B", "b") [] _ Hcat Hfail).
Defined.

(** ** The catalog of the file *)

Lemma fetched_at_most get_series es :
  length (fetched get_series es) <= length es.
Proof.
  pose proof (subsequence_shorter _ _ (fetched_names get_series es)) as Hlen.
  rewrite !length_map in Hlen. exact Hlen.
Qed.

(** X18 -- On [series_map], the catalog the file ships, no display name
    is used twice, so no series overwrites the column of another:
    whatever the provider answers, the panel [collect_data] returns has
    one column for each series fetched successfully, in catalog order and
    under its display name.  The run makes 54 requests, one for each
    series of the catalog, and sleeps 54 times at most. *)
Theorem shipped_catalog_run (get_series : string -> Exception + Series) (w : World) :
  let run := collect_data get_series series_map w in
  exists panel,
    outcome run = inr panel
    /\ labels panel = map fst (fetched get_series (entries series_map))
    /\ length (columns panel) = length (fetched get_series (entries series_map))
    /\ length (filter is_request (events (snd run)))
       = length (filter is_request (events w)) + 54
    /\ length (filter is_sleep (events (snd run)))
       <= length (filter is_sleep (events w)) + 54.
Proof.
  cbv zeta. eexists. split; [apply collect_data_outcome|].
  destruct series_map_names_distinct as [Hnd _].
  pose proof (assemble_fetched_in_order get_series (entries series_map) Hnd) as Hord.
  split; [exact (in_order_labels _ _ Hord)|]. split.
  - rewrite Hord, length_map. reflexivity.
  - assert (Hn : length (entries series_map) = 54) by (vm_compute; reflexivity).
    split.
    + rewrite run_requests, length_app, !length_map, Hn. reflexivity.
    + rewrite run_sleeps, length_app, length_map.
      pose proof (fetched_at_most get_series (entries series_map)) as Hlen.
      rewrite Hn in Hlen. lia.
Qed.
